(** * Sports Match Analyzer (script.js): prediction engine

    A shallow embedding of the parts of [script.js] that decide the
    behaviour of the prediction engine: the win-probability model, the
    consistency reconciliation, the score-distribution generator, the
    match-record store with its ingestion handlers, input validation,
    the statistical extractors and [performAnalysis]. Rendering (DOM
    updates, charts, toasts) is left out.

    Conventions.
    - A JavaScript [Number] that takes part in the model's arithmetic
      ([Math.exp], divisions, weighted sums) is a real number [R]:
      arithmetic is exact, rounding of IEEE doubles is not tracked, and
      [NaN] / infinities do not exist. Where a double would underflow
      to 0 or lose a fraction (means of several hundred goals, scores
      near 2^53) the statements carry the bound that keeps the inputs
      inside the range on which doubles and reals agree up to rounding.
    - Scores, match numbers and timestamps are integers [Z].
    - Strings are [string]; every [ascii] is one code unit. *)

From Stdlib Require Import ZArith QArith Reals Lra Lia List Bool String Ascii.
From Stdlib Require Import Permutation Sorted.
From Stdlib Require Lqa.
Import ListNotations.

(** ** JavaScript numeric primitives over [R] *)

Module JS.
Local Open Scope R_scope.

(** [Math.sign]. *)
Definition sign (x : R) : R :=
  if Rlt_dec 0 x then 1 else if Rlt_dec x 0 then -1 else 0.

(** [Math.max] with three arguments. *)
Definition max3 (a b c : R) : R := Rmax (Rmax a b) c.

(** [a !== b] on numbers. *)
Definition neqb (a b : R) : bool := if Req_dec_T a b then false else true.

(** [a < b], [a > b] on numbers. *)
Definition ltb (a b : R) : bool := if Rlt_dec a b then true else false.
Definition gtb (a b : R) : bool := if Rgt_dec a b then true else false.

End JS.

(** ** The feature snapshot and the prediction model *)

Module Model.
Local Open Scope R_scope.

(** [const WEIGHTS = { ... }]. *)
Module WEIGHTS.
Definition RECENT_FORM : R := 28 / 10.
Definition H2H_MATCHES : R := 25 / 10.
Definition OVERALL_PERFORMANCE : R := 22 / 10.
Definition HOME_ADVANTAGE : R := 16 / 10.
Definition RANKING : R := 12 / 10.
Definition MATCH_IMPORTANCE : R := 15 / 10.
Definition SCORING_TREND : R := 14 / 10.
Definition DEFENSIVE_TREND : R := 16 / 10.
Definition MOMENTUM : R := 2.
Definition CONSISTENCY : R := 15 / 10.
End WEIGHTS.

(** The object returned by [prepareMatchFeatures]. *)
Record BasicStats := {
  team1AvgScore : R;
  team2AvgScore : R;
  team1AvgConceded : R;
  team2AvgConceded : R;
  h2hAdvantage : R;
  locationFactor : R;
  rankingDiff : R;
  matchImportance : R;
  totalLine : R;
  pointSpread : R;
  spreadDirection : R
}.

Record AdvancedStats := {
  team1RecentForm : R;
  team2RecentForm : R;
  team1DefenseStrength : R;
  team2DefenseStrength : R;
  team1AttackStrength : R;
  team2AttackStrength : R;
  team1Consistency : R;
  team2Consistency : R;
  team1MomentumIndex : R;
  team2MomentumIndex : R;
  team1HomeAdvantage : R;
  team2HomeAdvantage : R;
  team1MatchImportancePerformance : R;
  team2MatchImportancePerformance : R
}.

Record ScoringTrends := {
  team1Trend : R;
  team2Trend : R;
  overallTrend : R
}.

Record CleanSheetStats := {
  team1CleanSheetPct : R;
  team2CleanSheetPct : R;
  team1CleanSheets : nat;
  team2CleanSheets : nat;
  csTeam1Matches : nat;
  csTeam2Matches : nat
}.

Record Trends := {
  scoring : ScoringTrends;
  cleanSheets : CleanSheetStats
}.

Record DataQuality := {
  totalMatches : nat;
  team1Matches : nat;
  team2Matches : nat;
  h2hMatches : nat;
  dataSufficiency : bool;
  dataExcellence : bool
}.

Record Features := {
  basicStats : BasicStats;
  advancedStats : AdvancedStats;
  trends : Trends;
  dataQuality : DataQuality
}.

(** The object returned by [calculateModelV1WinProbabilities]. *)
Record Probabilities := {
  team1WinProb : R;
  team2WinProb : R;
  drawProb : R
}.

Definition probSum (p : Probabilities) : R :=
  team1WinProb p + team2WinProb p + drawProb p.

(** *** [calculateModelV1WinProbabilities], statement by statement *)

Section WinProbabilities.
Variable features : Features.

Let bs := basicStats features.
Let adv := advancedStats features.

(** [const attackDifference = ...]. *)
Definition attackDifference : R :=
  (team1AttackStrength adv - team2DefenseStrength adv) -
  (team2AttackStrength adv - team1DefenseStrength adv).

(** [let advantageCoefficient = ...] followed by the three conditional
    [+=] statements (location, match importance, ranking). *)
Definition advantageCoefficient : R :=
  let c0 := attackDifference * WEIGHTS.OVERALL_PERFORMANCE +
            (team1RecentForm adv - team2RecentForm adv) * WEIGHTS.RECENT_FORM +
            h2hAdvantage bs * WEIGHTS.H2H_MATCHES +
            (team1MomentumIndex adv - team2MomentumIndex adv) * WEIGHTS.MOMENTUM in
  let c1 :=
    if JS.neqb (locationFactor bs) 0 then
      let locationTeamAdvantage :=
        if Req_dec_T (locationFactor bs) 1
        then team1HomeAdvantage adv else team2HomeAdvantage adv in
      c0 + locationFactor bs * locationTeamAdvantage * WEIGHTS.HOME_ADVANTAGE
    else c0 in
  let c2 :=
    if JS.neqb (matchImportance bs) 1 then
      let importanceDifference :=
        team1MatchImportancePerformance adv - team2MatchImportancePerformance adv in
      c1 + (matchImportance bs - 1) * importanceDifference * WEIGHTS.MATCH_IMPORTANCE
    else c1 in
  if JS.neqb (rankingDiff bs) 0 then
    let normalizedRankingDiff :=
      - JS.sign (rankingDiff bs) * Rmin 1 (Rabs (rankingDiff bs) / 20) in
    c2 + normalizedRankingDiff * WEIGHTS.RANKING
  else c2.

(** [const normalizedAdvantage = Math.max(-3, Math.min(3, advantageCoefficient))]. *)
Definition normalizedAdvantage : R := Rmax (-3) (Rmin 3 advantageCoefficient).

(** [const scoringRate], [const projectedMarginAbs]. *)
Definition scoringRate : R := team1AvgScore bs + team2AvgScore bs.
Definition projectedMarginAbs : R := Rabs attackDifference.

(** [let baseDrawRate = ...] followed by the two conditional [+=]. *)
Definition baseDrawRate : R :=
  let b0 := 35 - (scoringRate * 4) - (projectedMarginAbs * 15) in
  let b1 :=
    if JS.ltb (team1DefenseStrength adv) (8 / 10) &&
       JS.ltb (team2DefenseStrength adv) (8 / 10)
    then b0 + 10 else b0 in
  if JS.gtb (matchImportance bs) (13 / 10)
  then b1 + (matchImportance bs - 13 / 10) * 8 else b1.

(** [let drawProb = Math.max(5, Math.min(45, baseDrawRate))]. *)
Definition drawProbClamped : R := Rmax 5 (Rmin 45 baseDrawRate).

(** [baseProbTotal], [baseTeam1WinProb], [baseTeam2WinProb]. *)
Definition baseProbTotal : R := 100 - drawProbClamped.
Definition baseTeam1WinProb : R := baseProbTotal / (1 + exp (- normalizedAdvantage)).
Definition baseTeam2WinProb : R := baseProbTotal - baseTeam1WinProb.

(** First normalization: [const total = ...] and the three divisions. *)
Definition normalizeTo100 (p : Probabilities) : Probabilities :=
  let total := team1WinProb p + team2WinProb p + drawProb p in
  {| team1WinProb := (team1WinProb p / total) * 100;
     team2WinProb := (team2WinProb p / total) * 100;
     drawProb := (drawProb p / total) * 100 |}.

Definition stageNormalized : Probabilities :=
  normalizeTo100 {| team1WinProb := baseTeam1WinProb;
                    team2WinProb := baseTeam2WinProb;
                    drawProb := drawProbClamped |}.

(** [if (!dataSufficiency) { ... }]: 30% reversion to (40, 40, 20). *)
Definition revertToPrior (p : Probabilities) : Probabilities :=
  let reversion := 3 / 10 in
  {| team1WinProb := team1WinProb p * (1 - reversion) + 40 * reversion;
     team2WinProb := team2WinProb p * (1 - reversion) + 40 * reversion;
     drawProb := drawProb p * (1 - reversion) + 20 * reversion |}.

Definition stageBlended : Probabilities :=
  if negb (dataSufficiency (dataQuality features))
  then revertToPrior stageNormalized else stageNormalized.

(** [Math.max(5, ...)] on each of the three. *)
Definition floorAt5 (p : Probabilities) : Probabilities :=
  {| team1WinProb := Rmax 5 (team1WinProb p);
     team2WinProb := Rmax 5 (team2WinProb p);
     drawProb := Rmax 5 (drawProb p) |}.

Definition stageFloored : Probabilities := floorAt5 stageBlended.

(** [const finalTotal = ...; return { ... }]. *)
Definition calculateModelV1WinProbabilities : Probabilities :=
  normalizeTo100 stageFloored.

End WinProbabilities.

(** *** [ensurePredictionConsistency] *)

(** The strings ['team1'], ['team2'], ['draw'] held by [predictedWinner]
    and [marginPredictedWinner]. *)
Inductive Winner := W_team1 | W_team2 | W_draw.

Definition Winner_eqb (a b : Winner) : bool :=
  match a, b with
  | W_team1, W_team1 | W_team2, W_team2 | W_draw, W_draw => true
  | _, _ => false
  end.

(** [const highestProb = Math.max(...)] and the [if / else if / else]
    that sets [predictedWinner]. *)
Definition predictedWinner (probabilities : Probabilities) : Winner :=
  let highestProb := JS.max3 (team1WinProb probabilities)
                             (team2WinProb probabilities)
                             (drawProb probabilities) in
  if Req_dec_T (team1WinProb probabilities) highestProb then W_team1
  else if Req_dec_T (team2WinProb probabilities) highestProb then W_team2
  else W_draw.

Definition marginThreshold : R := 25 / 100.

(** [const marginPredictedWinner = projectedMargin > marginThreshold ? ... ]. *)
Definition marginPredictedWinner (projectedMargin : R) : Winner :=
  if JS.gtb projectedMargin marginThreshold then W_team1
  else if JS.ltb projectedMargin (- marginThreshold) then W_team2
  else W_draw.

Definition ensurePredictionConsistency
    (probabilities : Probabilities) (projectedMargin : R) : Probabilities * R :=
  (* const adjustedProbabilities = { ...probabilities } *)
  let adjustedProbabilities :=
    {| team1WinProb := team1WinProb probabilities;
       team2WinProb := team2WinProb probabilities;
       drawProb := drawProb probabilities |} in
  let adjustedMargin := projectedMargin in
  let predictedWinner_ := predictedWinner probabilities in
  if Winner_eqb predictedWinner_ W_draw then
    let adjustedMargin := adjustedMargin * (2 / 10) in
    (adjustedProbabilities, adjustedMargin)
  else
    let marginPredictedWinner_ := marginPredictedWinner projectedMargin in
    let adjustedMargin :=
      if negb (Winner_eqb predictedWinner_ marginPredictedWinner_) then
        if Winner_eqb predictedWinner_ W_team1 then
          let probConfidence :=
            (team1WinProb probabilities -
             Rmax (team2WinProb probabilities) (drawProb probabilities)) / 100 in
          Rmax marginThreshold (Rabs adjustedMargin * (8 / 10))
        else if Winner_eqb predictedWinner_ W_team2 then
          let probConfidence :=
            (team2WinProb probabilities -
             Rmax (team1WinProb probabilities) (drawProb probabilities)) / 100 in
          Rmin (- marginThreshold) (- Rabs adjustedMargin * (8 / 10))
        else adjustedMargin
      else adjustedMargin in
    (adjustedProbabilities, adjustedMargin).

(** *** Vocabulary of the properties *)

(** The three probabilities sum to 100 within the tolerance 1e-9. *)
Definition sumsTo100 (p : Probabilities) : Prop :=
  Rabs (probSum p - 100) <= 1 / 10 ^ 9.

(** The draw probability as the specification words it: base rate, the
    two bonuses, the clamp. To be compared with [drawProbClamped]. *)
Definition drawProbSpec (f : Features) : R :=
  let bs := basicStats f in
  let adv := advancedStats f in
  let base := 35 - 4 * (team1AvgScore bs + team2AvgScore bs)
                 - 15 * Rabs (attackDifference f) in
  let defenseBonus :=
    if Rlt_dec (team1DefenseStrength adv) (8 / 10) then
      if Rlt_dec (team2DefenseStrength adv) (8 / 10) then 10 else 0
    else 0 in
  let importanceBonus :=
    if Rlt_dec (13 / 10) (matchImportance bs)
    then 8 * (matchImportance bs - 13 / 10) else 0 in
  Rmax 5 (Rmin 45 (base + defenseBonus + importanceBonus)).

(** Draw is the probability-max outcome: strictly above both wins. *)
Definition drawIsMax (p : Probabilities) : Prop :=
  team1WinProb p < drawProb p /\ team2WinProb p < drawProb p.

End Model.

(** ** The score-distribution generator *)

Module Distribution.
Local Open Scope R_scope.

(** One entry of the table; the "Other" bucket has both scores [-1]. *)
Record Cell := {
  team1Score : Z;
  team2Score : Z;
  probability : R
}.

(** [poissonProbability(k, lambda)]: the [for] loop multiplies [result]
    by [lambda / i] for [i = 1 .. k]. [Math.exp] is the real exponential
    here, which is never 0; in double precision [Math.exp(-lambda)] is 0
    from about [lambda = 745.14] on. What is stated of the table below
    therefore carries a bound on the two means wherever it needs a
    positive total. *)
Fixpoint poissonLoop (lambda : R) (i : nat) (steps : nat) (result : R) : R :=
  match steps with
  | O => result
  | S steps' => poissonLoop lambda (S i) steps' (result * (lambda / INR i))
  end.

Definition poissonProbability (k : nat) (lambda : R) : R :=
  if Rle_dec lambda 0 then (if Nat.eqb k 0 then 1 else 0)
  else
    let exp_ := exp (- lambda) in
    poissonLoop lambda 1 k exp_.

(** The body of the two nested [for] loops for one pair of scores. *)
Definition cellProbability (projectedTotal team1Mean team2Mean : R)
    (team1Score team2Score : nat) : R :=
  let team1Prob := poissonProbability team1Score team1Mean in
  let team2Prob := poissonProbability team2Score team2Mean in
  let combinedProb := team1Prob * team2Prob in
  let combinedProb :=
    if Nat.eqb team1Score team2Score then combinedProb * (13 / 10)
    else combinedProb in
  let combinedProb :=
    if Nat.eqb team1Score 0 && Nat.eqb team2Score 0 && JS.ltb projectedTotal 2
    then combinedProb * (17 / 10) else combinedProb in
  let combinedProb :=
    if (Nat.leb 3 team1Score && Nat.leb 2 team2Score) ||
       (Nat.leb 2 team1Score && Nat.leb 3 team2Score)
    then combinedProb * (12 / 10) else combinedProb in
  let combinedProb :=
    if Nat.ltb 6 (team1Score + team2Score) then combinedProb * (7 / 10)
    else combinedProb in
  let combinedProb :=
    if (Nat.eqb team1Score 1 && Nat.eqb team2Score 0) ||
       (Nat.eqb team1Score 0 && Nat.eqb team2Score 1) ||
       (Nat.eqb team1Score 1 && Nat.eqb team2Score 1) ||
       (Nat.eqb team1Score 2 && Nat.eqb team2Score 1) ||
       (Nat.eqb team1Score 1 && Nat.eqb team2Score 2)
    then combinedProb * (115 / 100) else combinedProb in
  combinedProb * 100.

(** The 25 pairs in the order the loops push them: team1Score outer. *)
Definition scorePairs : list (nat * nat) :=
  flat_map (fun a => map (fun b => (a, b)) (seq 0 5)) (seq 0 5).

Definition rawCells (projectedTotal projectedMargin : R) : list Cell :=
  let team1Mean := (projectedTotal / 2) + (projectedMargin / 2) in
  let team2Mean := (projectedTotal / 2) - (projectedMargin / 2) in
  map (fun ab =>
         {| team1Score := Z.of_nat (fst ab);
            team2Score := Z.of_nat (snd ab);
            probability :=
              cellProbability projectedTotal team1Mean team2Mean (fst ab) (snd ab) |})
      scorePairs.

(** [reduce((sum, dist) => sum + dist.probability, 0)]. *)
Definition sumProbability (l : list Cell) : R :=
  fold_left (fun sum dist => sum + probability dist) l 0.

(** The [forEach] that rescales every cell. *)
Definition normalizeCells (l : list Cell) : list Cell :=
  let totalProb := sumProbability l in
  map (fun dist =>
         {| team1Score := team1Score dist;
            team2Score := team2Score dist;
            probability := (probability dist / totalProb) * 100 |}) l.

(** [Array.prototype.sort] with comparator [(a, b) => b.probability - a.probability]:
    a stable sort, highest probability first. *)
Fixpoint insertDesc (x : Cell) (l : list Cell) : list Cell :=
  match l with
  | [] => [x]
  | y :: l' =>
    if Rle_dec (probability y - probability x) 0 then x :: y :: l'
    else y :: insertDesc x l'
  end.

Definition sortDesc (l : list Cell) : list Cell := fold_right insertDesc [] l.

(** [otherProb] as computed from the 25 normalized cells. *)
Definition otherProb (normalized : list Cell) : R :=
  Rmax 0 (100 - sumProbability normalized).

Definition otherCell (p : R) : Cell :=
  {| team1Score := (-1)%Z; team2Score := (-1)%Z; probability := p |}.

Definition generateScoreDistribution (projectedTotal projectedMargin : R) : list Cell :=
  let scoreDistribution := normalizeCells (rawCells projectedTotal projectedMargin) in
  let otherProb_ := otherProb scoreDistribution in
  let scoreDistribution :=
    if JS.gtb otherProb_ (1 / 10)
    then scoreDistribution ++ [otherCell otherProb_]
    else scoreDistribution in
  sortDesc scoreDistribution.

(** Whether the table holds the "Other" bucket. *)
Definition isOther (c : Cell) : bool :=
  Z.eqb (team1Score c) (-1) && Z.eqb (team2Score c) (-1).

Definition hasOther (l : list Cell) : bool := existsb isOther l.

End Distribution.

(** ** The match-record store, ingestion and validation *)

Module Store.
Local Open Scope string_scope.
Local Open Scope Z_scope.

(** The keys of [matchData], passed around as the strings ['h2h'],
    ['team1'], ['team2']. *)
Inductive Category := C_h2h | C_team1 | C_team2.

Definition Category_eqb (a b : Category) : bool :=
  match a, b with
  | C_h2h, C_h2h | C_team1, C_team1 | C_team2, C_team2 => true
  | _, _ => false
  end.

(** The strings returned by [calculateSpreadCover]. *)
Inductive SpreadCover := FavoriteCovered | UnderdogCovered | Push.

(** The object pushed by [processMatchScore]; [null] is [None]. *)
Record MatchRecord := {
  matchNumber : Z;
  team1Score : Z;
  team2Score : Z;
  totalScore : Z;
  outcome : string;
  category : Category;
  totalOverLine : option bool;
  spreadCover : option SpreadCover;
  marginOfVictory : Z;
  goalEfficiency : Q;
  cleanSheet : bool;
  timestamp : Z
}.

(** [const matchData = { h2h: [], team1: [], team2: [] }]. *)
Record MatchData := {
  h2h : list MatchRecord;
  team1 : list MatchRecord;
  team2 : list MatchRecord
}.

(** The script's global variables that the core reads and writes;
    [ticks] counts the calls to [Date.now()] made so far. *)
Record State := {
  matchData : MatchData;
  team1Name : string;
  team2Name : string;
  team1Ranking : Z;
  team2Ranking : Z;
  matchImportance : Q;
  matchLocation : string;
  totalLine : Q;
  pointSpread : Q;
  spreadDirection : string;
  ticks : nat
}.

(** The state when the script has just been loaded. *)
Definition initialState : State :=
  {| matchData := {| h2h := []; team1 := []; team2 := [] |};
     team1Name := "Team 1";
     team2Name := "Team 2";
     team1Ranking := 0;
     team2Ranking := 0;
     matchImportance := 1;
     matchLocation := "neutral";
     totalLine := 0;
     pointSpread := 0;
     spreadDirection := "team1";
     ticks := 0 |}.

Definition set_matchData (s : State) (md : MatchData) : State :=
  {| matchData := md;
     team1Name := team1Name s; team2Name := team2Name s;
     team1Ranking := team1Ranking s; team2Ranking := team2Ranking s;
     matchImportance := matchImportance s; matchLocation := matchLocation s;
     totalLine := totalLine s; pointSpread := pointSpread s;
     spreadDirection := spreadDirection s; ticks := ticks s |}.

Definition set_ticks (s : State) (n : nat) : State :=
  {| matchData := matchData s;
     team1Name := team1Name s; team2Name := team2Name s;
     team1Ranking := team1Ranking s; team2Ranking := team2Ranking s;
     matchImportance := matchImportance s; matchLocation := matchLocation s;
     totalLine := totalLine s; pointSpread := pointSpread s;
     spreadDirection := spreadDirection s; ticks := n |}.

Definition set_rankings (s : State) (r1 r2 : Z) : State :=
  {| matchData := matchData s;
     team1Name := team1Name s; team2Name := team2Name s;
     team1Ranking := r1; team2Ranking := r2;
     matchImportance := matchImportance s; matchLocation := matchLocation s;
     totalLine := totalLine s; pointSpread := pointSpread s;
     spreadDirection := spreadDirection s; ticks := ticks s |}.

Definition set_names (s : State) (n1 n2 : string) : State :=
  {| matchData := matchData s;
     team1Name := n1; team2Name := n2;
     team1Ranking := team1Ranking s; team2Ranking := team2Ranking s;
     matchImportance := matchImportance s; matchLocation := matchLocation s;
     totalLine := totalLine s; pointSpread := pointSpread s;
     spreadDirection := spreadDirection s; ticks := ticks s |}.

Definition set_lines (s : State) (tl ps : Q) (sd : string) : State :=
  {| matchData := matchData s;
     team1Name := team1Name s; team2Name := team2Name s;
     team1Ranking := team1Ranking s; team2Ranking := team2Ranking s;
     matchImportance := matchImportance s; matchLocation := matchLocation s;
     totalLine := tl; pointSpread := ps;
     spreadDirection := sd; ticks := ticks s |}.

(** [matchData[category]] and [matchData[category] = l]. *)
Definition getCategory (md : MatchData) (c : Category) : list MatchRecord :=
  match c with
  | C_h2h => h2h md
  | C_team1 => team1 md
  | C_team2 => team2 md
  end.

Definition setCategory (md : MatchData) (c : Category) (l : list MatchRecord) : MatchData :=
  match c with
  | C_h2h => {| h2h := l; team1 := team1 md; team2 := team2 md |}
  | C_team1 => {| h2h := h2h md; team1 := l; team2 := team2 md |}
  | C_team2 => {| h2h := h2h md; team1 := team1 md; team2 := l |}
  end.

(** [getTotalMatchCount]. *)
Definition getTotalMatchCount (s : State) : nat :=
  (List.length (h2h (matchData s)) + List.length (team1 (matchData s)) +
   List.length (team2 (matchData s)))%nat.

(** [calculateSpreadCover]. The subtraction and the two comparisons are
    exact here; the code's doubles agree with them as long as the scores
    and the spread are in the range where no double is rounded (see
    [StoreOps.exactSpreadInputs]). *)
Definition calculateSpreadCover (s : State) (team1Score team2Score : Z)
  : option SpreadCover :=
  if Qle_bool (pointSpread s) 0 then None
  else
    let adjustedScore :=
      if String.eqb (spreadDirection s) "team1"
      then (inject_Z team1Score - pointSpread s)%Q
      else (inject_Z team2Score - pointSpread s)%Q in
    let opposingScore :=
      if String.eqb (spreadDirection s) "team1"
      then inject_Z team2Score else inject_Z team1Score in
    if negb (Qle_bool adjustedScore opposingScore) then Some FavoriteCovered
    else if negb (Qle_bool opposingScore adjustedScore) then Some UnderdogCovered
    else Some Push.

(** [Array.prototype.sort] with comparator [(a, b) => a.timestamp - b.timestamp]:
    a stable sort, oldest first. *)
Fixpoint insertByTimestamp (x : MatchRecord) (l : list MatchRecord) : list MatchRecord :=
  match l with
  | [] => [x]
  | y :: l' =>
    if (timestamp x - timestamp y <=? 0) then x :: y :: l'
    else y :: insertByTimestamp x l'
  end.

Definition sortByTimestamp (l : list MatchRecord) : list MatchRecord :=
  fold_right insertByTimestamp [] l.

Section Clock.
(** [clock k] is what the [k]-th call of [Date.now()] returns. *)
Variable clock : nat -> Z.

Definition Date_now (s : State) : Z * State :=
  (clock (ticks s), set_ticks s (S (ticks s))).

(** The object literal built by [processMatchScore]: the score slots,
    the outcome label and the derived fields; [ts] is the value of
    [timestamp || Date.now() - ...]. *)
Definition makeRecord (cat : Category) (matchNumber_ score1 score2 ts : Z)
    (s : State) : MatchRecord :=
  let totalScore_ := score1 + score2 in
  let '(team1Score_, team2Score_, outcome_) :=
    match cat with
    | C_h2h =>
      let t1 := score1 in
      let t2 := score2 in
      (t1, t2,
       if t1 =? t2 then "Draw"
       else if t1 >? t2 then team1Name s ++ " Wins"
       else team2Name s ++ " Wins")
    | C_team1 =>
      let t1 := score1 in
      let t2 := score2 in
      (t1, t2,
       if t1 =? t2 then "Draw"
       else if t1 >? t2 then team1Name s ++ " Wins"
       else "Opponent Wins")
    | C_team2 =>
      let t1 := score2 in
      let t2 := score1 in
      (t1, t2,
       if t1 =? t2 then "Draw"
       else if t1 >? t2 then "Opponent Wins"
       else team2Name s ++ " Wins")
    end in
  let marginOfVictory_ := Z.abs (team1Score_ - team2Score_) in
  let goalEfficiency_ :=
    if totalScore_ >? 0
    then (inject_Z (Z.max team1Score_ team2Score_) / inject_Z totalScore_)%Q
    else (1 # 2)%Q in
  let cleanSheet_ := (team1Score_ =? 0) || (team2Score_ =? 0) in
  {| matchNumber := matchNumber_;
     team1Score := team1Score_;
     team2Score := team2Score_;
     totalScore := totalScore_;
     outcome := outcome_;
     category := cat;
     totalOverLine :=
       if negb (Qle_bool (totalLine s) 0)
       then Some (negb (Qle_bool (inject_Z totalScore_) (totalLine s)))
       else None;
     spreadCover :=
       if negb (Qle_bool (pointSpread s) 0)
       then calculateSpreadCover s team1Score_ team2Score_
       else None;
     marginOfVictory := marginOfVictory_;
     goalEfficiency := goalEfficiency_;
     cleanSheet := cleanSheet_;
     timestamp := ts |}.

(** [processMatchScore(category, matchNumber, score1, score2, timestamp)]:
    build the record, push it, sort the category oldest first. *)
Definition processMatchScore (cat : Category) (matchNumber_ score1 score2 timestamp_ : Z)
    (s : State) : State :=
  (* timestamp || Date.now() - (matchData[category].length * 86400000) *)
  let '(ts, s1) :=
    if timestamp_ =? 0 then
      let '(now, s') := Date_now s in
      (now - Z.of_nat (List.length (getCategory (matchData s) cat)) * 86400000, s')
    else (timestamp_, s) in
  let record := makeRecord cat matchNumber_ score1 score2 ts s in
  set_matchData s1
    (setCategory (matchData s1) cat
       (sortByTimestamp (getCategory (matchData s1) cat ++ [record]))).

(** [validateScores]; a parsed score is [None] when [parseInt] gave [NaN]. *)
Definition isNaN (x : option Z) : bool :=
  match x with None => true | Some _ => false end.

Definition isNegative (x : option Z) : bool :=
  match x with Some z => z <? 0 | None => false end.

Definition validateScores (scores1 scores2 : list (option Z)) : bool :=
  if existsb isNaN scores1 || existsb isNaN scores2 then false
  else if existsb isNegative scores1 || existsb isNegative scores2 then false
  else if Nat.eqb (List.length scores1) 0 || Nat.eqb (List.length scores2) 0 then false
  else true.

(** [scores[i]] for an array that passed [validateScores], so that the
    entry exists and is a number. *)
Definition scoreAt (scores : list (option Z)) (i : nat) : Z :=
  match nth_error scores i with
  | Some (Some z) => z
  | _ => 0
  end.

(** The [for (let i = 0; i < minLength; i++)] loop of the three add
    handlers; [steps] is the number of iterations still to run. *)
Fixpoint addLoop (cat : Category) (scores1 scores2 : list (option Z))
    (minLength : nat) (steps : nat) (i : nat) (s : State) : State :=
  match steps with
  | O => s
  | S steps' =>
    let '(now, s1) := Date_now s in
    let timestamp_ := now - (Z.of_nat minLength - Z.of_nat i) * 7 * 24 * 60 * 60 * 1000 in
    let s2 := processMatchScore cat (Z.of_nat i + 1)
                (scoreAt scores1 i) (scoreAt scores2 i) timestamp_ s1 in
    addLoop cat scores1 scores2 minLength steps' (S i) s2
  end.

(** The common body of [handleH2HAdd], [handleTeam1Add], [handleTeam2Add],
    from the parsed score arrays on: validate, clear the category, add
    the first [minLength] pairs. The three handlers differ in the form
    fields they read and in the category. An empty text field, which the
    handlers turn away first, parses to the one-element array [[NaN]] and
    is turned away by [validateScores] as well. *)
Definition handleAdd (cat : Category) (scores1 scores2 : list (option Z))
    (s : State) : State :=
  if negb (validateScores scores1 scores2) then s
  else
    let s0 := set_matchData s (setCategory (matchData s) cat []) in
    let minLength := Nat.min (List.length scores1) (List.length scores2) in
    addLoop cat scores1 scores2 minLength minLength 0%nat s0.

Definition handleH2HAdd := handleAdd C_h2h.
Definition handleTeam1Add := handleAdd C_team1.
Definition handleTeam2Add := handleAdd C_team2.

End Clock.

(** [String.prototype.trim] on code units below 256: tab, line feed,
    vertical tab, form feed, carriage return, space, no-break space. *)
Definition isWhiteSpace (c : ascii) : bool :=
  let n := nat_of_ascii c in
  (Nat.leb 9 n && Nat.leb n 13) || Nat.eqb n 32 || Nat.eqb n 160.

Fixpoint trimStart (s : string) : string :=
  match s with
  | EmptyString => EmptyString
  | String c s' => if isWhiteSpace c then trimStart s' else s
  end.

Fixpoint revString (s : string) (acc : string) : string :=
  match s with
  | EmptyString => acc
  | String c s' => revString s' (String c acc)
  end.

Definition trim (s : string) : string :=
  revString (trimStart (revString (trimStart s) EmptyString)) EmptyString.

Definition MIN_MATCHES_FOR_GOOD_ANALYSIS : nat := 4.
Definition MIN_MATCHES_FOR_EXCELLENT_ANALYSIS : nat := 8.
Definition MIN_H2H_MATCHES : nat := 2.

(** [validateInputs]; [confirmAnswer] is what the user answers should the
    [confirm] dialog be shown. *)
Definition validateInputs (confirmAnswer : bool) (s : State) : bool :=
  if Nat.eqb (getTotalMatchCount s) 0 then false
  else if String.eqb (trim (team1Name s)) "" || String.eqb (trim (team2Name s)) "" then false
  else if String.eqb (trim (team1Name s)) (trim (team2Name s)) then false
  else if Nat.ltb (getTotalMatchCount s) MIN_MATCHES_FOR_GOOD_ANALYSIS
  then (if negb confirmAnswer then false else true)
  else true.

(** The team2 branch of [calculateCleanSheetStats]:
    [match => match.category === 'h2h' ? match.team1Score === 0 : match.team1Score === 0]. *)
Definition team2CleanSheetCheck (m : MatchRecord) : bool :=
  if Category_eqb (category m) C_h2h
  then team1Score m =? 0
  else team1Score m =? 0.

(** The team1 branch: [match => match.team2Score === 0]. *)
Definition team1CleanSheetCheck (m : MatchRecord) : bool :=
  team2Score m =? 0.

(** *** Vocabulary of the properties *)

(** The pair [(score1, score2)] a stored record of the category was
    built from: the team2 handler passes team2's own score first. *)
Definition rawPair (cat : Category) (r : MatchRecord) : Z * Z :=
  match cat with
  | C_team2 => (team2Score r, team1Score r)
  | _ => (team1Score r, team2Score r)
  end.

(** What a stored record remembers of its ingestion: its match number
    and the pair. *)
Definition ingested (cat : Category) (r : MatchRecord) : Z * (Z * Z) :=
  (matchNumber r, rawPair cat r).

(** The same pair as elements of the parsed arrays. *)
Definition parsedPair (cat : Category) (r : MatchRecord) : option Z * option Z :=
  (Some (fst (rawPair cat r)), Some (snd (rawPair cat r))).

(** What ingestion is said to derive: [totalScore] is the sum of the pair. *)
Definition totalIsSum (r : MatchRecord) : Prop :=
  totalScore r = team1Score r + team2Score r.

End Store.

(** ** The analysis pipeline: extractors, projections, [performAnalysis] *)

Module Pipeline.
Import Store.
Local Open Scope string_scope.
Local Open Scope list_scope.
Local Open Scope R_scope.

(** *** Array helpers *)

(** [l.reduce((sum, x) => sum + f(x), init)]. *)
Definition sumFrom {A : Type} (f : A -> R) (l : list A) (init : R) : R :=
  fold_left (fun sum x => sum + f x) l init.

Definition sumBy {A : Type} (f : A -> R) (l : list A) : R := sumFrom f l 0.

(** [l.filter(f).length]. *)
Definition countIf {A : Type} (f : A -> bool) (l : list A) : nat :=
  List.length (filter f l).

(** [l.slice(-n)]. *)
Definition lastN {A : Type} (n : nat) (l : list A) : list A :=
  skipn (List.length l - n) l.

(** [l.sort(cmp)] for an integer-valued comparator: a stable sort. *)
Fixpoint insertBy {A : Type} (cmp : A -> A -> Z) (x : A) (l : list A) : list A :=
  match l with
  | [] => [x]
  | y :: l' => if (cmp x y <=? 0)%Z then x :: y :: l' else y :: insertBy cmp x l'
  end.

Definition sortBy {A : Type} (cmp : A -> A -> Z) (l : list A) : list A :=
  fold_right (insertBy cmp) [] l.

(** A [forEach((x, index) => ...)] that accumulates a weighted sum and the
    total weight, the weight being a function of the index. *)
Fixpoint weightedLoop {A : Type} (weight : nat -> R) (value : A -> R)
    (l : list A) (index : nat) (weightedSum totalWeight : R) : R * R :=
  match l with
  | [] => (weightedSum, totalWeight)
  | x :: l' =>
    weightedLoop weight value l' (S index)
      (weightedSum + value x * weight index) (totalWeight + weight index)
  end.

(** [Math.round]. *)
Definition round (x : R) : R := IZR (Int_part (x + 1 / 2)).

(** *** The extractors; they read the globals held by [s] *)

Section Extractors.
Variable s : State.

Let md := matchData s.

Definition team1WinString : string := (team1Name s ++ " Wins")%string.
Definition team2WinString : string := (team2Name s ++ " Wins")%string.

(** [calculateCategoryAverage(category, property)]. *)
Definition calculateCategoryAverage (cat : Category) (property : MatchRecord -> Z) : R :=
  let matches := getCategory md cat in
  if Nat.eqb (List.length matches) 0 then 0
  else sumBy (fun m => IZR (property m)) matches / INR (List.length matches).

(** [calculateOverallTeamAverage(teamName, isTeam1)]. *)
Definition calculateOverallTeamAverage (teamName : string) (isTeam1 : bool) : R :=
  let sum := sumFrom (fun m => IZR (if isTeam1 then team1Score m else team2Score m))
               (h2h md) 0 in
  let count := List.length (h2h md) in
  let teamCategory := if isTeam1 then C_team1 else C_team2 in
  let teamProperty := if isTeam1 then team1Score else team2Score in
  let sum := sumFrom (fun m => IZR (teamProperty m)) (getCategory md teamCategory) sum in
  let count := (count + List.length (getCategory md teamCategory))%nat in
  if Nat.ltb 0 count then sum / INR count else 15 / 10.

(** [calculateTeamAverageConceded(teamName, isTeam1)]. *)
Definition calculateTeamAverageConceded (teamName : string) (isTeam1 : bool) : R :=
  let sum := sumFrom (fun m => IZR (if isTeam1 then team2Score m else team1Score m))
               (h2h md) 0 in
  let count := List.length (h2h md) in
  let teamCategory := if isTeam1 then C_team1 else C_team2 in
  let opponentProperty := if isTeam1 then team2Score else team1Score in
  let sum := sumFrom (fun m => IZR (opponentProperty m)) (getCategory md teamCategory) sum in
  let count := (count + List.length (getCategory md teamCategory))%nat in
  if Nat.ltb 0 count then sum / INR count else 15 / 10.

(** [calculateAttackStrength(teamName, isTeam1)]. *)
Definition calculateAttackStrength (teamName : string) (isTeam1 : bool) : R :=
  let avgScored := calculateOverallTeamAverage teamName isTeam1 in
  let oppAvgConceded :=
    if isTeam1 then
      (if Nat.ltb 0 (List.length (team1 md))
       then calculateCategoryAverage C_team1 team2Score else 1)
    else
      (if Nat.ltb 0 (List.length (team2 md))
       then calculateCategoryAverage C_team2 team1Score else 1) in
  let leagueAvgScored := 13 / 10 in
  (avgScored / leagueAvgScored) *
  (leagueAvgScored / (Rmax (5 / 10) oppAvgConceded + 2 / 10)).

(** [calculateDefenseStrength(teamName, isTeam1)]. *)
Definition calculateDefenseStrength (teamName : string) (isTeam1 : bool) : R :=
  let avgConceded := calculateTeamAverageConceded teamName isTeam1 in
  let oppAvgScored :=
    if isTeam1 then
      (if Nat.ltb 0 (List.length (team1 md))
       then calculateCategoryAverage C_team1 team2Score else 1)
    else
      (if Nat.ltb 0 (List.length (team2 md))
       then calculateCategoryAverage C_team2 team1Score else 1) in
  let leagueAvgConceded := 13 / 10 in
  (avgConceded / leagueAvgConceded) *
  (leagueAvgConceded / (Rmax (5 / 10) oppAvgScored + 2 / 10)).

(** The [results.push(1 / 0 / -1)] decision of [calculateTeamConsistency]. *)
Definition resultOf (winString : string) (m : MatchRecord) : Z :=
  if String.eqb (outcome m) winString then 1%Z
  else if String.eqb (outcome m) "Draw" then 0%Z
  else (-1)%Z.

(** The [for (let i = 1; i < sortedResults.length; i++)] loop. *)
Fixpoint changesLoop (previous : Z) (rest : list Z) (i : nat)
    (weightedChanges totalWeight : R) : R * R :=
  match rest with
  | [] => (weightedChanges, totalWeight)
  | x :: rest' =>
    let weight := (9 / 10) ^ (i - 1) in
    changesLoop x rest' (S i)
      (if negb (Z.eqb x previous) then weightedChanges + weight else weightedChanges)
      (totalWeight + weight)
  end.

(** [calculateTeamConsistency(teamName, isTeam1)]. *)
Definition calculateTeamConsistency (teamName : string) (isTeam1 : bool) : R :=
  let scores :=
    if isTeam1
    then map team1Score (h2h md) ++ map team1Score (team1 md)
    else map team2Score (h2h md) ++ map team2Score (team2 md) in
  let results :=
    if isTeam1
    then map (resultOf team1WinString) (h2h md) ++ map (resultOf team1WinString) (team1 md)
    else map (resultOf team2WinString) (h2h md) ++ map (resultOf team2WinString) (team2 md) in
  if Nat.ltb (List.length scores) 3 then 5 / 10
  else
    let mean := sumBy IZR scores / INR (List.length scores) in
    let squaredDiffs := map (fun val => (IZR val - mean) ^ 2) scores in
    let variance := sumBy (fun v => v) squaredDiffs / INR (List.length scores) in
    let stdDev := sqrt variance in
    let coeffVariation := if Rlt_dec 0 mean then stdDev / mean else 1 in
    let resultConsistency :=
      if Nat.leb 3 (List.length results) then
        let sortedResults := rev results in
        let '(weightedChanges, totalWeight) :=
          match sortedResults with
          | [] => (0, 0)
          | first :: rest => changesLoop first rest 1 0 0
          end in
        if Rlt_dec 0 totalWeight then 1 - (weightedChanges / totalWeight) else 5 / 10
      else 1 in
    let scoreConsistency := Rmax 0 (1 - (coeffVariation / 2)) in
    (35 / 100) * scoreConsistency + (65 / 100) * resultConsistency.

(** The objects built by [calculateMomentumIndex]. *)
Record TeamMatch := {
  tm_timestamp : Z;
  tm_score : Z;
  tm_opponentScore : Z;
  tm_outcome : string
}.

Definition asTeamMatch (isTeam1 : bool) (m : MatchRecord) : TeamMatch :=
  {| tm_timestamp := timestamp m;
     tm_score := if isTeam1 then team1Score m else team2Score m;
     tm_opponentScore := if isTeam1 then team2Score m else team1Score m;
     tm_outcome := outcome m |}.

(** [calculateMomentumIndex(teamName, isTeam1)]. The source also computes
    a [scoringTrend] from [weights]; it is not used in the result. *)
Definition calculateMomentumIndex (teamName : string) (isTeam1 : bool) : R :=
  let teamMatches :=
    if isTeam1
    then map (asTeamMatch true) (h2h md) ++ map (asTeamMatch true) (team1 md)
    else map (asTeamMatch false) (h2h md) ++ map (asTeamMatch false) (team2 md) in
  let teamMatches :=
    sortBy (fun a b => (tm_timestamp a - tm_timestamp b)%Z) teamMatches in
  if Nat.ltb (List.length teamMatches) 3 then 0
  else
    let n := List.length teamMatches in
    let recentCount := INR (Nat.min 3 n) in
    let recentAvgScore :=
      sumBy (fun m => IZR (tm_score m)) (lastN 3 teamMatches) / recentCount in
    let overallAvgScore := sumBy (fun m => IZR (tm_score m)) teamMatches / INR n in
    let recentGoalDiff :=
      sumBy (fun m => IZR (tm_score m) - IZR (tm_opponentScore m)) (lastN 3 teamMatches)
      / recentCount in
    let overallGoalDiff :=
      sumBy (fun m => IZR (tm_score m) - IZR (tm_opponentScore m)) teamMatches / INR n in
    let teamWinString := if isTeam1 then team1WinString else team2WinString in
    let recentWinPct :=
      INR (countIf (fun m => String.eqb (tm_outcome m) teamWinString) (lastN 3 teamMatches))
      / recentCount in
    let overallWinPct :=
      INR (countIf (fun m => String.eqb (tm_outcome m) teamWinString) teamMatches)
      / INR n in
    let scoringMomentum :=
      (recentAvgScore - overallAvgScore) / Rmax (5 / 10) overallAvgScore in
    let goalDiffMomentum := recentGoalDiff - overallGoalDiff in
    let winMomentum := recentWinPct - overallWinPct in
    let momentum := (scoringMomentum * (25 / 100)) + (goalDiffMomentum * (25 / 100))
                    + (winMomentum * (5 / 10)) in
    Rmax (-1) (Rmin 1 (momentum * 2)).

(** [calculateHomeAdvantage(teamName, isTeam1)]. *)
Definition calculateHomeAdvantage (teamName : string) (isTeam1 : bool) : R :=
  let defaultAdvantage := 1 in
  let homeMatches := if isTeam1 then team1 md else team2 md in
  let awayMatches := h2h md in
  if Nat.eqb (List.length homeMatches) 0 then defaultAdvantage
  else
    let teamWinString := if isTeam1 then team1WinString else team2WinString in
    let homeWinPct :=
      INR (countIf (fun m => String.eqb (outcome m) teamWinString) homeMatches)
      / INR (List.length homeMatches) in
    let awayWinPct :=
      if Nat.ltb 0 (List.length awayMatches) then
        let awayWinString := if isTeam1 then team1WinString else team2WinString in
        INR (countIf (fun m => String.eqb (outcome m) awayWinString) awayMatches)
        / INR (List.length awayMatches)
      else 3 / 10 in
    let goalDiff (m : MatchRecord) :=
      if isTeam1 then IZR (team1Score m) - IZR (team2Score m)
      else IZR (team2Score m) - IZR (team1Score m) in
    let homeGoalDiff := sumBy goalDiff homeMatches / INR (List.length homeMatches) in
    let awayGoalDiff :=
      if Nat.ltb 0 (List.length awayMatches)
      then sumBy goalDiff awayMatches / INR (List.length awayMatches)
      else - (5 / 10) in
    let winRatioAdvantage :=
      if JS.gtb homeWinPct 0 && JS.gtb awayWinPct 0
      then homeWinPct / awayWinPct else defaultAdvantage in
    let goalDiffAdvantage := homeGoalDiff - awayGoalDiff in
    let combinedAdvantage :=
      (winRatioAdvantage * (7 / 10)) +
      (Rmin 2 (Rmax 0 (goalDiffAdvantage + 1)) * (3 / 10)) in
    Rmax (2 / 10) (Rmin 2 combinedAdvantage).

(** [calculateMatchImportancePerformance(teamName, isTeam1)]. *)
Definition calculateMatchImportancePerformance (teamName : string) (isTeam1 : bool) : R :=
  let teamMatches := if isTeam1 then h2h md ++ team1 md else h2h md ++ team2 md in
  if Nat.ltb (List.length teamMatches) 2 then 1
  else
    let consistency := calculateTeamConsistency teamName isTeam1 in
    let performance (m : MatchRecord) : R :=
      let teamScore := if isTeam1 then team1Score m else team2Score m in
      let opponentScore := if isTeam1 then team2Score m else team1Score m in
      let goalDiff := (teamScore - opponentScore)%Z in
      if (goalDiff >? 0)%Z then 12 / 10
      else if (goalDiff =? 0)%Z then 1 else 8 / 10 in
    let totalPerformance := sumBy performance teamMatches in
    let matchCount := List.length teamMatches in
    let avgPerformance :=
      if Nat.ltb 0 matchCount then totalPerformance / INR matchCount else 1 in
    let importancePerformance := (consistency * (6 / 10)) + (avgPerformance * (4 / 10)) in
    Rmax (5 / 10) (Rmin (15 / 10) importancePerformance).

(** The local [calculateWeightedAverage] of [calculateScoringTrends]. *)
Definition calculateWeightedAverage (matches : list MatchRecord)
    (valueFn : MatchRecord -> R) : R :=
  let '(weightedSum, totalWeight) :=
    weightedLoop (fun index => (8 / 10) ^ index) valueFn matches 0 0 0 in
  if Rlt_dec 0 totalWeight then weightedSum / totalWeight else 0.

Definition newestFirst (a b : MatchRecord) : Z := (timestamp b - timestamp a)%Z.

(** [calculateScoringTrends()]. *)
Definition calculateScoringTrends : Model.ScoringTrends :=
  let allMatches := sortBy newestFirst (h2h md ++ team1 md ++ team2 md) in
  if Nat.ltb (List.length allMatches) 3 then
    {| Model.team1Trend := 0; Model.team2Trend := 0; Model.overallTrend := 0 |}
  else
    let recentMatches := firstn (Nat.min 5 (List.length allMatches)) allMatches in
    let historicalMatches := skipn (Nat.min 5 (List.length allMatches)) allMatches in
    let recentAvgTotal :=
      calculateWeightedAverage recentMatches (fun m => IZR (totalScore m)) in
    let historicalAvgTotal :=
      if Nat.ltb 0 (List.length historicalMatches)
      then sumBy (fun m => IZR (totalScore m)) historicalMatches
           / INR (List.length historicalMatches)
      else 25 / 10 in
    let overallTrend_ := recentAvgTotal - historicalAvgTotal in
    let team1Matches := sortBy newestFirst (h2h md ++ team1 md) in
    let team2Matches := sortBy newestFirst (h2h md ++ team2 md) in
    let team1RecentAvg :=
      if Nat.ltb 0 (List.length team1Matches)
      then calculateWeightedAverage
             (firstn (Nat.min 5 (List.length team1Matches)) team1Matches)
             (fun m => IZR (team1Score m))
      else 1 in
    let team1HistoricalAvg :=
      if Nat.ltb 0 (List.length team1Matches) && Nat.ltb 5 (List.length team1Matches)
      then sumBy (fun m => IZR (team1Score m)) (skipn 5 team1Matches)
           / INR (List.length team1Matches - 5)
      else 1 in
    let team2Value (m : MatchRecord) :=
      if Category_eqb (category m) C_h2h then IZR (team2Score m) else IZR (team1Score m) in
    let team2RecentAvg :=
      if Nat.ltb 0 (List.length team2Matches)
      then calculateWeightedAverage
             (firstn (Nat.min 5 (List.length team2Matches)) team2Matches)
             team2Value
      else 1 in
    let team2HistoricalAvg :=
      if Nat.ltb 0 (List.length team2Matches) && Nat.ltb 5 (List.length team2Matches)
      then sumBy team2Value (skipn 5 team2Matches)
           / INR (List.length team2Matches - 5)
      else 1 in
    {| Model.team1Trend := team1RecentAvg - team1HistoricalAvg;
       Model.team2Trend := team2RecentAvg - team2HistoricalAvg;
       Model.overallTrend := overallTrend_ |}.

(** The local [applyRecencyWeight] of [calculateCleanSheetStats]:
    returns [(count, weightedPct)]. *)
Definition applyRecencyWeight (matches : list MatchRecord)
    (checkFn : MatchRecord -> bool) : nat * R :=
  let sortedMatches := sortBy newestFirst matches in
  let '(weightedCount, totalWeight) :=
    weightedLoop (fun index => (9 / 10) ^ index)
      (fun m => if checkFn m then 1 else 0) sortedMatches 0 0 0 in
  (countIf checkFn sortedMatches,
   if Rlt_dec 0 totalWeight then (weightedCount / totalWeight) * 100 else 0).

(** [calculateCleanSheetStats()]. *)
Definition calculateCleanSheetStats : Model.CleanSheetStats :=
  let team1Stats := applyRecencyWeight (h2h md ++ team1 md) team1CleanSheetCheck in
  let team2Stats := applyRecencyWeight (h2h md ++ team2 md) team2CleanSheetCheck in
  {| Model.team1CleanSheetPct := snd team1Stats;
     Model.team2CleanSheetPct := snd team2Stats;
     Model.team1CleanSheets := fst team1Stats;
     Model.team2CleanSheets := fst team2Stats;
     Model.csTeam1Matches := (List.length (h2h md) + List.length (team1 md))%nat;
     Model.csTeam2Matches := (List.length (h2h md) + List.length (team2 md))%nat |}.

(** [calculateH2HAdvantage()]. *)
Definition calculateH2HAdvantage : R :=
  if Nat.eqb (List.length (h2h md)) 0 then 0
  else
    let team1Wins := countIf (fun m => String.eqb (outcome m) team1WinString) (h2h md) in
    let team2Wins := countIf (fun m => String.eqb (outcome m) team2WinString) (h2h md) in
    let advantageRatio := (INR team1Wins - INR team2Wins) / INR (List.length (h2h md)) in
    let sortedMatches := sortBy newestFirst (h2h md) in
    let '(weightedAdvantage, totalWeight) :=
      weightedLoop (fun index => exp (- (2 / 10) * INR index))
        (fun m => if String.eqb (outcome m) team1WinString then 1
                  else if String.eqb (outcome m) team2WinString then -1
                  else 0)
        sortedMatches 0 0 0 in
    let normalizedWeightedAdvantage :=
      if Rlt_dec 0 totalWeight then weightedAdvantage / totalWeight else 0 in
    (advantageRatio * (3 / 10)) + (normalizedWeightedAdvantage * (7 / 10)).

(** The objects built by [calculateRecentForm]. *)
Record FormMatch := {
  fm_win : bool;
  fm_draw : bool;
  fm_lose : bool;
  fm_timestamp : Z;
  fm_score : Z;
  fm_opponentScore : Z
}.

Definition asFormMatch (winString loseString : string) (isTeam1 : bool)
    (m : MatchRecord) : FormMatch :=
  {| fm_win := String.eqb (outcome m) winString;
     fm_draw := String.eqb (outcome m) "Draw";
     fm_lose := String.eqb (outcome m) loseString;
     fm_timestamp := timestamp m;
     fm_score := if isTeam1 then team1Score m else team2Score m;
     fm_opponentScore := if isTeam1 then team2Score m else team1Score m |}.

(** The per-match score inside the [forEach] of [calculateRecentForm]. *)
Definition formMatchScore (m : FormMatch) : R :=
  if fm_win m then
    let margin := (fm_score m - fm_opponentScore m)%Z in
    3 + Rmin (7 / 10) (IZR margin * (15 / 100))
      + (if (fm_opponentScore m =? 0)%Z then 4 / 10 else 0)
  else if fm_draw m then
    1 + (if (4 <=? fm_score m + fm_opponentScore m)%Z then 3 / 10 else 0)
  else
    0 + (if (2 <=? fm_score m)%Z then 4 / 10 else 0)
      + (if (fm_opponentScore m - fm_score m =? 1)%Z then 3 / 10 else 0).

(** [calculateRecentForm(teamName, isTeam1)]. *)
Definition calculateRecentForm (teamName : string) (isTeam1 : bool) : R :=
  let teamMatches :=
    if isTeam1
    then map (asFormMatch team1WinString team2WinString true) (h2h md) ++
         map (asFormMatch team1WinString "Opponent Wins" true) (team1 md)
    else map (asFormMatch team2WinString team1WinString false) (h2h md) ++
         map (asFormMatch team2WinString "Opponent Wins" false) (team2 md) in
  let teamMatches :=
    sortBy (fun a b => (fm_timestamp b - fm_timestamp a)%Z) teamMatches in
  if Nat.eqb (List.length teamMatches) 0 then 5 / 10
  else
    let teamMatches := firstn (Nat.min 5 (List.length teamMatches)) teamMatches in
    let '(formScore, totalWeight) :=
      weightedLoop (fun index => (75 / 100) ^ index) formMatchScore teamMatches 0 0 0 in
    let maxPossibleScore := totalWeight * 4 in
    formScore / maxPossibleScore.

(** [prepareMatchFeatures()]. *)
Definition prepareMatchFeatures : Model.Features :=
  let team1AvgScore := calculateOverallTeamAverage (team1Name s) true in
  let team2AvgScore := calculateOverallTeamAverage (team2Name s) false in
  let team1AvgConceded := calculateTeamAverageConceded (team1Name s) true in
  let team2AvgConceded := calculateTeamAverageConceded (team2Name s) false in
  let h2hAdvantage := calculateH2HAdvantage in
  let locationFactor :=
    if String.eqb (matchLocation s) "home" then 1
    else if String.eqb (matchLocation s) "away" then -1 else 0 in
  let rankingDiff :=
    if negb (team1Ranking s =? 0)%Z && negb (team2Ranking s =? 0)%Z
    then IZR (team1Ranking s - team2Ranking s) else 0 in
  {| Model.basicStats :=
       {| Model.team1AvgScore := team1AvgScore;
          Model.team2AvgScore := team2AvgScore;
          Model.team1AvgConceded := team1AvgConceded;
          Model.team2AvgConceded := team2AvgConceded;
          Model.h2hAdvantage := h2hAdvantage;
          Model.locationFactor := locationFactor;
          Model.rankingDiff := rankingDiff;
          Model.matchImportance := Q2R (matchImportance s);
          Model.totalLine := Q2R (totalLine s);
          Model.pointSpread := Q2R (pointSpread s);
          Model.spreadDirection :=
            if String.eqb (spreadDirection s) "team1" then 1 else -1 |};
     Model.advancedStats :=
       {| Model.team1RecentForm := calculateRecentForm (team1Name s) true;
          Model.team2RecentForm := calculateRecentForm (team2Name s) false;
          Model.team1DefenseStrength := calculateDefenseStrength (team1Name s) true;
          Model.team2DefenseStrength := calculateDefenseStrength (team2Name s) false;
          Model.team1AttackStrength := calculateAttackStrength (team1Name s) true;
          Model.team2AttackStrength := calculateAttackStrength (team2Name s) false;
          Model.team1Consistency := calculateTeamConsistency (team1Name s) true;
          Model.team2Consistency := calculateTeamConsistency (team2Name s) false;
          Model.team1MomentumIndex := calculateMomentumIndex (team1Name s) true;
          Model.team2MomentumIndex := calculateMomentumIndex (team2Name s) false;
          Model.team1HomeAdvantage := calculateHomeAdvantage (team1Name s) true;
          Model.team2HomeAdvantage := calculateHomeAdvantage (team2Name s) false;
          Model.team1MatchImportancePerformance :=
            calculateMatchImportancePerformance (team1Name s) true;
          Model.team2MatchImportancePerformance :=
            calculateMatchImportancePerformance (team2Name s) false |};
     Model.trends :=
       {| Model.scoring := calculateScoringTrends;
          Model.cleanSheets := calculateCleanSheetStats |};
     Model.dataQuality :=
       {| Model.totalMatches := getTotalMatchCount s;
          Model.team1Matches := List.length (team1 md);
          Model.team2Matches := List.length (team2 md);
          Model.h2hMatches := List.length (h2h md);
          Model.dataSufficiency :=
            Nat.leb MIN_MATCHES_FOR_GOOD_ANALYSIS (getTotalMatchCount s);
          Model.dataExcellence :=
            Nat.leb MIN_MATCHES_FOR_EXCELLENT_ANALYSIS (getTotalMatchCount s) &&
            Nat.leb MIN_H2H_MATCHES (List.length (h2h md)) |} |}.

(** [calculateModelV1ProjectedTotal(features)]; it also reads [matchData.h2h]. *)
Definition calculateModelV1ProjectedTotal (features : Model.Features) : R :=
  let bs := Model.basicStats features in
  let adv := Model.advancedStats features in
  let h2hMatches := Model.h2hMatches (Model.dataQuality features) in
  let baseTotal :=
    (Model.team1AvgScore bs + Model.team2AvgScore bs +
     Model.team1AvgConceded bs + Model.team2AvgConceded bs) / 2 in
  let baseTotal :=
    if Nat.leb MIN_H2H_MATCHES h2hMatches then
      let h2hAvgTotal := sumBy (fun m => IZR (totalScore m)) (h2h md) / INR h2hMatches in
      let h2hWeight := Rmin (5 / 10) (INR h2hMatches * (8 / 100)) in
      baseTotal * (1 - h2hWeight) + h2hAvgTotal * h2hWeight
    else baseTotal in
  let formAdjustment :=
    ((Model.team1RecentForm adv + Model.team2RecentForm adv) - 1) * (5 / 10) in
  let baseTotal := baseTotal + formAdjustment in
  let defenseAdjustment :=
    - ((1 - Model.team1DefenseStrength adv) + (1 - Model.team2DefenseStrength adv))
      * (5 / 10) in
  let baseTotal := baseTotal + defenseAdjustment in
  let attackAdjustment :=
    (Model.team1AttackStrength adv + Model.team2AttackStrength adv - 2) * (5 / 10) in
  let baseTotal := baseTotal + attackAdjustment in
  let baseTotal :=
    if JS.ltb (Model.matchImportance bs) 1
    then baseTotal + (1 - Model.matchImportance bs) * (6 / 10)
    else if JS.gtb (Model.matchImportance bs) (13 / 10)
    then baseTotal - (Model.matchImportance bs - 13 / 10) * (4 / 10)
    else baseTotal in
  let baseTotal :=
    if JS.neqb (Model.locationFactor bs) 0
    then baseTotal + Rabs (Model.locationFactor bs) * (15 / 100)
    else baseTotal in
  let consistencyAdjustment :=
    ((1 - Model.team1Consistency adv) + (1 - Model.team2Consistency adv)) * (4 / 10) in
  let baseTotal := baseTotal + consistencyAdjustment in
  let overallTrend := Model.overallTrend (Model.scoring (Model.trends features)) in
  let baseTotal :=
    if JS.neqb overallTrend 0 then baseTotal + overallTrend * (3 / 10) else baseTotal in
  let baseTotal :=
    if negb (Model.dataSufficiency (Model.dataQuality features)) then
      let leagueAverage := 25 / 10 in
      let reversion := 4 / 10 in
      baseTotal * (1 - reversion) + leagueAverage * reversion
    else baseTotal in
  Rmax (5 / 10) baseTotal.

(** [calculateModelV1ProjectedMargin(features)]; it also reads [matchData.h2h]. *)
Definition calculateModelV1ProjectedMargin (features : Model.Features) : R :=
  let bs := Model.basicStats features in
  let adv := Model.advancedStats features in
  let h2hMatches := Model.h2hMatches (Model.dataQuality features) in
  let baseMargin :=
    (Model.team1AvgScore bs - Model.team2AvgConceded bs) -
    (Model.team2AvgScore bs - Model.team1AvgConceded bs) in
  let baseMargin :=
    if Nat.leb MIN_H2H_MATCHES h2hMatches then
      let h2hAvgMargin :=
        sumBy (fun m => IZR (team1Score m) - IZR (team2Score m)) (h2h md)
        / INR h2hMatches in
      let h2hWeight := Rmin (5 / 10) (INR h2hMatches * (8 / 100)) in
      baseMargin * (1 - h2hWeight) + h2hAvgMargin * h2hWeight
    else baseMargin + Model.h2hAdvantage bs * (5 / 10) in
  let formAdjustment :=
    (Model.team1RecentForm adv - Model.team2RecentForm adv) * (8 / 10) in
  let baseMargin := baseMargin + formAdjustment in
  let strengthAdjustment :=
    (Model.team1AttackStrength adv - Model.team2DefenseStrength adv) -
    (Model.team2AttackStrength adv - Model.team1DefenseStrength adv) in
  let baseMargin := baseMargin + strengthAdjustment * (5 / 10) in
  let momentumAdjustment :=
    (Model.team1MomentumIndex adv - Model.team2MomentumIndex adv) * (5 / 10) in
  let baseMargin := baseMargin + momentumAdjustment in
  let baseMargin :=
    if JS.neqb (Model.locationFactor bs) 0
    then baseMargin + Model.locationFactor bs * (4 / 10) else baseMargin in
  let baseMargin :=
    if JS.neqb (Model.rankingDiff bs) 0 then
      let normalizedRankingDiff :=
        - JS.sign (Model.rankingDiff bs) * Rmin 1 (Rabs (Model.rankingDiff bs) / 20) in
      baseMargin + normalizedRankingDiff * (3 / 10)
    else baseMargin in
  let baseMargin :=
    if JS.gtb (Model.matchImportance bs) 1 then
      if JS.gtb baseMargin 0
      then baseMargin + (Model.matchImportance bs - 1) * (3 / 10)
      else if JS.ltb baseMargin 0
      then baseMargin - (Model.matchImportance bs - 1) * (3 / 10)
      else baseMargin
    else baseMargin in
  let baseMargin :=
    if negb (Model.dataSufficiency (Model.dataQuality features)) then
      let reversion := 5 / 10 in
      baseMargin * (1 - reversion)
    else baseMargin in
  baseMargin.

End Extractors.

(** [calculateFeatureImportance(features)]: the object is a list of
    key-value pairs in insertion order. *)
Definition clampImportance (x : R) : R := Rmax 10 (Rmin 95 x).

Definition calculateFeatureImportance (features : Model.Features) : list (string * R) :=
  let bs := Model.basicStats features in
  let adv := Model.advancedStats features in
  let importance :=
    [ ("Head-to-Head History",
       if Nat.leb MIN_H2H_MATCHES (Model.h2hMatches (Model.dataQuality features))
       then Rabs (Model.h2hAdvantage bs) * 100 + 15 else 30);
      ("Recent Form",
       Rabs (Model.team1RecentForm adv - Model.team2RecentForm adv) * 100 + 10);
      ("Offensive Strength",
       Rabs (Model.team1AttackStrength adv - Model.team2AttackStrength adv) * 50 + 15);
      ("Defensive Stability",
       Rabs (Model.team1DefenseStrength adv - Model.team2DefenseStrength adv) * 55 + 15);
      ("Home Advantage",
       if JS.neqb (Model.locationFactor bs) 0
       then Rabs (Model.locationFactor bs) * 65 + 10 else 20);
      ("Team Momentum",
       Rabs (Model.team1MomentumIndex adv - Model.team2MomentumIndex adv) * 65 + 10);
      ("Match Importance",
       if JS.neqb (Model.matchImportance bs) 1
       then Rabs (Model.matchImportance bs - 1) * 55 + 10 else 20);
      ("Team Ranking",
       if JS.neqb (Model.rankingDiff bs) 0
       then Rabs (Model.rankingDiff bs) * (32 / 10) + 10 else 20);
      ("Scoring Trends",
       Rabs (Model.team1Trend (Model.scoring (Model.trends features)) -
             Model.team2Trend (Model.scoring (Model.trends features))) * 45 + 10) ] in
  let importance := map (fun kv => (fst kv, clampImportance (snd kv))) importance in
  let totalImportance := sumBy snd importance in
  let targetTotal := 500 in
  let importance :=
    if JS.gtb totalImportance 0 then
      let normalizationFactor := targetTotal / totalImportance in
      map (fun kv => (fst kv, clampImportance (round (snd kv * normalizationFactor))))
        importance
    else importance in
  (* Object.entries(importance).sort((a, b) => b[1] - a[1]) *)
  let insertEntry :=
    fix insertEntry (x : string * R) (l : list (string * R)) : list (string * R) :=
      match l with
      | [] => [x]
      | y :: l' =>
        if Rle_dec (snd y - snd x) 0 then x :: y :: l' else y :: insertEntry x l'
      end in
  fold_right insertEntry [] importance.

(** The object stored in [lastAnalysisResults]. *)
Record AnalysisResult := {
  probabilities : Model.Probabilities;
  projectedTotal : R;
  projectedMargin : R;
  ar_team1Name : string;
  ar_team2Name : string;
  ar_totalLine : Q;
  ar_pointSpread : Q;
  ar_spreadDirection : string;
  ar_matchImportance : Q;
  ar_matchLocation : string;
  features : Model.Features
}.

(** The whole application state: the globals of the store, the two
    analysis globals, and the three betting-line form fields as
    [processAllMatchData] reads them ([parseFloat(...) || 0] already
    applied to the two numeric ones). *)
Record AppState := {
  globals : State;
  lastAnalysisResults : option AnalysisResult;
  featureImportanceScores : list (string * R);
  bettingLineField : Q;
  pointSpreadField : Q;
  spreadDirectionField : string
}.

Definition set_globals (a : AppState) (g : State) : AppState :=
  {| globals := g;
     lastAnalysisResults := lastAnalysisResults a;
     featureImportanceScores := featureImportanceScores a;
     bettingLineField := bettingLineField a;
     pointSpreadField := pointSpreadField a;
     spreadDirectionField := spreadDirectionField a |}.

(** The body of the [forEach] in [updateSpreadCoverCalculations]. *)
Definition updateMatchLines (s : State) (m : MatchRecord) : MatchRecord :=
  {| matchNumber := matchNumber m;
     team1Score := team1Score m;
     team2Score := team2Score m;
     totalScore := totalScore m;
     outcome := outcome m;
     category := category m;
     totalOverLine :=
       if negb (Qle_bool (totalLine s) 0)
       then Some (negb (Qle_bool (inject_Z (totalScore m)) (totalLine s)))
       else None;
     spreadCover :=
       if negb (Qle_bool (pointSpread s) 0)
       then calculateSpreadCover s (team1Score m) (team2Score m)
       else None;
     marginOfVictory := marginOfVictory m;
     goalEfficiency := goalEfficiency m;
     cleanSheet := cleanSheet m;
     timestamp := timestamp m |}.

(** [updateSpreadCoverCalculations()]. *)
Definition updateSpreadCoverCalculations (s : State) : State :=
  set_matchData s
    {| h2h := map (updateMatchLines s) (h2h (matchData s));
       team1 := map (updateMatchLines s) (team1 (matchData s));
       team2 := map (updateMatchLines s) (team2 (matchData s)) |}.

(** [processAllMatchData()]: read the betting-line fields, refresh the
    line-dependent flags of every record. *)
Definition processAllMatchData (a : AppState) : AppState :=
  let g := set_lines (globals a) (bettingLineField a) (pointSpreadField a)
             (spreadDirectionField a) in
  set_globals a (updateSpreadCoverCalculations g).

(** The value assigned to [lastAnalysisResults] by [performAnalysis]. *)
Definition analysisResult (s : State) : AnalysisResult :=
  let features_ := prepareMatchFeatures s in
  let probabilities_ := Model.calculateModelV1WinProbabilities features_ in
  let projectedTotal_ := calculateModelV1ProjectedTotal s features_ in
  let projectedMargin_ := calculateModelV1ProjectedMargin s features_ in
  let '(adjustedProbabilities, adjustedMargin) :=
    Model.ensurePredictionConsistency probabilities_ projectedMargin_ in
  {| probabilities := adjustedProbabilities;
     projectedTotal := projectedTotal_;
     projectedMargin := adjustedMargin;
     ar_team1Name := team1Name s;
     ar_team2Name := team2Name s;
     ar_totalLine := totalLine s;
     ar_pointSpread := pointSpread s;
     ar_spreadDirection := spreadDirection s;
     ar_matchImportance := matchImportance s;
     ar_matchLocation := matchLocation s;
     features := features_ |}.

(** [performAnalysis()], without the rendering calls. *)
Definition performAnalysis (a : AppState) : AppState :=
  if Nat.eqb (getTotalMatchCount (globals a)) 0 then a
  else
    let result := analysisResult (globals a) in
    {| globals := globals a;
       lastAnalysisResults := Some result;
       featureImportanceScores := calculateFeatureImportance (features result);
       bettingLineField := bettingLineField a;
       pointSpreadField := pointSpreadField a;
       spreadDirectionField := spreadDirectionField a |}.

(** The click handler of the analyze button: Analyze(). *)
Definition analyzeClick (confirmAnswer : bool) (a : AppState) : AppState :=
  if negb (validateInputs confirmAnswer (globals a)) then a
  else performAnalysis (processAllMatchData a).

(** Rankings 4 and 2 entered, no scores entered. *)
Definition rankingsOnly : AppState :=
  {| globals := set_rankings initialState 4 2;
     lastAnalysisResults := None;
     featureImportanceScores := [];
     bettingLineField := 0%Q;
     pointSpreadField := 0%Q;
     spreadDirectionField := "team1" |}.

(** A page on which only four head-to-head results were entered, team2
    winning each of them 3-0 (fields "0,0,0,0" and "3,3,3,3"); everything
    else is as the script initialises it. *)
Definition shutoutStore : State :=
  handleH2HAdd (fun _ => 1700000000000%Z)
    [Some 0; Some 0; Some 0; Some 0]%Z
    [Some 3; Some 3; Some 3; Some 3]%Z initialState.

Definition shutoutStoreValue : State := Eval vm_compute in shutoutStore.

Definition shutoutPage : AppState :=
  {| globals := shutoutStore;
     lastAnalysisResults := None;
     featureImportanceScores := [];
     bettingLineField := 0%Q;
     pointSpreadField := 0%Q;
     spreadDirectionField := "team1" |}.

(** The head-to-head part of the script's sample data ([addSampleData]),
    entered into a fresh page. *)
Definition sampleHeadToHead : AppState :=
  {| globals :=
       handleH2HAdd (fun _ => 1700000000000%Z)
         [Some 1; Some 2; Some 1; Some 2; Some 0]%Z
         [Some 1; Some 2; Some 0; Some 1; Some 1]%Z
         (set_rankings (set_names initialState "Liverpool" "Manchester City") 4 2);
     lastAnalysisResults := None;
     featureImportanceScores := [];
     bettingLineField := (5 # 2)%Q;
     pointSpreadField := 1%Q;
     spreadDirectionField := "team1" |}.

(** The same data with both name fields holding the same name, one of
    them padded with blanks. *)
Definition sameNames : AppState :=
  set_globals sampleHeadToHead
    (set_names (globals sampleHeadToHead) " Liverpool " "Liverpool").

(** Whether a call of Analyze() was turned away by validation. *)
Definition analyzeRejected (confirmAnswer : bool) (a : AppState) : Prop :=
  validateInputs confirmAnswer (globals a) = false /\
  analyzeClick confirmAnswer a = a.

End Pipeline.

(** ** What is shown of the probabilities, and the model with the teams exchanged *)

Module Presentation.
Import Model.
Local Open Scope R_scope.

(** The branch taken by [updateWinnerPrediction]: whose name becomes
    [winnerName] (the string "Draw" in the last branch) and which value
    becomes [winnerProb]. *)
Definition displayedWinner (probabilities : Probabilities) : Winner * R :=
  if JS.gtb (team1WinProb probabilities) (team2WinProb probabilities) &&
     JS.gtb (team1WinProb probabilities) (drawProb probabilities)
  then (W_team1, team1WinProb probabilities)
  else if JS.gtb (team2WinProb probabilities) (team1WinProb probabilities) &&
          JS.gtb (team2WinProb probabilities) (drawProb probabilities)
  then (W_team2, team2WinProb probabilities)
  else (W_draw, drawProb probabilities).

(** [confidenceLevel] of [updateWinnerPrediction]. *)
Inductive Confidence := High | Medium | Low.

Definition confidenceLevel (winnerProb : R) : Confidence :=
  if Rle_dec 60 winnerProb then High
  else if Rle_dec 45 winnerProb then Medium else Low.

(** The feature snapshot of the same match with the two teams exchanged:
    every team1 field takes the team2 value and conversely, and the
    quantities that are signed toward team1 change sign. The fields that
    [calculateModelV1WinProbabilities] does not read are kept. *)
Definition swapTeams (f : Features) : Features :=
  let bs := basicStats f in
  let adv := advancedStats f in
  {| basicStats :=
       {| team1AvgScore := team2AvgScore bs;
          team2AvgScore := team1AvgScore bs;
          team1AvgConceded := team2AvgConceded bs;
          team2AvgConceded := team1AvgConceded bs;
          h2hAdvantage := - h2hAdvantage bs;
          locationFactor := - locationFactor bs;
          rankingDiff := - rankingDiff bs;
          matchImportance := matchImportance bs;
          totalLine := totalLine bs;
          pointSpread := pointSpread bs;
          spreadDirection := - spreadDirection bs |};
     advancedStats :=
       {| team1RecentForm := team2RecentForm adv;
          team2RecentForm := team1RecentForm adv;
          team1DefenseStrength := team2DefenseStrength adv;
          team2DefenseStrength := team1DefenseStrength adv;
          team1AttackStrength := team2AttackStrength adv;
          team2AttackStrength := team1AttackStrength adv;
          team1Consistency := team2Consistency adv;
          team2Consistency := team1Consistency adv;
          team1MomentumIndex := team2MomentumIndex adv;
          team2MomentumIndex := team1MomentumIndex adv;
          team1HomeAdvantage := team2HomeAdvantage adv;
          team2HomeAdvantage := team1HomeAdvantage adv;
          team1MatchImportancePerformance := team2MatchImportancePerformance adv;
          team2MatchImportancePerformance := team1MatchImportancePerformance adv |};
     trends := trends f;
     dataQuality := dataQuality f |}.

(** The venue is one of the three the script produces: home, away or
    neutral, seen from team1. *)
Definition venueKnown (f : Features) : Prop :=
  locationFactor (basicStats f) = 1 \/
  locationFactor (basicStats f) = -1 \/
  locationFactor (basicStats f) = 0.

(** A snapshot of two teams that differ in recent form only, at a
    neutral venue, importance 1, no rankings; [sufficient] is the
    [dataSufficiency] flag. *)
Definition formSnapshot (form1 form2 : R) (sufficient : bool) : Features :=
  {| basicStats :=
       {| team1AvgScore := 1; team2AvgScore := 1; team1AvgConceded := 1;
          team2AvgConceded := 1; h2hAdvantage := 0; locationFactor := 0;
          rankingDiff := 0; matchImportance := 1; totalLine := 0;
          pointSpread := 0; spreadDirection := 1 |};
     advancedStats :=
       {| team1RecentForm := form1; team2RecentForm := form2;
          team1DefenseStrength := 1; team2DefenseStrength := 1;
          team1AttackStrength := 1; team2AttackStrength := 1;
          team1Consistency := 1 / 2; team2Consistency := 1 / 2;
          team1MomentumIndex := 0; team2MomentumIndex := 0;
          team1HomeAdvantage := 1; team2HomeAdvantage := 1;
          team1MatchImportancePerformance := 1;
          team2MatchImportancePerformance := 1 |};
     trends :=
       {| scoring := {| team1Trend := 0; team2Trend := 0; overallTrend := 0 |};
          cleanSheets :=
            {| team1CleanSheetPct := 0; team2CleanSheetPct := 0;
               team1CleanSheets := 0; team2CleanSheets := 0;
               csTeam1Matches := 4; csTeam2Matches := 4 |} |};
     dataQuality :=
       {| totalMatches := (if sufficient then 8 else 2)%nat;
          team1Matches := (if sufficient then 3 else 0)%nat;
          team2Matches := (if sufficient then 3 else 0)%nat;
          h2hMatches := 2%nat;
          dataSufficiency := sufficient;
          dataExcellence := sufficient |} |}.

End Presentation.

(** ** Vocabulary for the score-distribution table *)

Module TableOps.
Import Distribution.
Local Open Scope R_scope.

(** The same cell read from the other team's side. *)
Definition transposeCell (c : Cell) : Cell :=
  {| team1Score := team2Score c;
     team2Score := team1Score c;
     probability := probability c |}.

(** A score pair read from the other team's side. *)
Definition swapPair (ab : nat * nat) : nat * nat := (snd ab, fst ab).

(** [a] may stand before [b] in a table sorted highest first. *)
Definition notBelow (a b : Cell) : Prop := probability b <= probability a.


(** The smallest positive normal double, 2^-1022. *)
Definition leastNormalDouble : R := / 2 ^ 1022.

End TableOps.

(** ** Clearing the store; vocabulary for stored records *)

Module StoreOps.
Import Store.
Local Open Scope string_scope.
Local Open Scope Z_scope.

(** [clearAllData()]; [confirmAnswer] is what the user answers should the
    [confirm] dialog be shown (it is shown only when matches are stored). *)
Definition clearAllData (confirmAnswer : bool) (s : State) : State :=
  if Nat.ltb 0 (getTotalMatchCount s) && negb confirmAnswer then s
  else
    let md := setCategory (matchData s) C_h2h [] in
    let md := setCategory md C_team1 [] in
    let md := setCategory md C_team2 [] in
    set_matchData s md.

(** One record does not come after another in time. *)
Definition notLater (a b : MatchRecord) : Prop := timestamp a <= timestamp b.

(** The derived fields of a record agree with its two scores. *)
Definition derivedFieldsAgree (r : MatchRecord) : Prop :=
  0 <= team1Score r /\ 0 <= team2Score r /\
  totalScore r = team1Score r + team2Score r /\
  marginOfVictory r = Z.abs (team1Score r - team2Score r) /\
  marginOfVictory r <= totalScore r /\
  cleanSheet r = ((team1Score r =? 0) || (team2Score r =? 0)) /\
  ((1 # 2) <= goalEfficiency r)%Q /\ (goalEfficiency r <= 1)%Q /\
  (outcome r = "Draw" <-> team1Score r = team2Score r).

(** The line-dependent flags of a record agree with the lines in [s]. *)
Definition flagsAgree (s : State) (r : MatchRecord) : Prop :=
  totalOverLine r =
    (if Qle_bool (totalLine s) 0 then None
     else Some (negb (Qle_bool (inject_Z (totalScore r)) (totalLine s)))) /\
  spreadCover r =
    (if Qle_bool (pointSpread s) 0 then None
     else calculateSpreadCover s (team1Score r) (team2Score r)).

(** Scores and a spread on which the code's double-precision subtraction
    and comparisons are exact: whole scores from 0 below 2^31, and a
    spread below 2^31 that is a multiple of 1/1024. *)
Definition exactSpreadInputs (s : State) (team1Score team2Score : Z) : Prop :=
  0 <= team1Score < 2 ^ 31 /\ 0 <= team2Score < 2 ^ 31 /\
  exists k : Z, 0 <= k < 2 ^ 41 /\ (pointSpread s == k # 1024)%Q.

(** A clock that never runs backwards and shows a time later than
    [weeks] weeks after the epoch. *)
Definition steadyClock (clock : nat -> Z) (weeks : nat) : Prop :=
  (forall j k : nat, (j <= k)%nat -> clock j <= clock k) /\
  (forall k : nat, Z.of_nat weeks * 7 * 24 * 60 * 60 * 1000 < clock k).

(** All records of the three sequences. *)
Definition allRecords (md : MatchData) : list MatchRecord :=
  h2h md ++ team1 md ++ team2 md.

End StoreOps.

(** ** Betting edges and recommendations *)

Module Betting.
Import Store.
Local Open Scope string_scope.
Local Open Scope R_scope.

(** The strings returned by [calculateOverUnderRecommendation]; the
    template literals [`STRONG OVER ${totalLine}`] and the like carry
    the line. *)
Inductive TotalRecommendation :=
| NoLineSet
| StrongOver (line : Q)
| Over (line : Q)
| StrongUnder (line : Q)
| Under (line : Q)
| TotalNoClearEdge.

(** [calculateOverUnderRecommendation(overUnderEdge, projectedTotal)]. *)
Definition calculateOverUnderRecommendation (s : State)
    (overUnderEdge projectedTotal : R) : TotalRecommendation :=
  if Qle_bool (totalLine s) 0 then NoLineSet
  else
    let lineQualityFactor := 1 - (Rabs (Q2R (totalLine s) - 25 / 10) * (1 / 10)) in
    let STRONG_EDGE_THRESHOLD := (75 / 10) * lineQualityFactor in
    let MODERATE_EDGE_THRESHOLD := (45 / 10) * lineQualityFactor in
    if JS.gtb overUnderEdge STRONG_EDGE_THRESHOLD then StrongOver (totalLine s)
    else if JS.gtb overUnderEdge MODERATE_EDGE_THRESHOLD then Over (totalLine s)
    else if JS.ltb overUnderEdge (- STRONG_EDGE_THRESHOLD) then StrongUnder (totalLine s)
    else if JS.ltb overUnderEdge (- MODERATE_EDGE_THRESHOLD) then Under (totalLine s)
    else TotalNoClearEdge.

(** The strings returned by [calculateSpreadRecommendation]:
    [favoriteSpread] is [`${favoriteTeam} -${pointSpread}`],
    [underdogSpread] is [`${underdogTeam} +${pointSpread}`], either of
    them with or without the prefix "STRONG ". *)
Inductive SpreadRecommendation :=
| NoSpreadSet
| SpreadNoClearEdge
| FavoriteSpread (strong : bool) (favoriteTeam : string) (spread : Q)
| UnderdogSpread (strong : bool) (underdogTeam : string) (spread : Q).

(** [calculateSpreadRecommendation(spreadEdge, projectedMargin)]. *)
Definition calculateSpreadRecommendation (s : State)
    (spreadEdge projectedMargin : R) : SpreadRecommendation :=
  if Qle_bool (pointSpread s) 0 then NoSpreadSet
  else if JS.ltb (Rabs projectedMargin) (3 / 10) then SpreadNoClearEdge
  else
    let spreadQualityFactor := 1 - (Rmax 0 (3 - Q2R (pointSpread s)) * (1 / 10)) in
    let STRONG_EDGE_THRESHOLD := 7 * spreadQualityFactor in
    let MODERATE_EDGE_THRESHOLD := 4 * spreadQualityFactor in
    let favoriteTeam :=
      if String.eqb (spreadDirection s) "team1" then team1Name s else team2Name s in
    let underdogTeam :=
      if String.eqb (spreadDirection s) "team1" then team2Name s else team1Name s in
    if JS.gtb spreadEdge STRONG_EDGE_THRESHOLD
    then FavoriteSpread true favoriteTeam (pointSpread s)
    else if JS.gtb spreadEdge MODERATE_EDGE_THRESHOLD
    then FavoriteSpread false favoriteTeam (pointSpread s)
    else if JS.ltb spreadEdge (- STRONG_EDGE_THRESHOLD)
    then UnderdogSpread true underdogTeam (pointSpread s)
    else if JS.ltb spreadEdge (- MODERATE_EDGE_THRESHOLD)
    then UnderdogSpread false underdogTeam (pointSpread s)
    else SpreadNoClearEdge.

(** [overUnderEdge] as [performAnalysis] computes it. *)
Definition overUnderEdge (s : State) (projectedTotal : R) : R :=
  if negb (Qle_bool (totalLine s) 0)
  then ((projectedTotal - Q2R (totalLine s)) / Rmax 1 (Q2R (totalLine s))) * 100
  else 0.

(** [spreadEdge] as [performAnalysis] computes it. *)
Definition spreadEdge (s : State) (adjustedMargin : R) : R :=
  if negb (Qle_bool (pointSpread s) 0) then
    let adjustedSpread :=
      if String.eqb (spreadDirection s) "team1"
      then Q2R (pointSpread s) else - Q2R (pointSpread s) in
    ((adjustedMargin - adjustedSpread) / Rmax 1 (Rabs adjustedSpread)) * 100
  else 0.

(** [totalRecommendation] and [spreadRecommendation] of [performAnalysis]. *)
Definition totalRecommendation (s : State) (projectedTotal : R) : TotalRecommendation :=
  if negb (Qle_bool (totalLine s) 0)
  then calculateOverUnderRecommendation s (overUnderEdge s projectedTotal) projectedTotal
  else NoLineSet.

Definition spreadRecommendation (s : State) (adjustedMargin : R) : SpreadRecommendation :=
  if negb (Qle_bool (pointSpread s) 0)
  then calculateSpreadRecommendation s (spreadEdge s adjustedMargin) adjustedMargin
  else NoSpreadSet.

(** [team1ProjScore] and [team2ProjScore] of [performAnalysis]. *)
Definition team1ProjScore (projectedTotal adjustedMargin : R) : R :=
  Pipeline.round ((projectedTotal / 2) + (adjustedMargin / 2)).

Definition team2ProjScore (projectedTotal adjustedMargin : R) : R :=
  Pipeline.round ((projectedTotal / 2) - (adjustedMargin / 2)).

(** A recommendation to bet over, or under, the line. *)
Definition recommendsOver (r : TotalRecommendation) : Prop :=
  match r with StrongOver _ | Over _ => True | _ => False end.

Definition recommendsUnder (r : TotalRecommendation) : Prop :=
  match r with StrongUnder _ | Under _ => True | _ => False end.

(** A state that differs from the initial one in the betting lines only. *)
Definition withLines (tl ps : Q) (sd : string) : State :=
  set_lines initialState tl ps sd.

End Betting.

(** ** Vocabulary for the analysis pipeline *)

Module PipelineOps.
Import Store Pipeline.
Local Open Scope string_scope.
Local Open Scope R_scope.

(** The insertion step of the sort in [calculateFeatureImportance],
    comparator [(a, b) => b[1] - a[1]]. *)
Fixpoint insertEntry (x : string * R) (l : list (string * R)) : list (string * R) :=
  match l with
  | [] => [x]
  | y :: l' =>
    if Rle_dec (snd y - snd x) 0 then x :: y :: l' else y :: insertEntry x l'
  end.

(** The keys of the [importance] object, in the order of the literal. *)
Definition featureNames : list string :=
  [ "Head-to-Head History"; "Recent Form"; "Offensive Strength";
    "Defensive Stability"; "Home Advantage"; "Team Momentum";
    "Match Importance"; "Team Ranking"; "Scoring Trends" ].

(** Entry [a] may stand before entry [b] in a chart sorted highest first. *)
Definition notLessImportant (a b : string * R) : Prop := snd b <= snd a.

(** A whole number between 10 and 95. *)
Definition wholeScore (x : R) : Prop :=
  exists z : Z, (10 <= z <= 95)%Z /\ x = IZR z.

(** Two records that differ at most in the two line-dependent flags. *)
Definition sameMatch (r r' : MatchRecord) : Prop :=
  matchNumber r' = matchNumber r /\
  team1Score r' = team1Score r /\
  team2Score r' = team2Score r /\
  totalScore r' = totalScore r /\
  outcome r' = outcome r /\
  category r' = category r /\
  marginOfVictory r' = marginOfVictory r /\
  goalEfficiency r' = goalEfficiency r /\
  cleanSheet r' = cleanSheet r /\
  timestamp r' = timestamp r.

(** What one head-to-head match adds to [weightedAdvantage], per unit
    of weight, in the [forEach] of [calculateH2HAdvantage]. *)
Definition h2hValue (s : State) (m : MatchRecord) : R :=
  if String.eqb (outcome m) (team1WinString s) then 1
  else if String.eqb (outcome m) (team2WinString s) then -1
  else 0.

(** No head-to-head record carries the win label of either current
    team name. *)
Definition noWinLabel (s : State) : Prop :=
  Forall (fun m => outcome m <> team1WinString s /\ outcome m <> team2WinString s)
    (h2h (matchData s)).

End PipelineOps.

(** * Properties *)

(** ** Facts about the numeric primitives *)

Module JSFacts.
Local Open Scope R_scope.

Lemma neqb_false (a b : R) : JS.neqb a b = false <-> a = b.
Proof. unfold JS.neqb; destruct (Req_dec_T a b); split; congruence. Qed.

Lemma neqb_refl (a : R) : JS.neqb a a = false.
Proof. apply neqb_false; reflexivity. Qed.

Lemma ltb_true (a b : R) : JS.ltb a b = true <-> a < b.
Proof. unfold JS.ltb; destruct (Rlt_dec a b); split; congruence. Qed.

Lemma ltb_false (a b : R) : JS.ltb a b = false <-> b <= a.
Proof.
  unfold JS.ltb; destruct (Rlt_dec a b); split; try congruence; lra.
Qed.

Lemma gtb_true (a b : R) : JS.gtb a b = true <-> a > b.
Proof. unfold JS.gtb; destruct (Rgt_dec a b); split; congruence. Qed.

Lemma gtb_false (a b : R) : JS.gtb a b = false <-> a <= b.
Proof.
  unfold JS.gtb; destruct (Rgt_dec a b); split; try congruence; lra.
Qed.

Lemma max3_ge (a b c : R) :
  a <= JS.max3 a b c /\ b <= JS.max3 a b c /\ c <= JS.max3 a b c.
Proof.
  unfold JS.max3.
  pose proof (Rmax_l (Rmax a b) c); pose proof (Rmax_r (Rmax a b) c).
  pose proof (Rmax_l a b); pose proof (Rmax_r a b).
  repeat split; lra.
Qed.

Lemma max3_cases (a b c : R) :
  JS.max3 a b c = a \/ JS.max3 a b c = b \/ JS.max3 a b c = c.
Proof.
  unfold JS.max3, Rmax.
  destruct (Rle_dec a b); destruct (Rle_dec _ c); auto.
Qed.

(** The seven squarings behind [exp 3 > 19]. *)
Lemma exp_double (x : R) : exp (2 * x) = exp x * exp x.
Proof. replace (2 * x) with (x + x) by lra. apply exp_plus. Qed.

Lemma exp_3_lower : 19 < exp 3.
Proof.
  assert (H0 : 1 + 3 / 128 <= exp (3 / 128)) by apply exp_ineq1_le.
  assert (H1 : 10474 / 10000 <= exp (3 / 64)).
  { replace (3 / 64) with (2 * (3 / 128)) by lra. rewrite exp_double. nra. }
  assert (H2 : 10970 / 10000 <= exp (3 / 32)).
  { replace (3 / 32) with (2 * (3 / 64)) by lra. rewrite exp_double. nra. }
  assert (H3 : 12034 / 10000 <= exp (3 / 16)).
  { replace (3 / 16) with (2 * (3 / 32)) by lra. rewrite exp_double. nra. }
  assert (H4 : 14481 / 10000 <= exp (3 / 8)).
  { replace (3 / 8) with (2 * (3 / 16)) by lra. rewrite exp_double. nra. }
  assert (H5 : 20969 / 10000 <= exp (3 / 4)).
  { replace (3 / 4) with (2 * (3 / 8)) by lra. rewrite exp_double. nra. }
  assert (H6 : 43969 / 10000 <= exp (3 / 2)).
  { replace (3 / 2) with (2 * (3 / 4)) by lra. rewrite exp_double. nra. }
  replace 3 with (2 * (3 / 2)) by lra. rewrite exp_double. nra.
Qed.

End JSFacts.

(** ** The win-probability model *)

Module ModelFacts.
Import Model.
Local Open Scope R_scope.

Lemma sumsTo100_exact (p : Probabilities) : probSum p = 100 -> sumsTo100 p.
Proof.
  intros H. unfold sumsTo100. rewrite H.
  replace (100 - 100) with 0 by lra. rewrite Rabs_R0.
  apply Rlt_le, Rdiv_lt_0_compat; [lra | apply pow_lt; lra].
Qed.

Lemma probSum_normalizeTo100 (p : Probabilities) :
  probSum p <> 0 -> probSum (normalizeTo100 p) = 100.
Proof.
  unfold probSum, normalizeTo100; simpl. intros H. field. exact H.
Qed.

Lemma probSum_revertToPrior (p : Probabilities) :
  probSum p = 100 -> probSum (revertToPrior p) = 100.
Proof. unfold probSum, revertToPrior; simpl. intros H. lra. Qed.

Lemma probSum_floorAt5_ge (p : Probabilities) : 15 <= probSum (floorAt5 p).
Proof.
  unfold probSum, floorAt5; simpl.
  pose proof (Rmax_l 5 (team1WinProb p)).
  pose proof (Rmax_l 5 (team2WinProb p)).
  pose proof (Rmax_l 5 (drawProb p)). lra.
Qed.

Lemma drawProbClamped_range (f : Features) :
  5 <= drawProbClamped f <= 45.
Proof.
  unfold drawProbClamped. split.
  - apply Rmax_l.
  - apply Rmax_lub; [lra | apply Rmin_l].
Qed.

Lemma probSum_base (f : Features) :
  baseTeam1WinProb f + baseTeam2WinProb f + drawProbClamped f = 100.
Proof. unfold baseTeam2WinProb, baseProbTotal. lra. Qed.

Lemma stageNormalized_eq (f : Features) :
  stageNormalized f =
  {| team1WinProb := baseTeam1WinProb f;
     team2WinProb := baseTeam2WinProb f;
     drawProb := drawProbClamped f |}.
Proof.
  unfold stageNormalized, normalizeTo100; simpl.
  rewrite probSum_base. f_equal; field.
Qed.

Lemma probSum_stageNormalized (f : Features) : probSum (stageNormalized f) = 100.
Proof. rewrite stageNormalized_eq. unfold probSum; simpl. apply probSum_base. Qed.

Lemma probSum_stageBlended (f : Features) : probSum (stageBlended f) = 100.
Proof.
  unfold stageBlended. destruct (negb (dataSufficiency (dataQuality f))).
  - apply probSum_revertToPrior, probSum_stageNormalized.
  - apply probSum_stageNormalized.
Qed.

Lemma probSum_final (f : Features) :
  probSum (calculateModelV1WinProbabilities f) = 100.
Proof.
  unfold calculateModelV1WinProbabilities, stageFloored.
  apply probSum_normalizeTo100.
  pose proof (probSum_floorAt5_ge (stageBlended f)). lra.
Qed.

(** C3: after the first normalization, after the insufficient-data blend
    (30% toward team1 = 40, team2 = 40, draw = 20) and after the final
    floor-and-renormalize, the three probabilities of
    [calculateModelV1WinProbabilities] sum to 100 within 1e-9 (in exact
    arithmetic the sum is 100); the blend is the one the claim names. *)
Theorem C3_probabilities_sum_to_100 (f : Features) :
  (sumsTo100 (stageNormalized f) /\
   sumsTo100 (stageBlended f) /\
   sumsTo100 (calculateModelV1WinProbabilities f)) /\
  (probSum (stageNormalized f) = 100 /\
   probSum (stageBlended f) = 100 /\
   probSum (calculateModelV1WinProbabilities f) = 100) /\
  stageBlended f =
    (if dataSufficiency (dataQuality f) then stageNormalized f
     else revertToPrior (stageNormalized f)) /\
  (team1WinProb (revertToPrior (stageNormalized f)) =
     (7 / 10) * team1WinProb (stageNormalized f) + (3 / 10) * 40 /\
   team2WinProb (revertToPrior (stageNormalized f)) =
     (7 / 10) * team2WinProb (stageNormalized f) + (3 / 10) * 40 /\
   drawProb (revertToPrior (stageNormalized f)) =
     (7 / 10) * drawProb (stageNormalized f) + (3 / 10) * 20).
Proof.
  split; [| split; [| split]].
  - repeat split; apply sumsTo100_exact;
      [apply probSum_stageNormalized | apply probSum_stageBlended | apply probSum_final].
  - repeat split;
      [apply probSum_stageNormalized | apply probSum_stageBlended | apply probSum_final].
  - unfold stageBlended. destruct (dataSufficiency (dataQuality f)); reflexivity.
  - unfold revertToPrior; simpl. repeat split; lra.
Qed.

(** C7: the draw probability is computed before the win split, as
    35 - 4 x (team1AvgScore + team2AvgScore) - 15 x |attackDifference|,
    plus 10 when both defense strengths are below 0.8, plus
    8 x (matchImportance - 1.3) when matchImportance exceeds 1.3, clamped
    to [5, 45]; the win split divides what is left of 100. *)
Theorem C7_draw_probability_formula (f : Features) :
  drawProbClamped f = drawProbSpec f /\
  5 <= drawProbClamped f <= 45 /\
  baseTeam1WinProb f =
    (100 - drawProbClamped f) / (1 + exp (- normalizedAdvantage f)) /\
  baseTeam2WinProb f = (100 - drawProbClamped f) - baseTeam1WinProb f /\
  drawProb (stageNormalized f) = drawProbClamped f.
Proof.
  split; [| split; [apply drawProbClamped_range | repeat split]].
  - unfold drawProbClamped, drawProbSpec, baseDrawRate, scoringRate,
      projectedMarginAbs, JS.ltb, JS.gtb, Rgt.
    destruct (Rlt_dec (team1DefenseStrength (advancedStats f)) (8 / 10));
      destruct (Rlt_dec (team2DefenseStrength (advancedStats f)) (8 / 10));
      destruct (Rgt_dec (matchImportance (basicStats f)) (13 / 10));
      destruct (Rlt_dec (13 / 10) (matchImportance (basicStats f)));
      simpl; try (exfalso; unfold Rgt in *; lra);
      do 2 f_equal; lra.
  - rewrite stageNormalized_eq. reflexivity.
Qed.

Lemma ensurePredictionConsistency_fst (p : Probabilities) (m : R) :
  fst (ensurePredictionConsistency p m) = p.
Proof.
  unfold ensurePredictionConsistency.
  destruct p as [a b c]; simpl.
  destruct (predictedWinner _); simpl;
    try destruct (marginPredictedWinner m); reflexivity.
Qed.

(** C10: the probabilities object returned by
    [ensurePredictionConsistency] has the input's team1WinProb,
    team2WinProb and drawProb, whatever the margin: only the margin
    component of the result can differ from the input. *)
Theorem C10_probabilities_unchanged (p : Probabilities) (m : R) :
  team1WinProb (fst (ensurePredictionConsistency p m)) = team1WinProb p /\
  team2WinProb (fst (ensurePredictionConsistency p m)) = team2WinProb p /\
  drawProb (fst (ensurePredictionConsistency p m)) = drawProb p /\
  fst (ensurePredictionConsistency p m) = p.
Proof.
  rewrite ensurePredictionConsistency_fst. repeat split.
Qed.

Lemma predictedWinner_draw_iff (p : Probabilities) :
  predictedWinner p = W_draw <-> drawIsMax p.
Proof.
  unfold predictedWinner, drawIsMax.
  pose proof (JSFacts.max3_ge (team1WinProb p) (team2WinProb p) (drawProb p))
    as (G1 & G2 & G3).
  pose proof (JSFacts.max3_cases (team1WinProb p) (team2WinProb p) (drawProb p))
    as C.
  destruct (Req_dec_T (team1WinProb p) _) as [E1 | E1];
    [| destruct (Req_dec_T (team2WinProb p) _) as [E2 | E2]].
  - split; [discriminate | intros [H1 H2]; lra].
  - split; [discriminate | intros [H1 H2]; lra].
  - split; [intros _ | reflexivity].
    destruct C as [C | [C | C]]; try (exfalso; auto; fail).
    rewrite C in *. split; lra.
Qed.

Lemma predictedWinner_team1 (p : Probabilities) :
  team2WinProb p <= team1WinProb p -> drawProb p <= team1WinProb p ->
  predictedWinner p = W_team1.
Proof.
  intros H2 Hd. unfold predictedWinner, JS.max3.
  rewrite (Rmax_left (team1WinProb p) (team2WinProb p)) by exact H2.
  rewrite (Rmax_left (team1WinProb p) (drawProb p)) by exact Hd.
  destruct (Req_dec_T (team1WinProb p) (team1WinProb p)); [reflexivity | congruence].
Qed.

Lemma predictedWinner_team2 (p : Probabilities) :
  team1WinProb p < team2WinProb p -> drawProb p <= team2WinProb p ->
  predictedWinner p = W_team2.
Proof.
  intros H1 Hd. unfold predictedWinner, JS.max3.
  rewrite (Rmax_right (team1WinProb p) (team2WinProb p)) by lra.
  rewrite (Rmax_left (team2WinProb p) (drawProb p)) by exact Hd.
  destruct (Req_dec_T (team1WinProb p) (team2WinProb p)); [lra |].
  destruct (Req_dec_T (team2WinProb p) (team2WinProb p)); [reflexivity | congruence].
Qed.

Lemma marginPredictedWinner_team1 (m : R) :
  25 / 100 < m -> marginPredictedWinner m = W_team1.
Proof.
  intros H. unfold marginPredictedWinner, marginThreshold, JS.gtb.
  destruct (Rgt_dec m (25 / 100)) as [_ | N]; [reflexivity |].
  exfalso. apply N. exact H.
Qed.

Lemma marginPredictedWinner_team2 (m : R) :
  m < - (25 / 100) -> marginPredictedWinner m = W_team2.
Proof.
  intros H. unfold marginPredictedWinner, marginThreshold, JS.gtb, JS.ltb.
  destruct (Rgt_dec m (25 / 100)) as [G | _]; [unfold Rgt in G; lra |].
  destruct (Rlt_dec m (- (25 / 100))) as [_ | N]; [reflexivity | lra].
Qed.

Lemma marginPredictedWinner_not_team1 (m : R) :
  m <= 25 / 100 -> marginPredictedWinner m <> W_team1.
Proof.
  intros H. unfold marginPredictedWinner, marginThreshold, JS.gtb, JS.ltb.
  destruct (Rgt_dec m (25 / 100)) as [G | _]; [unfold Rgt in G; lra |].
  destruct (Rlt_dec m (- (25 / 100))); discriminate.
Qed.

Lemma marginPredictedWinner_not_team2 (m : R) :
  - (25 / 100) <= m -> marginPredictedWinner m <> W_team2.
Proof.
  intros H. unfold marginPredictedWinner, marginThreshold, JS.gtb, JS.ltb.
  destruct (Rgt_dec m (25 / 100)); [discriminate |].
  destruct (Rlt_dec m (- (25 / 100))); [lra | discriminate].
Qed.

(** C2: when draw is the probability-max outcome (strictly above both
    wins) the returned margin has magnitude at most 0.2 x
    |originalMargin|. Otherwise a team is the probability-implied winner
    (team1 when its probability is the highest, also on a tie; team2
    when its probability is above team1's and not below draw's). When
    the margin does not imply that team (for team1: the margin is not
    above 0.25; for team2: it is not below -0.25) the returned margin
    is max(0.25, 0.8 x |originalMargin|) for team1 and minus that for
    team2; when the margin implies that team it is returned as it is.
    The three cases cover every probabilities object. *)
Theorem C2_margin_follows_probabilities (p : Probabilities) (m : R) :
  (drawIsMax p ->
   Rabs (snd (ensurePredictionConsistency p m)) <= (2 / 10) * Rabs m) /\
  (team2WinProb p <= team1WinProb p -> drawProb p <= team1WinProb p ->
   (m <= 25 / 100 ->
    snd (ensurePredictionConsistency p m) =
      Rmax (25 / 100) ((8 / 10) * Rabs m)) /\
   (25 / 100 < m -> snd (ensurePredictionConsistency p m) = m)) /\
  (team1WinProb p < team2WinProb p -> drawProb p <= team2WinProb p ->
   (- (25 / 100) <= m ->
    snd (ensurePredictionConsistency p m) =
      - Rmax (25 / 100) ((8 / 10) * Rabs m)) /\
   (m < - (25 / 100) -> snd (ensurePredictionConsistency p m) = m)) /\
  (drawIsMax p \/
   (team2WinProb p <= team1WinProb p /\ drawProb p <= team1WinProb p) \/
   (team1WinProb p < team2WinProb p /\ drawProb p <= team2WinProb p)).
Proof.
  split; [| split; [| split]].
  - intros Hd. apply predictedWinner_draw_iff in Hd.
    unfold ensurePredictionConsistency. rewrite Hd. simpl.
    rewrite Rabs_mult, (Rabs_pos_eq (2 / 10)) by lra. lra.
  - intros H2 Hd.
    pose proof (predictedWinner_team1 p H2 Hd) as Hw.
    unfold ensurePredictionConsistency, marginThreshold. rewrite Hw.
    cbn [Winner_eqb negb snd]. split; intros Hm.
    + pose proof (marginPredictedWinner_not_team1 m Hm) as Hn.
      destruct (marginPredictedWinner m); [congruence | |];
        cbn [negb]; f_equal; lra.
    + rewrite (marginPredictedWinner_team1 m Hm). reflexivity.
  - intros H1 Hd.
    pose proof (predictedWinner_team2 p H1 Hd) as Hw.
    unfold ensurePredictionConsistency, marginThreshold. rewrite Hw.
    cbn [Winner_eqb negb snd].
    assert (Hmin : Rmin (- (25 / 100)) (- Rabs m * (8 / 10)) =
                   - Rmax (25 / 100) ((8 / 10) * Rabs m)).
    { unfold Rmin, Rmax.
      destruct (Rle_dec (- (25 / 100)) _); destruct (Rle_dec (25 / 100) _); lra. }
    split; intros Hm.
    + pose proof (marginPredictedWinner_not_team2 m Hm) as Hn.
      destruct (marginPredictedWinner m); [| congruence |];
        cbn [negb]; exact Hmin.
    + rewrite (marginPredictedWinner_team2 m Hm). reflexivity.
  - unfold drawIsMax.
    destruct (Rle_dec (team2WinProb p) (team1WinProb p));
      destruct (Rle_dec (drawProb p) (team1WinProb p));
      destruct (Rle_dec (drawProb p) (team2WinProb p));
      first [ left; split; lra
            | right; left; split; lra
            | right; right; split; lra ].
Qed.

Lemma C2_witness :
  Rabs (snd (ensurePredictionConsistency
               {| team1WinProb := 30; team2WinProb := 30; drawProb := 40 |} 1))
    <= (2 / 10) * Rabs 1 /\
  snd (ensurePredictionConsistency
         {| team1WinProb := 50; team2WinProb := 30; drawProb := 20 |} (-1)) =
    Rmax (25 / 100) ((8 / 10) * Rabs (-1)) /\
  snd (ensurePredictionConsistency
         {| team1WinProb := 30; team2WinProb := 50; drawProb := 20 |} 1) =
    - Rmax (25 / 100) ((8 / 10) * Rabs 1).
Proof.
  split; [| split].
  - apply (proj1 (C2_margin_follows_probabilities
                    {| team1WinProb := 30; team2WinProb := 30; drawProb := 40 |} 1)).
    unfold drawIsMax; simpl; lra.
  - apply (proj1 (proj2 (C2_margin_follows_probabilities
                    {| team1WinProb := 50; team2WinProb := 30; drawProb := 20 |} (-1))));
      simpl; lra.
  - apply (proj1 (proj2 (proj2 (C2_margin_follows_probabilities
                    {| team1WinProb := 30; team2WinProb := 50; drawProb := 20 |} 1))));
      simpl; lra.
Defined.

(** What the final renormalization does to a floored probability: with
    sufficient data, a team1 share below 5 before the floor comes out
    below 5 again. *)
Lemma floor_lost_by_renormalization (f : Features) :
  dataSufficiency (dataQuality f) = true ->
  baseTeam1WinProb f < 5 ->
  team1WinProb (calculateModelV1WinProbabilities f) < 5.
Proof.
  intros Hs Hlt.
  pose proof (drawProbClamped_range f) as [Hd1 Hd2].
  unfold calculateModelV1WinProbabilities, stageFloored, stageBlended.
  rewrite Hs. cbn [negb]. rewrite stageNormalized_eq.
  unfold normalizeTo100, floorAt5. cbn [team1WinProb team2WinProb drawProb].
  assert (H2 : baseTeam2WinProb f = 100 - drawProbClamped f - baseTeam1WinProb f)
    by (unfold baseTeam2WinProb, baseProbTotal; lra).
  rewrite (Rmax_left 5 (baseTeam1WinProb f)) by lra.
  rewrite (Rmax_right 5 (baseTeam2WinProb f)) by lra.
  rewrite (Rmax_right 5 (drawProbClamped f)) by lra.
  rewrite H2.
  replace (5 + (100 - drawProbClamped f - baseTeam1WinProb f) + drawProbClamped f)
    with (105 - baseTeam1WinProb f) by lra.
  assert (Hpos : 0 < 105 - baseTeam1WinProb f) by lra.
  apply Rmult_lt_reg_r with (105 - baseTeam1WinProb f); [exact Hpos |].
  replace (5 / (105 - baseTeam1WinProb f) * 100 * (105 - baseTeam1WinProb f))
    with 500 by (field; lra).
  lra.
Qed.

(** With the advantage clamped at -3 and sufficient data, team1's share
    is below 5 before the floor, whatever the draw probability. *)
Lemma floor_lost_at_full_disadvantage (f : Features) :
  dataSufficiency (dataQuality f) = true ->
  normalizedAdvantage f = -3 ->
  team1WinProb (calculateModelV1WinProbabilities f) < 5.
Proof.
  intros Hs Ha.
  apply floor_lost_by_renormalization; [exact Hs |].
  unfold baseTeam1WinProb, baseProbTotal. rewrite Ha.
  pose proof (drawProbClamped_range f) as [D1 D2].
  replace (- -3) with 3 by lra.
  pose proof JSFacts.exp_3_lower as He.
  apply Rmult_lt_reg_r with (1 + exp 3); [lra |].
  replace ((100 - drawProbClamped f) / (1 + exp 3) * (1 + exp 3))
    with (100 - drawProbClamped f) by (field; lra).
  lra.
Qed.

Lemma floor_below_5 (f : Features) :
  dataSufficiency (dataQuality f) = true ->
  normalizedAdvantage f = -3 ->
  team1WinProb (stageBlended f) < 5.
Proof.
  intros Hs Ha. unfold stageBlended. rewrite Hs. cbn [negb].
  rewrite stageNormalized_eq. cbn [team1WinProb].
  unfold baseTeam1WinProb, baseProbTotal. rewrite Ha.
  pose proof (drawProbClamped_range f) as [D1 D2].
  replace (- -3) with 3 by lra.
  pose proof JSFacts.exp_3_lower as He.
  apply Rmult_lt_reg_r with (1 + exp 3); [lra |].
  replace ((100 - drawProbClamped f) / (1 + exp 3) * (1 + exp 3))
    with (100 - drawProbClamped f) by (field; lra).
  lra.
Qed.

(** The advantage coefficient at a neutral venue, importance 1 and no
    ranking difference: none of the three conditional terms is added. *)
Lemma advantageCoefficient_plain (f : Features) :
  locationFactor (basicStats f) = 0 ->
  matchImportance (basicStats f) = 1 ->
  rankingDiff (basicStats f) = 0 ->
  advantageCoefficient f =
    attackDifference f * WEIGHTS.OVERALL_PERFORMANCE +
    (team1RecentForm (advancedStats f) - team2RecentForm (advancedStats f))
      * WEIGHTS.RECENT_FORM +
    h2hAdvantage (basicStats f) * WEIGHTS.H2H_MATCHES +
    (team1MomentumIndex (advancedStats f) - team2MomentumIndex (advancedStats f))
      * WEIGHTS.MOMENTUM.
Proof.
  intros H1 H2 H3. unfold advantageCoefficient.
  rewrite H1, H2, H3, !JSFacts.neqb_refl. reflexivity.
Qed.

End ModelFacts.

(** ** The score-distribution table *)

Module DistributionFacts.
Import Distribution TableOps.
Local Open Scope R_scope.

Lemma fold_sum_shift (l : list Cell) (a : R) :
  fold_left (fun sum dist => sum + probability dist) l a =
  a + sumProbability l.
Proof.
  unfold sumProbability. revert a.
  induction l as [| x l IH]; intros a; simpl.
  - lra.
  - rewrite IH, (IH (0 + probability x)). lra.
Qed.

Lemma sumProbability_cons (x : Cell) (l : list Cell) :
  sumProbability (x :: l) = probability x + sumProbability l.
Proof.
  unfold sumProbability at 1; simpl. rewrite fold_sum_shift. lra.
Qed.

Lemma sumProbability_app (l1 l2 : list Cell) :
  sumProbability (l1 ++ l2) = sumProbability l1 + sumProbability l2.
Proof.
  induction l1 as [| x l1 IH]; simpl.
  - unfold sumProbability at 2; simpl. lra.
  - rewrite !sumProbability_cons, IH. lra.
Qed.

Lemma sumProbability_perm (l1 l2 : list Cell) :
  Permutation l1 l2 -> sumProbability l1 = sumProbability l2.
Proof.
  induction 1; rewrite ?sumProbability_cons; lra.
Qed.

Lemma insertDesc_perm (x : Cell) (l : list Cell) :
  Permutation (insertDesc x l) (x :: l).
Proof.
  induction l as [| y l IH]; simpl; [reflexivity |].
  destruct (Rle_dec (probability y - probability x) 0); [reflexivity |].
  rewrite IH. apply perm_swap.
Qed.

Lemma sortDesc_perm (l : list Cell) : Permutation (sortDesc l) l.
Proof.
  induction l as [| x l IH]; simpl; [reflexivity |].
  rewrite insertDesc_perm. constructor. exact IH.
Qed.

Lemma hasOther_perm (l1 l2 : list Cell) :
  Permutation l1 l2 -> hasOther l1 = hasOther l2.
Proof.
  unfold hasOther. induction 1; simpl.
  - reflexivity.
  - congruence.
  - destruct (isOther x), (isOther y); reflexivity.
  - congruence.
Qed.

Lemma hasOther_app (l1 l2 : list Cell) :
  hasOther (l1 ++ l2) = hasOther l1 || hasOther l2.
Proof. unfold hasOther. apply existsb_app. Qed.

(** [poissonProbability] is never negative, and positive at [k = 0]. *)
Lemma poissonLoop_nonneg (lambda : R) (steps i : nat) (result : R) :
  0 < lambda -> (0 < i)%nat -> 0 <= result ->
  0 <= poissonLoop lambda i steps result.
Proof.
  intros Hl. revert i result.
  induction steps as [| n IH]; intros i result Hi Hr; simpl; [exact Hr |].
  apply IH; [lia |].
  apply Rmult_le_pos; [exact Hr |].
  apply Rlt_le, Rdiv_lt_0_compat; [exact Hl |].
  apply lt_0_INR. exact Hi.
Qed.

Lemma poissonProbability_nonneg (k : nat) (lambda : R) :
  0 <= poissonProbability k lambda.
Proof.
  unfold poissonProbability.
  destruct (Rle_dec lambda 0).
  - destruct (Nat.eqb k 0); lra.
  - apply poissonLoop_nonneg; [lra | lia |].
    apply Rlt_le, exp_pos.
Qed.

Lemma poissonProbability_0_pos (lambda : R) : 0 < poissonProbability 0 lambda.
Proof.
  unfold poissonProbability.
  destruct (Rle_dec lambda 0); simpl; [lra | apply exp_pos].
Qed.

Ltac scale_step :=
  match goal with
  | |- context [if ?b then _ else _] => destruct b
  end.

Lemma cellProbability_nonneg (t m1 m2 : R) (a b : nat) :
  0 <= cellProbability t m1 m2 a b.
Proof.
  unfold cellProbability.
  pose proof (poissonProbability_nonneg a m1).
  pose proof (poissonProbability_nonneg b m2).
  assert (0 <= poissonProbability a m1 * poissonProbability b m2)
    by (apply Rmult_le_pos; assumption).
  repeat scale_step; nra.
Qed.

Lemma cellProbability_00_pos (t m1 m2 : R) :
  0 < cellProbability t m1 m2 0 0.
Proof.
  unfold cellProbability.
  pose proof (poissonProbability_0_pos m1).
  pose proof (poissonProbability_0_pos m2).
  assert (0 < poissonProbability 0 m1 * poissonProbability 0 m2)
    by (apply Rmult_lt_0_compat; assumption).
  simpl. destruct (JS.ltb t 2); simpl; nra.
Qed.

Lemma sumProbability_nonneg (l : list Cell) :
  Forall (fun c => 0 <= probability c) l -> 0 <= sumProbability l.
Proof.
  induction 1 as [| x l Hx _ IH].
  - unfold sumProbability; simpl; lra.
  - rewrite sumProbability_cons. lra.
Qed.

Lemma rawCells_nonneg (t m : R) :
  Forall (fun c => 0 <= probability c) (rawCells t m).
Proof.
  unfold rawCells. apply Forall_forall. intros c Hc.
  apply in_map_iff in Hc. destruct Hc as [[a b] [<- _]]. simpl.
  apply cellProbability_nonneg.
Qed.

Lemma rawCells_head (t m : R) :
  exists rest,
    rawCells t m =
    {| team1Score := 0; team2Score := 0;
       probability := cellProbability t (t / 2 + m / 2) (t / 2 - m / 2) 0 0 |}
    :: rest.
Proof. eexists. reflexivity. Qed.

Lemma rawCells_total_pos (t m : R) : 0 < sumProbability (rawCells t m).
Proof.
  pose proof (rawCells_nonneg t m) as H.
  destruct (rawCells_head t m) as [rest E]. rewrite E in *.
  rewrite sumProbability_cons.
  inversion H as [| x l Hx Hl]; subst.
  pose proof (sumProbability_nonneg _ Hl).
  pose proof (cellProbability_00_pos t (t / 2 + m / 2) (t / 2 - m / 2)).
  simpl. lra.
Qed.

Lemma sumProbability_normalizeCells (l : list Cell) :
  sumProbability l <> 0 -> sumProbability (normalizeCells l) = 100.
Proof.
  intros Hne. unfold normalizeCells.
  set (T := sumProbability l) in *.
  assert (G : forall l', sumProbability
            (map (fun dist => {| team1Score := team1Score dist;
                                 team2Score := team2Score dist;
                                 probability := probability dist / T * 100 |}) l')
            = sumProbability l' / T * 100).
  { induction l' as [| x l' IH]; simpl.
    - unfold sumProbability; simpl. field. exact Hne.
    - rewrite !sumProbability_cons, IH. simpl. field. exact Hne. }
  rewrite G. unfold T. field. exact Hne.
Qed.

Lemma cells_sum_100 (t m : R) :
  sumProbability (normalizeCells (rawCells t m)) = 100.
Proof.
  apply sumProbability_normalizeCells.
  pose proof (rawCells_total_pos t m). lra.
Qed.

Lemma cells_no_other (t m : R) :
  hasOther (normalizeCells (rawCells t m)) = false.
Proof.
  assert (G : forall (f : nat * nat -> R) (g : Cell -> R) (l : list (nat * nat)),
             existsb isOther
               (map (fun dist => {| team1Score := team1Score dist;
                                    team2Score := team2Score dist;
                                    probability := g dist |})
                  (map (fun ab => {| team1Score := Z.of_nat (fst ab);
                                     team2Score := Z.of_nat (snd ab);
                                     probability := f ab |}) l)) = false).
  { intros f g l. induction l as [| [a b] l IH]; simpl; [reflexivity |].
    rewrite IH. unfold isOther; simpl.
    destruct (Z.eqb_spec (Z.of_nat a) (-1)); [lia | reflexivity]. }
  unfold hasOther, normalizeCells, rawCells. apply G.
Qed.

(** *** The exponential at large and at moderate means *)

Lemma exp_INR_mult (x : R) (n : nat) : exp (INR n * x) = exp x ^ n.
Proof.
  induction n as [| n IH].
  - cbn [INR pow]. rewrite Rmult_0_l. apply exp_0.
  - rewrite S_INR, Rmult_plus_distr_r, Rmult_1_l, exp_plus, IH.
    cbn [pow]. ring.
Qed.



Lemma exp_300_upper : exp 300 <= 3 ^ 300.
Proof.
  assert (N : INR 300 = 300) by (rewrite INR_IZR_INZ; reflexivity).
  replace 300 with (INR 300 * 1) by (rewrite N; lra).
  rewrite exp_INR_mult.
  apply pow_incr. split; [apply Rlt_le, exp_pos | apply exp_le_3].
Qed.

Lemma exp_monotone (x y : R) : x <= y -> exp x <= exp y.
Proof.
  intros [H | ->]; [apply Rlt_le, exp_increasing; exact H | apply Rle_refl].
Qed.


Lemma poissonProbability_0_moderate (lambda : R) :
  lambda <= 300 -> / 3 ^ 300 <= poissonProbability 0 lambda.
Proof.
  intros H.
  assert (P : 0 < 3 ^ 300) by (apply pow_lt; lra).
  unfold poissonProbability.
  destruct (Rle_dec lambda 0); cbn [Nat.eqb poissonLoop].
  - rewrite <- Rinv_1. apply Rinv_le_contravar; [lra |].
    apply pow_R1_Rle. lra.
  - rewrite exp_Ropp. apply Rinv_le_contravar; [apply exp_pos |].
    apply Rle_trans with (exp 300); [apply exp_monotone, H | apply exp_300_upper].
Qed.

Lemma powers_of_3_and_2 : 3 ^ 300 * 3 ^ 300 < 130 * 2 ^ 1022.
Proof.
  rewrite !pow_IZR, <- !mult_IZR.
  apply IZR_lt. vm_compute. reflexivity.
Qed.

(** With both means at most 300 the total the cells are divided by is
    above the smallest normal double. *)
Lemma rawCells_total_moderate (t m : R) :
  t / 2 + m / 2 <= 300 -> t / 2 - m / 2 <= 300 ->
  / 2 ^ 1022 < sumProbability (rawCells t m).
Proof.
  intros H1 H2.
  pose proof (poissonProbability_0_moderate _ H1) as L1.
  pose proof (poissonProbability_0_moderate _ H2) as L2.
  pose proof (rawCells_nonneg t m) as H.
  destruct (rawCells_head t m) as [rest E]. rewrite E in *.
  rewrite sumProbability_cons.
  inversion H as [| x l Hx Hl]; subst.
  pose proof (sumProbability_nonneg _ Hl) as Hrest.
  cbn [probability].
  assert (A : 0 < 3 ^ 300) by (apply pow_lt; lra).
  assert (B : 0 < 2 ^ 1022) by (apply pow_lt; lra).
  pose proof powers_of_3_and_2 as C.
  set (a := 3 ^ 300) in *. set (b := 2 ^ 1022) in *.
  assert (Ia : 0 < / a) by (apply Rinv_0_lt_compat; exact A).
  assert (Low : / b < 130 * (/ a * / a)).
  { replace (130 * (/ a * / a)) with (/ (a * a / 130)) by (field; lra).
    apply Rinv_0_lt_contravar; [| lra].
    apply Rdiv_lt_0_compat; [apply Rmult_lt_0_compat; exact A | lra]. }
  assert (Cell : 130 * (/ a * / a) <=
                 cellProbability t (t / 2 + m / 2) (t / 2 - m / 2) 0 0).
  { unfold cellProbability.
    set (p1 := poissonProbability 0 (t / 2 + m / 2)) in *.
    set (p2 := poissonProbability 0 (t / 2 - m / 2)) in *.
    assert (P : / a * / a <= p1 * p2) by nra.
    simpl. destruct (JS.ltb t 2); simpl; nra. }
  lra.
Qed.



End DistributionFacts.

(** ** The store: ingestion, validation, clean-sheet check *)

Module StoreFacts.
Import Store.
Local Open Scope Z_scope.

Lemma insertByTimestamp_perm (x : MatchRecord) (l : list MatchRecord) :
  Permutation (insertByTimestamp x l) (x :: l).
Proof.
  induction l as [| y l IH]; simpl; [reflexivity |].
  destruct (timestamp x - timestamp y <=? 0); [reflexivity |].
  rewrite IH. apply perm_swap.
Qed.

Lemma sortByTimestamp_perm (l : list MatchRecord) :
  Permutation (sortByTimestamp l) l.
Proof.
  induction l as [| x l IH]; simpl; [reflexivity |].
  rewrite insertByTimestamp_perm. constructor. exact IH.
Qed.

Lemma getCategory_setCategory (md : MatchData) (c c' : Category) (l : list MatchRecord) :
  getCategory (setCategory md c l) c' =
  if Category_eqb c c' then l else getCategory md c'.
Proof. destruct c, c'; reflexivity. Qed.

Lemma Category_eqb_refl (c : Category) : Category_eqb c c = true.
Proof. destruct c; reflexivity. Qed.

Lemma Category_eqb_neq (c c' : Category) : c' <> c -> Category_eqb c c' = false.
Proof. destruct c, c'; intros H; try reflexivity; congruence. Qed.

(** What [makeRecord] stores, whatever the globals and the timestamp. *)
Lemma rawPair_makeRecord (cat : Category) (n a b ts : Z) (s : State) :
  rawPair cat (makeRecord cat n a b ts s) = (a, b).
Proof. destruct cat; reflexivity. Qed.

Lemma matchNumber_makeRecord (cat : Category) (n a b ts : Z) (s : State) :
  matchNumber (makeRecord cat n a b ts s) = n.
Proof. destruct cat; reflexivity. Qed.

Lemma ingested_makeRecord (cat : Category) (n a b ts : Z) (s : State) :
  ingested cat (makeRecord cat n a b ts s) = (n, (a, b)).
Proof. destruct cat; reflexivity. Qed.

Lemma totalIsSum_makeRecord (cat : Category) (n a b ts : Z) (s : State) :
  totalIsSum (makeRecord cat n a b ts s).
Proof. unfold totalIsSum. destruct cat; simpl; lia. Qed.

Section Ingestion.
Variable clock : nat -> Z.
Variable cat : Category.

(** One call of [processMatchScore]: the category gains exactly the new
    record, the other categories are untouched. *)
Lemma processMatchScore_category (n a b ts : Z) (s : State) :
  exists ts',
    Permutation
      (getCategory (matchData (processMatchScore clock cat n a b ts s)) cat)
      (getCategory (matchData s) cat ++ [makeRecord cat n a b ts' s]).
Proof.
  unfold processMatchScore, Date_now.
  destruct (ts =? 0); simpl; eexists;
    rewrite getCategory_setCategory, Category_eqb_refl;
    apply sortByTimestamp_perm.
Qed.

Lemma processMatchScore_other (n a b ts : Z) (s : State) (c' : Category) :
  c' <> cat ->
  getCategory (matchData (processMatchScore clock cat n a b ts s)) c' =
  getCategory (matchData s) c'.
Proof.
  intros Hne. unfold processMatchScore, Date_now.
  destruct (ts =? 0); simpl;
    rewrite getCategory_setCategory, (Category_eqb_neq _ _ Hne); reflexivity.
Qed.

Lemma addLoop_ingested (scores1 scores2 : list (option Z)) (minLength : nat) :
  forall (steps i : nat) (s : State),
    Permutation
      (map (ingested cat)
         (getCategory (matchData (addLoop clock cat scores1 scores2 minLength steps i s)) cat))
      (map (ingested cat) (getCategory (matchData s) cat) ++
       map (fun j => (Z.of_nat j + 1, (scoreAt scores1 j, scoreAt scores2 j)))
         (seq i steps)).
Proof.
  induction steps as [| steps IH]; intros i s; simpl.
  - rewrite app_nil_r. reflexivity.
  - rewrite IH.
    match goal with
    | |- context [processMatchScore clock cat ?n ?a ?b ?ts ?s0] =>
      destruct (processMatchScore_category n a b ts s0) as [ts' Hp]
    end.
    rewrite (Permutation_map (ingested cat) Hp).
    rewrite map_app. cbn [map].
    rewrite ingested_makeRecord.
    rewrite <- app_assoc. reflexivity.
Qed.

Lemma addLoop_totalIsSum (scores1 scores2 : list (option Z)) (minLength : nat) :
  forall (steps i : nat) (s : State),
    Forall totalIsSum (getCategory (matchData s) cat) ->
    Forall totalIsSum
      (getCategory (matchData (addLoop clock cat scores1 scores2 minLength steps i s)) cat).
Proof.
  induction steps as [| steps IH]; intros i s H; simpl; [exact H |].
  apply IH.
  match goal with
  | |- context [processMatchScore clock cat ?n ?a ?b ?ts ?s0] =>
    destruct (processMatchScore_category n a b ts s0) as [ts' Hp]
  end.
  eapply Permutation_Forall; [symmetry; exact Hp |].
  apply Forall_app. split; [exact H |].
  constructor; [apply totalIsSum_makeRecord | constructor].
Qed.

Lemma addLoop_other (scores1 scores2 : list (option Z)) (minLength : nat)
    (c' : Category) :
  c' <> cat ->
  forall (steps i : nat) (s : State),
    getCategory (matchData (addLoop clock cat scores1 scores2 minLength steps i s)) c' =
    getCategory (matchData s) c'.
Proof.
  intros Hne. induction steps as [| steps IH]; intros i s; simpl; [reflexivity |].
  rewrite IH. rewrite processMatchScore_other by exact Hne. reflexivity.
Qed.

End Ingestion.

(** After validation every parsed score is a number. *)
Lemma validateScores_true (scores1 scores2 : list (option Z)) :
  validateScores scores1 scores2 = true ->
  existsb isNaN scores1 = false /\ existsb isNaN scores2 = false /\
  existsb isNegative scores1 = false /\ existsb isNegative scores2 = false /\
  scores1 <> [] /\ scores2 <> [].
Proof.
  unfold validateScores.
  destruct (existsb isNaN scores1); [discriminate |].
  destruct (existsb isNaN scores2); [discriminate |].
  destruct (existsb isNegative scores1); [discriminate |].
  destruct (existsb isNegative scores2); [discriminate |].
  destruct scores1; [discriminate |]. destruct scores2; [discriminate |].
  intros _. repeat split; discriminate.
Qed.

Lemma scoreAt_nth_error (scores : list (option Z)) (i : nat) :
  existsb isNaN scores = false -> (i < List.length scores)%nat ->
  nth_error scores i = Some (Some (scoreAt scores i)).
Proof.
  revert i. induction scores as [| x l IH]; intros i Hn Hi; simpl in *; [lia |].
  apply orb_false_iff in Hn. destruct Hn as [Hx Hl].
  destruct i as [| i].
  - unfold scoreAt; simpl. destruct x; [reflexivity | discriminate].
  - unfold scoreAt; simpl. apply (IH i Hl). lia.
Qed.

Lemma combine_scoreAt (scores1 scores2 : list (option Z)) :
  existsb isNaN scores1 = false -> existsb isNaN scores2 = false ->
  map (fun j => (Some (scoreAt scores1 j), Some (scoreAt scores2 j)))
    (seq 0 (Nat.min (List.length scores1) (List.length scores2))) =
  combine scores1 scores2.
Proof.
  revert scores2.
  induction scores1 as [| x l1 IH]; intros [| y l2] H1 H2; simpl in *;
    try reflexivity.
  apply orb_false_iff in H1. destruct H1 as [Hx H1].
  apply orb_false_iff in H2. destruct H2 as [Hy H2].
  destruct x as [a |]; [| discriminate]. destruct y as [b |]; [| discriminate].
  f_equal.
  rewrite <- seq_shift, map_map. rewrite <- (IH l2 H1 H2).
  apply map_ext. intros j. reflexivity.
Qed.

(** What the add handlers leave in the category. *)
Lemma handleAdd_ingested (clock : nat -> Z) (cat : Category)
    (scores1 scores2 : list (option Z)) (s : State) :
  validateScores scores1 scores2 = true ->
  Permutation
    (map (ingested cat)
       (getCategory (matchData (handleAdd clock cat scores1 scores2 s)) cat))
    (map (fun j => (Z.of_nat j + 1, (scoreAt scores1 j, scoreAt scores2 j)))
       (seq 0 (Nat.min (List.length scores1) (List.length scores2)))).
Proof.
  intros Hv. unfold handleAdd. rewrite Hv. cbn [negb].
  rewrite addLoop_ingested. cbn [matchData set_matchData].
  rewrite getCategory_setCategory, Category_eqb_refl. reflexivity.
Qed.

(** C6: for valid score arrays an add handler leaves exactly
    min(len1, len2) records in its category, built from the first
    min(len1, len2) pairs and from nothing of the prior sequence; every
    stored record's totalScore is the sum of its two scores; the other
    two categories are untouched. *)
Theorem C6_ingestion_truncates_and_sums (clock : nat -> Z) (cat : Category)
    (scores1 scores2 : list (option Z)) (s : State) :
  validateScores scores1 scores2 = true ->
  let stored := getCategory (matchData (handleAdd clock cat scores1 scores2 s)) cat in
  List.length stored = Nat.min (List.length scores1) (List.length scores2) /\
  Permutation (map (parsedPair cat) stored) (combine scores1 scores2) /\
  Forall totalIsSum stored /\
  (forall c', c' <> cat ->
     getCategory (matchData (handleAdd clock cat scores1 scores2 s)) c' =
     getCategory (matchData s) c').
Proof.
  intros Hv stored.
  pose proof (handleAdd_ingested clock cat scores1 scores2 s Hv) as Hp.
  fold stored in Hp.
  destruct (validateScores_true _ _ Hv) as (N1 & N2 & _).
  repeat split.
  - apply Permutation_length in Hp.
    rewrite !length_map, length_seq in Hp. exact Hp.
  - rewrite <- (combine_scoreAt scores1 scores2 N1 N2).
    apply (Permutation_map (fun x : Z * (Z * Z) => (Some (fst (snd x)), Some (snd (snd x))))) in Hp.
    rewrite !map_map in Hp. exact Hp.
  - unfold stored, handleAdd. rewrite Hv. cbn [negb].
    apply addLoop_totalIsSum. cbn [matchData set_matchData].
    rewrite getCategory_setCategory, Category_eqb_refl. constructor.
  - intros c' Hne. unfold handleAdd. rewrite Hv. cbn [negb].
    rewrite addLoop_other by exact Hne. cbn [matchData set_matchData].
    rewrite getCategory_setCategory, (Category_eqb_neq _ _ Hne). reflexivity.
Qed.

Lemma C6_witness :
  validateScores [Some 1; Some 2; Some 1] [Some 1; Some 2] = true /\
  List.length
    (h2h (matchData (handleH2HAdd (fun _ => 1700000000000)
                       [Some 1; Some 2; Some 1] [Some 1; Some 2] initialState)))
    = 2%nat /\
  Forall totalIsSum
    (h2h (matchData (handleH2HAdd (fun _ => 1700000000000)
                       [Some 1; Some 2; Some 1] [Some 1; Some 2] initialState))).
Proof.
  pose proof (C6_ingestion_truncates_and_sums (fun _ => 1700000000000) C_h2h
                [Some 1; Some 2; Some 1] [Some 1; Some 2] initialState eq_refl)
    as (Hlen & _ & Hsum & _).
  split; [reflexivity | split; [exact Hlen | exact Hsum]].
Defined.

(** Every record an add handler leaves in its category comes from one
    index of the two arrays. *)
Lemma handleAdd_stored_index (clock : nat -> Z) (cat : Category)
    (scores1 scores2 : list (option Z)) (s : State) (r : MatchRecord) :
  validateScores scores1 scores2 = true ->
  In r (getCategory (matchData (handleAdd clock cat scores1 scores2 s)) cat) ->
  exists i,
    matchNumber r = Z.of_nat i + 1 /\
    nth_error scores1 i = Some (Some (fst (rawPair cat r))) /\
    nth_error scores2 i = Some (Some (snd (rawPair cat r))).
Proof.
  intros Hv Hin.
  pose proof (handleAdd_ingested clock cat scores1 scores2 s Hv) as Hp.
  destruct (validateScores_true _ _ Hv) as (N1 & N2 & _).
  apply (in_map (ingested cat)) in Hin.
  apply (Permutation_in _ Hp) in Hin.
  apply in_map_iff in Hin. destruct Hin as (i & Hi & Hseq).
  apply in_seq in Hseq. unfold ingested in Hi.
  injection Hi as Hn Hpair. exists i. rewrite <- Hpair. cbn [fst snd].
  split; [symmetry; exact Hn |].
  split; apply scoreAt_nth_error; try assumption; lia.
Qed.

(** C8: the team2 clean-sheet check tests [team1Score === 0] in the h2h
    branch and in the other branch alike; and for every record that
    ingestion leaves in the h2h sequence (team1 is team2's opponent) and
    in the team2 sequence (the opponent's score array is the second
    argument), the check holds exactly when team2's opponent scored 0 in
    that match. *)
Theorem C8_team2_clean_sheet_check :
  (forall m : MatchRecord,
     team2CleanSheetCheck m = (team1Score m =? 0) /\
     (category m = C_h2h -> team2CleanSheetCheck m = (team1Score m =? 0)) /\
     (category m <> C_h2h -> team2CleanSheetCheck m = (team1Score m =? 0))) /\
  (forall (clock : nat -> Z) (team1Scores team2Scores : list (option Z)) (s : State),
     validateScores team1Scores team2Scores = true ->
     Forall (fun r =>
               exists i opponentScore,
                 nth_error team2Scores i = Some (Some (team2Score r)) /\
                 nth_error team1Scores i = Some (Some opponentScore) /\
                 (team2CleanSheetCheck r = true <-> opponentScore = 0))
       (h2h (matchData (handleH2HAdd clock team1Scores team2Scores s)))) /\
  (forall (clock : nat -> Z) (team2Scores opponentScores : list (option Z)) (s : State),
     validateScores team2Scores opponentScores = true ->
     Forall (fun r =>
               exists i opponentScore,
                 nth_error team2Scores i = Some (Some (team2Score r)) /\
                 nth_error opponentScores i = Some (Some opponentScore) /\
                 (team2CleanSheetCheck r = true <-> opponentScore = 0))
       (team2 (matchData (handleTeam2Add clock team2Scores opponentScores s)))).
Proof.
  assert (Hcheck : forall m, team2CleanSheetCheck m = (team1Score m =? 0)).
  { intros m. unfold team2CleanSheetCheck.
    destruct (Category_eqb (category m) C_h2h); reflexivity. }
  split; [intros m; repeat split; intros; apply Hcheck |].
  split.
  - intros clock team1Scores team2Scores s Hv.
    apply Forall_forall. intros r Hin.
    destruct (handleAdd_stored_index clock C_h2h team1Scores team2Scores s r Hv Hin)
      as (i & _ & H1 & H2).
    cbn [rawPair fst snd] in H1, H2.
    exists i, (team1Score r). repeat split; try assumption.
    + rewrite Hcheck. apply Z.eqb_eq.
    + rewrite Hcheck. apply Z.eqb_eq.
  - intros clock team2Scores opponentScores s Hv.
    apply Forall_forall. intros r Hin.
    destruct (handleAdd_stored_index clock C_team2 team2Scores opponentScores s r Hv Hin)
      as (i & _ & H1 & H2).
    cbn [rawPair fst snd] in H1, H2.
    exists i, (team1Score r). repeat split; try assumption.
    + rewrite Hcheck. apply Z.eqb_eq.
    + rewrite Hcheck. apply Z.eqb_eq.
Qed.

Lemma C8_witness :
  validateScores [Some 3; Some 2; Some 1] [Some 0; Some 0; Some 2] = true /\
  Forall (fun r =>
            exists i opponentScore,
              nth_error [Some 3; Some 2; Some 1] i = Some (Some (team2Score r)) /\
              nth_error [Some 0; Some 0; Some 2] i = Some (Some opponentScore) /\
              (team2CleanSheetCheck r = true <-> opponentScore = 0))
    (team2 (matchData (handleTeam2Add (fun _ => 1700000000000)
                         [Some 3; Some 2; Some 1] [Some 0; Some 0; Some 2]
                         initialState))).
Proof.
  split; [reflexivity |].
  apply (proj2 (proj2 C8_team2_clean_sheet_check)). reflexivity.
Defined.

End StoreFacts.

(** ** Analyze(): validation and repeated runs *)

Module PipelineFacts.
Import Store Pipeline.

(** The store is executable: the outcome labels and score slots of the
    sample head-to-head data. *)
Example sample_outcomes :
  map (fun m => (team1Score m, team2Score m, outcome m))
    (h2h (matchData (globals sampleHeadToHead))) =
  [(1, 1, "Draw"); (2, 2, "Draw"); (1, 0, "Liverpool Wins");
   (2, 1, "Liverpool Wins"); (0, 1, "Manchester City Wins")]%Z%string.
Proof. vm_compute. reflexivity. Qed.

Lemma validateInputs_no_data (c : bool) (s : State) :
  getTotalMatchCount s = 0%nat -> validateInputs c s = false.
Proof. intros H. unfold validateInputs. rewrite H. reflexivity. Qed.

Lemma validateInputs_empty_name (c : bool) (s : State) :
  trim (team1Name s) = ""%string \/ trim (team2Name s) = ""%string ->
  validateInputs c s = false.
Proof.
  intros H. unfold validateInputs.
  destruct (Nat.eqb (getTotalMatchCount s) 0); [reflexivity |].
  destruct H as [H | H]; rewrite H; cbn [String.eqb orb]; [reflexivity |].
  rewrite orb_true_r. reflexivity.
Qed.

Lemma validateInputs_same_name (c : bool) (s : State) :
  trim (team1Name s) = trim (team2Name s) -> validateInputs c s = false.
Proof.
  intros H. unfold validateInputs.
  destruct (Nat.eqb (getTotalMatchCount s) 0); [reflexivity |].
  destruct (_ || _); [reflexivity |].
  rewrite H, String.eqb_refl. reflexivity.
Qed.

Lemma rejected_of_invalid (c : bool) (a : AppState) :
  validateInputs c (globals a) = false -> analyzeRejected c a.
Proof.
  intros H. split; [exact H |]. unfold analyzeClick. rewrite H. reflexivity.
Qed.

(** C5: Analyze() is rejected, the state left as it was and no pipeline
    run, when no match is stored, or a team name is empty after
    trimming, or the trimmed names are equal; with rankings 4 and 2 and
    no scores entered, Analyze() is rejected. *)
Theorem C5_analyze_rejected :
  (forall (confirmAnswer : bool) (a : AppState),
     getTotalMatchCount (globals a) = 0%nat \/
     trim (team1Name (globals a)) = ""%string \/
     trim (team2Name (globals a)) = ""%string \/
     trim (team1Name (globals a)) = trim (team2Name (globals a)) ->
     analyzeRejected confirmAnswer a) /\
  (forall confirmAnswer : bool,
     team1Ranking (globals rankingsOnly) = 4%Z /\
     team2Ranking (globals rankingsOnly) = 2%Z /\
     getTotalMatchCount (globals rankingsOnly) = 0%nat /\
     analyzeRejected confirmAnswer rankingsOnly).
Proof.
  split.
  - intros c a [H | [H | [H | H]]]; apply rejected_of_invalid.
    + apply validateInputs_no_data, H.
    + apply validateInputs_empty_name; left; exact H.
    + apply validateInputs_empty_name; right; exact H.
    + apply validateInputs_same_name, H.
  - intros c. repeat split.
Qed.

Lemma C5_witness :
  trim (team1Name (globals sameNames)) = trim (team2Name (globals sameNames)) /\
  analyzeRejected true sameNames.
Proof.
  split; [reflexivity |].
  apply (proj1 C5_analyze_rejected true sameNames).
  right; right; right. reflexivity.
Defined.

(** [updateMatchLines] writes the two line-dependent flags from the
    scores and the lines only. *)
Lemma updateMatchLines_again (s s' : State) (m : MatchRecord) :
  totalLine s' = totalLine s -> pointSpread s' = pointSpread s ->
  spreadDirection s' = spreadDirection s ->
  updateMatchLines s' (updateMatchLines s m) = updateMatchLines s m.
Proof.
  intros Ht Hp Hd. unfold updateMatchLines, calculateSpreadCover; simpl.
  rewrite Ht, Hp, Hd. reflexivity.
Qed.

Lemma map_updateMatchLines_again (s s' : State) (l : list MatchRecord) :
  totalLine s' = totalLine s -> pointSpread s' = pointSpread s ->
  spreadDirection s' = spreadDirection s ->
  map (updateMatchLines s') (map (updateMatchLines s) l) =
  map (updateMatchLines s) l.
Proof.
  intros Ht Hp Hd. rewrite map_map. apply map_ext. intros m.
  apply updateMatchLines_again; assumption.
Qed.

(** Reading the same form fields and refreshing the flags twice is the
    same as doing it once. *)
Lemma processAllMatchData_idempotent (a : AppState) :
  processAllMatchData (processAllMatchData a) = processAllMatchData a.
Proof.
  unfold processAllMatchData, updateSpreadCoverCalculations, set_globals,
    set_lines, set_matchData; simpl.
  do 2 f_equal. f_equal; apply map_updateMatchLines_again; reflexivity.
Qed.

Lemma performAnalysis_frame (a : AppState) :
  globals (performAnalysis a) = globals a /\
  bettingLineField (performAnalysis a) = bettingLineField a /\
  pointSpreadField (performAnalysis a) = pointSpreadField a /\
  spreadDirectionField (performAnalysis a) = spreadDirectionField a.
Proof.
  unfold performAnalysis.
  destruct (Nat.eqb (getTotalMatchCount (globals a)) 0); repeat split.
Qed.

Lemma processAllMatchData_count (a : AppState) :
  getTotalMatchCount (globals (processAllMatchData a)) =
  getTotalMatchCount (globals a).
Proof.
  unfold processAllMatchData, getTotalMatchCount; simpl.
  rewrite !length_map. reflexivity.
Qed.

Lemma processAllMatchData_validate (c : bool) (a : AppState) :
  validateInputs c (globals (processAllMatchData a)) =
  validateInputs c (globals a).
Proof.
  unfold validateInputs. rewrite processAllMatchData_count. reflexivity.
Qed.

(** Only [globals] and the three form fields matter to
    [processAllMatchData] followed by [performAnalysis]. *)
Lemma pipeline_reads (a b : AppState) :
  globals a = globals b ->
  bettingLineField a = bettingLineField b ->
  pointSpreadField a = pointSpreadField b ->
  spreadDirectionField a = spreadDirectionField b ->
  getTotalMatchCount (globals a) <> 0%nat ->
  performAnalysis (processAllMatchData a) = performAnalysis (processAllMatchData b).
Proof.
  intros Hg H1 H2 H3 Hc.
  assert (Hcb : getTotalMatchCount (globals b) <> 0%nat) by (rewrite <- Hg; exact Hc).
  unfold performAnalysis.
  rewrite !processAllMatchData_count.
  apply Nat.eqb_neq in Hc. apply Nat.eqb_neq in Hcb. rewrite Hc, Hcb.
  unfold processAllMatchData, set_globals; cbn [globals bettingLineField
    pointSpreadField spreadDirectionField].
  rewrite Hg, H1, H2, H3. reflexivity.
Qed.

(** Running the pipeline on its own output reproduces that output. *)
Lemma pipeline_idempotent (a : AppState) :
  getTotalMatchCount (globals a) <> 0%nat ->
  performAnalysis (processAllMatchData (performAnalysis (processAllMatchData a))) =
  performAnalysis (processAllMatchData a).
Proof.
  intros Hc.
  destruct (performAnalysis_frame (processAllMatchData a)) as (Hg & H1 & H2 & H3).
  rewrite <- (processAllMatchData_idempotent a) at 2.
  apply pipeline_reads; try assumption.
  rewrite Hg, processAllMatchData_count. exact Hc.
Qed.

Lemma validateInputs_count (c : bool) (s : State) :
  validateInputs c s = true -> getTotalMatchCount s <> 0%nat.
Proof.
  unfold validateInputs. intros H E. rewrite E in H. discriminate.
Qed.

(** C9: when Analyze() has produced a result, calling it again with no
    ingestion or configuration change in between leaves the very same
    AnalysisResult (probabilities, projectedTotal, projectedMargin,
    features): the result is a function of the store and the
    configuration, and the pipeline changes neither. *)
Theorem C9_analyze_twice_same_result (c1 c2 : bool) (a : AppState) :
  validateInputs c1 (globals a) = true ->
  let a1 := analyzeClick c1 a in
  let a2 := analyzeClick c2 a1 in
  lastAnalysisResults a1 = Some (analysisResult (globals a1)) /\
  validateInputs c2 (globals a1) = validateInputs c2 (globals a) /\
  performAnalysis (processAllMatchData a1) = a1 /\
  a2 = a1 /\
  lastAnalysisResults a2 = lastAnalysisResults a1 /\
  (forall n : nat,
     analysisResult (set_ticks (globals a1) n) = analysisResult (globals a1)).
Proof.
  intros Hv a1 a2.
  pose proof (validateInputs_count _ _ Hv) as Hc.
  assert (E1 : a1 = performAnalysis (processAllMatchData a)).
  { unfold a1, analyzeClick. rewrite Hv. reflexivity. }
  assert (Hre : performAnalysis (processAllMatchData a1) = a1).
  { rewrite E1. apply pipeline_idempotent, Hc. }
  assert (E2 : a2 = a1).
  { unfold a2, analyzeClick.
    destruct (validateInputs c2 (globals a1)); cbn [negb]; [exact Hre | reflexivity]. }
  repeat split.
  - rewrite E1. unfold performAnalysis.
    rewrite processAllMatchData_count.
    apply Nat.eqb_neq in Hc. rewrite Hc. reflexivity.
  - rewrite E1.
    destruct (performAnalysis_frame (processAllMatchData a)) as (Hg & _).
    rewrite Hg. apply processAllMatchData_validate.
  - exact Hre.
  - exact E2.
  - rewrite E2. reflexivity.
Qed.

Lemma C9_witness :
  validateInputs true (globals sampleHeadToHead) = true /\
  analyzeClick true (analyzeClick true sampleHeadToHead) =
  analyzeClick true sampleHeadToHead.
Proof.
  split; [reflexivity |].
  pose proof (C9_analyze_twice_same_result true true sampleHeadToHead eq_refl) as H.
  cbv zeta in H. destruct H as (_ & _ & _ & H & _). exact H.
Defined.

End PipelineFacts.

(** ** A store on which the 5% floor does not survive *)

Module ShutoutExample.
Import Store Pipeline.
Local Open Scope R_scope.

(** Evaluation of the integer, string and list parts of a goal. *)
Ltac vm_term t := let x := eval vm_compute in t in change t with x.

Ltac vm_step :=
  match goal with
  | |- context [sortBy ?c ?l] => vm_term (sortBy c l)
  | |- context [countIf ?c ?l] => vm_term (countIf c l)
  | |- context [lastN ?n ?l] => vm_term (lastN n l)
  | |- context [String.eqb ?a ?b] => vm_term (String.eqb a b)
  | |- context [Nat.eqb ?a ?b] => vm_term (Nat.eqb a b)
  | |- context [Nat.ltb ?a ?b] => vm_term (Nat.ltb a b)
  | |- context [Nat.leb ?a ?b] => vm_term (Nat.leb a b)
  | |- context [Z.eqb ?a ?b] => vm_term (Z.eqb a b)
  | |- context [Z.leb ?a ?b] => vm_term (Z.leb a b)
  | |- context [Z.gtb ?a ?b] => vm_term (Z.gtb a b)
  | |- context [@List.length ?A ?l] => vm_term (@List.length A l)
  | |- context [Nat.min ?a ?b] => vm_term (Nat.min a b)
  | |- context [Nat.add ?a ?b] => vm_term (Nat.add a b)
  | |- context [Nat.sub ?a ?b] => vm_term (Nat.sub a b)
  end.

Ltac vm_data := repeat vm_step; cbv beta iota.

Ltac sums := unfold sumBy, sumFrom; cbn [fold_left INR].

Ltac zero_over :=
  match goal with
  | |- ?n / ?d = 0 => replace n with 0 by lra; unfold Rdiv; apply Rmult_0_l
  end.

Lemma shutoutStore_value : shutoutStore = shutoutStoreValue.
Proof. vm_compute. reflexivity. Qed.

Lemma shutout_processed :
  globals (processAllMatchData shutoutPage) = shutoutStoreValue.
Proof. vm_compute. reflexivity. Qed.

(** Team1 lost all four matches without scoring: form 0. *)
Lemma shutout_form1 : calculateRecentForm shutoutStoreValue "Team 1" true = 0.
Proof.
  unfold calculateRecentForm.
  vm_data. cbn [firstn weightedLoop].
  unfold formMatchScore. cbn [fm_win fm_draw fm_lose fm_score fm_opponentScore].
  vm_data. zero_over.
Qed.

(** Team2 won all four 3-0: 3 + 0.45 + 0.4 per match, out of 4. *)
Lemma shutout_form2 : calculateRecentForm shutoutStoreValue "Team 2" false = 385 / 400.
Proof.
  unfold calculateRecentForm.
  vm_data. cbn [firstn weightedLoop].
  unfold formMatchScore. cbn [fm_win fm_draw fm_lose fm_score fm_opponentScore].
  vm_data. vm_term (3 - 0)%Z.
  rewrite Rmin_right by lra. field.
Qed.

Lemma shutout_h2hAdvantage : calculateH2HAdvantage shutoutStoreValue = -1.
Proof.
  unfold calculateH2HAdvantage.
  vm_data. cbn [weightedLoop outcome].
  unfold team1WinString, team2WinString. cbn [team1Name team2Name shutoutStoreValue].
  vm_data.
  set (w0 := exp _). set (w1 := exp _). set (w2 := exp _). set (w3 := exp _).
  assert (0 < w0 /\ 0 < w1 /\ 0 < w2 /\ 0 < w3) as (P0 & P1 & P2 & P3)
    by (repeat split; apply exp_pos).
  destruct (Rlt_dec 0 (0 + w0 + w1 + w2 + w3)); [| lra].
  cbn [INR]. field. lra.
Qed.

Lemma shutout_momentum1 : calculateMomentumIndex shutoutStoreValue "Team 1" true = 0.
Proof.
  unfold calculateMomentumIndex.
  vm_data. sums. cbn [tm_score tm_opponentScore].
  replace ((0 + 0 + 0 + 0) / (1 + 1 + 1) - (0 + 0 + 0 + 0 + 0) / (1 + 1 + 1 + 1))
    with 0 by lra.
  unfold Rdiv at 1. rewrite Rmult_0_l.
  rewrite Rmin_right by lra. rewrite Rmax_right by lra. lra.
Qed.

Lemma shutout_momentum2 : calculateMomentumIndex shutoutStoreValue "Team 2" false = 0.
Proof.
  unfold calculateMomentumIndex.
  vm_data. sums. cbn [tm_score tm_opponentScore].
  replace ((0 + 3 + 3 + 3) / (1 + 1 + 1) - (0 + 3 + 3 + 3 + 3) / (1 + 1 + 1 + 1))
    with 0 by lra.
  unfold Rdiv at 1. rewrite Rmult_0_l.
  rewrite Rmin_right by lra. rewrite Rmax_right by lra. lra.
Qed.

Lemma shutout_avgScored1 :
  calculateOverallTeamAverage shutoutStoreValue "Team 1" true = 0.
Proof.
  unfold calculateOverallTeamAverage.
  cbn [matchData shutoutStoreValue h2h getCategory team1 team2].
  vm_data. sums. cbn [team1Score team2Score]. lra.
Qed.

Lemma shutout_avgScored2 :
  calculateOverallTeamAverage shutoutStoreValue "Team 2" false = 3.
Proof.
  unfold calculateOverallTeamAverage.
  cbn [matchData shutoutStoreValue h2h getCategory team1 team2].
  vm_data. sums. cbn [team1Score team2Score]. lra.
Qed.

Lemma shutout_avgConceded1 :
  calculateTeamAverageConceded shutoutStoreValue "Team 1" true = 3.
Proof.
  unfold calculateTeamAverageConceded.
  cbn [matchData shutoutStoreValue h2h getCategory team1 team2].
  vm_data. sums. cbn [team1Score team2Score]. lra.
Qed.

Lemma shutout_avgConceded2 :
  calculateTeamAverageConceded shutoutStoreValue "Team 2" false = 0.
Proof.
  unfold calculateTeamAverageConceded.
  cbn [matchData shutoutStoreValue h2h getCategory team1 team2].
  vm_data. sums. cbn [team1Score team2Score]. lra.
Qed.

Lemma shutout_attack1 : calculateAttackStrength shutoutStoreValue "Team 1" true = 0.
Proof.
  unfold calculateAttackStrength. rewrite shutout_avgScored1.
  unfold Rdiv at 1. rewrite !Rmult_0_l. reflexivity.
Qed.

Lemma shutout_defense2 : calculateDefenseStrength shutoutStoreValue "Team 2" false = 0.
Proof.
  unfold calculateDefenseStrength. rewrite shutout_avgConceded2.
  unfold Rdiv at 1. rewrite !Rmult_0_l. reflexivity.
Qed.

Lemma shutout_attack2_defense1 :
  calculateAttackStrength shutoutStoreValue "Team 2" false =
  calculateDefenseStrength shutoutStoreValue "Team 1" true.
Proof.
  unfold calculateAttackStrength, calculateDefenseStrength.
  rewrite shutout_avgScored2, shutout_avgConceded1.
  cbn [matchData shutoutStoreValue h2h getCategory team1 team2].
  vm_data. reflexivity.
Qed.

Lemma Q2R_one : Q2R 1 = 1.
Proof. unfold Q2R; simpl. lra. Qed.

Lemma shutout_normalizedAdvantage :
  Model.normalizedAdvantage (prepareMatchFeatures shutoutStoreValue) = -3.
Proof.
  unfold Model.normalizedAdvantage.
  rewrite ModelFacts.advantageCoefficient_plain.
  - unfold Model.attackDifference, prepareMatchFeatures.
    cbn [Model.basicStats Model.advancedStats Model.team1AttackStrength
         Model.team2AttackStrength Model.team1DefenseStrength
         Model.team2DefenseStrength Model.team1RecentForm Model.team2RecentForm
         Model.h2hAdvantage Model.team1MomentumIndex Model.team2MomentumIndex].
    change (team1Name shutoutStoreValue) with "Team 1"%string.
    change (team2Name shutoutStoreValue) with "Team 2"%string.
    rewrite shutout_attack1, shutout_defense2, shutout_attack2_defense1,
      shutout_form1, shutout_form2, shutout_h2hAdvantage,
      shutout_momentum1, shutout_momentum2.
    unfold Model.WEIGHTS.OVERALL_PERFORMANCE, Model.WEIGHTS.RECENT_FORM,
      Model.WEIGHTS.H2H_MATCHES, Model.WEIGHTS.MOMENTUM.
    rewrite Rmin_right by lra. rewrite Rmax_left by lra. reflexivity.
  - unfold prepareMatchFeatures. cbn [Model.basicStats Model.locationFactor].
    vm_data. reflexivity.
  - unfold prepareMatchFeatures. cbn [Model.basicStats Model.matchImportance].
    change (matchImportance shutoutStoreValue) with 1%Q. apply Q2R_one.
  - unfold prepareMatchFeatures. cbn [Model.basicStats Model.rankingDiff].
    vm_data. reflexivity.
Qed.

Lemma shutout_dataSufficiency :
  Model.dataSufficiency (Model.dataQuality (prepareMatchFeatures shutoutStoreValue))
  = true.
Proof.
  unfold prepareMatchFeatures. cbn [Model.dataQuality Model.dataSufficiency].
  vm_term (getTotalMatchCount shutoutStoreValue). reflexivity.
Qed.

(** C1 (the code departs from the claim): with four head-to-head matches
    stored, each lost 0-3 by team1, Analyze() is accepted and stores the
    probabilities returned by [calculateModelV1WinProbabilities]; the
    function floors team1WinProb at 5 and then divides by a total above
    100, so the team1WinProb it returns is below 5. *)
Theorem C1_floor_not_kept_after_renormalize :
  validateInputs false (globals shutoutPage) = true /\
  exists result : AnalysisResult,
    lastAnalysisResults (analyzeClick false shutoutPage) = Some result /\
    probabilities result =
      Model.calculateModelV1WinProbabilities (features result) /\
    Model.team1WinProb (Model.stageFloored (features result)) = 5 /\
    Model.team1WinProb (probabilities result) < 5.
Proof.
  assert (Hv : validateInputs false (globals shutoutPage) = true)
    by (vm_compute; reflexivity).
  split; [exact Hv |].
  exists (analysisResult shutoutStoreValue).
  assert (Hp : probabilities (analysisResult shutoutStoreValue) =
               Model.calculateModelV1WinProbabilities
                 (prepareMatchFeatures shutoutStoreValue)).
  { unfold analysisResult.
    pose proof (ModelFacts.ensurePredictionConsistency_fst
                  (Model.calculateModelV1WinProbabilities
                     (prepareMatchFeatures shutoutStoreValue))
                  (calculateModelV1ProjectedMargin shutoutStoreValue
                     (prepareMatchFeatures shutoutStoreValue))) as H.
    destruct (Model.ensurePredictionConsistency _ _) as [p m].
    cbn [probabilities]. exact H. }
  assert (Hf : features (analysisResult shutoutStoreValue) =
               prepareMatchFeatures shutoutStoreValue).
  { unfold analysisResult.
    destruct (Model.ensurePredictionConsistency _ _) as [p m]. reflexivity. }
  pose proof (ModelFacts.floor_lost_at_full_disadvantage _
                shutout_dataSufficiency shutout_normalizedAdvantage) as Hlt.
  split; [| split; [| split]].
  - unfold analyzeClick. rewrite Hv. cbn [negb].
    unfold performAnalysis. rewrite shutout_processed.
    vm_term (getTotalMatchCount shutoutStoreValue). reflexivity.
  - rewrite Hp, Hf. reflexivity.
  - rewrite Hf. unfold Model.stageFloored, Model.floorAt5.
    cbn [Model.team1WinProb]. apply Rmax_left.
    pose proof (ModelFacts.floor_below_5 _
                  shutout_dataSufficiency shutout_normalizedAdvantage). lra.
  - rewrite Hp. exact Hlt.
Qed.

End ShutoutExample.

(** * Further properties of the code *)

(** ** Range, order and symmetry of the win probabilities *)

Module ModelExtras.
Import Model Presentation.
Local Open Scope R_scope.

Lemma logistic_denominator (a : R) : 1 < 1 + exp (- a).
Proof. pose proof (exp_pos (- a)). lra. Qed.

Lemma baseProbTotal_range (f : Features) : 55 <= baseProbTotal f <= 95.
Proof.
  unfold baseProbTotal. pose proof (ModelFacts.drawProbClamped_range f). lra.
Qed.

Lemma baseTeam1WinProb_range (f : Features) :
  0 < baseTeam1WinProb f < baseProbTotal f.
Proof.
  pose proof (baseProbTotal_range f) as [B1 B2].
  pose proof (logistic_denominator (normalizedAdvantage f)) as D.
  unfold baseTeam1WinProb. split.
  - apply Rdiv_lt_0_compat; lra.
  - apply Rmult_lt_reg_r with (1 + exp (- normalizedAdvantage f)); [lra |].
    replace (baseProbTotal f / (1 + exp (- normalizedAdvantage f)) *
             (1 + exp (- normalizedAdvantage f)))
      with (baseProbTotal f) by (field; lra).
    nra.
Qed.

Lemma baseTeam2WinProb_range (f : Features) :
  0 < baseTeam2WinProb f < baseProbTotal f.
Proof.
  pose proof (baseTeam1WinProb_range f). unfold baseTeam2WinProb. lra.
Qed.

(** A triple that sums to 100 and has no entry below 5 is returned as it
    is by the floor and the final normalization. *)
Lemma floor_and_normalize_fixed (p : Probabilities) :
  probSum p = 100 ->
  5 <= team1WinProb p -> 5 <= team2WinProb p -> 5 <= drawProb p ->
  normalizeTo100 (floorAt5 p) = p.
Proof.
  intros Hs H1 H2 H3. destruct p as [a b c]. unfold probSum in Hs. simpl in *.
  unfold floorAt5, normalizeTo100. cbn [team1WinProb team2WinProb drawProb].
  rewrite !Rmax_right by assumption. rewrite Hs.
  f_equal; field.
Qed.

Lemma normalized_component (x total : R) :
  0 < total -> x / total * 100 = 100 * x / total.
Proof. intros H. field. lra. Qed.

(** The triple before the floor, in the two data regimes. *)
Lemma stageBlended_sufficient (f : Features) :
  dataSufficiency (dataQuality f) = true ->
  stageBlended f =
  {| team1WinProb := baseTeam1WinProb f;
     team2WinProb := baseTeam2WinProb f;
     drawProb := drawProbClamped f |}.
Proof.
  intros H. unfold stageBlended. rewrite H. cbn [negb].
  apply ModelFacts.stageNormalized_eq.
Qed.

Lemma stageBlended_insufficient (f : Features) :
  dataSufficiency (dataQuality f) = false ->
  stageBlended f =
  {| team1WinProb := baseTeam1WinProb f * (1 - 3 / 10) + 40 * (3 / 10);
     team2WinProb := baseTeam2WinProb f * (1 - 3 / 10) + 40 * (3 / 10);
     drawProb := drawProbClamped f * (1 - 3 / 10) + 20 * (3 / 10) |}.
Proof.
  intros H. unfold stageBlended. rewrite H. cbn [negb].
  rewrite ModelFacts.stageNormalized_eq. reflexivity.
Qed.

(** Before the floor the draw share is never below 5 and the two win
    shares are positive and together at least 55. *)
Lemma stageBlended_shape (f : Features) :
  0 < team1WinProb (stageBlended f) /\
  0 < team2WinProb (stageBlended f) /\
  5 <= drawProb (stageBlended f) /\
  55 <= team1WinProb (stageBlended f) + team2WinProb (stageBlended f).
Proof.
  pose proof (baseTeam1WinProb_range f) as [A1 A2].
  pose proof (baseTeam2WinProb_range f) as [B1 B2].
  pose proof (ModelFacts.drawProbClamped_range f) as [D1 D2].
  assert (S : baseTeam1WinProb f + baseTeam2WinProb f = 100 - drawProbClamped f)
    by (unfold baseTeam2WinProb, baseProbTotal; lra).
  destruct (dataSufficiency (dataQuality f)) eqn:E.
  - rewrite (stageBlended_sufficient f E). cbn [team1WinProb team2WinProb drawProb].
    repeat split; lra.
  - rewrite (stageBlended_insufficient f E). cbn [team1WinProb team2WinProb drawProb].
    repeat split; lra.
Qed.

(** The total after the floor stays below 105: at most one share was
    raised, and by less than 5. *)
Lemma stageFloored_total (f : Features) :
  100 <= probSum (stageFloored f) < 105.
Proof.
  pose proof (stageBlended_shape f) as (P1 & P2 & P3 & P4).
  pose proof (ModelFacts.probSum_stageBlended f) as S.
  unfold stageFloored, floorAt5, probSum in *.
  cbn [team1WinProb team2WinProb drawProb].
  rewrite (Rmax_right 5 (drawProb (stageBlended f))) by lra.
  unfold Rmax.
  destruct (Rle_dec 5 (team1WinProb (stageBlended f)));
    destruct (Rle_dec 5 (team2WinProb (stageBlended f))); lra.
Qed.

(** X1: whatever the feature snapshot, each of the three returned
    probabilities is above 100/21 (about 4.76; the floor of 5 is applied
    before the last division, and the total it divides by stays below
    105), and the returned draw probability is at most 45. *)
Theorem win_probabilities_above_100_over_21 (f : Features) :
  100 / 21 < team1WinProb (calculateModelV1WinProbabilities f) /\
  100 / 21 < team2WinProb (calculateModelV1WinProbabilities f) /\
  100 / 21 < drawProb (calculateModelV1WinProbabilities f) /\
  drawProb (calculateModelV1WinProbabilities f) <= 45.
Proof.
  pose proof (stageFloored_total f) as [T1 T2].
  pose proof (stageBlended_shape f) as (P1 & P2 & P3 & P4).
  pose proof (ModelFacts.probSum_stageBlended f) as S.
  unfold calculateModelV1WinProbabilities, normalizeTo100.
  fold (probSum (stageFloored f)).
  set (T := probSum (stageFloored f)) in *.
  cbn [team1WinProb team2WinProb drawProb].
  assert (G : forall x, 5 <= x -> 100 / 21 < x / T * 100).
  { intros x Hx. rewrite normalized_component by lra.
    apply Rmult_lt_reg_r with T; [lra |].
    replace (100 * x / T * T) with (100 * x) by (field; lra). lra. }
  assert (F1 : 5 <= team1WinProb (stageFloored f)) by apply Rmax_l.
  assert (F2 : 5 <= team2WinProb (stageFloored f)) by apply Rmax_l.
  assert (F3 : 5 <= drawProb (stageFloored f)) by apply Rmax_l.
  repeat split; try (apply G; assumption).
  assert (D : drawProb (stageFloored f) <= 45).
  { unfold stageFloored, floorAt5. cbn [drawProb].
    rewrite Rmax_right by lra.
    pose proof (ModelFacts.drawProbClamped_range f) as [D1 D2].
    destruct (dataSufficiency (dataQuality f)) eqn:E.
    - rewrite (stageBlended_sufficient f E). cbn [drawProb]. lra.
    - rewrite (stageBlended_insufficient f E). cbn [drawProb]. lra. }
  rewrite normalized_component by lra.
  apply Rmult_le_reg_r with T; [lra |].
  replace (100 * drawProb (stageFloored f) / T * T)
    with (100 * drawProb (stageFloored f)) by (field; lra).
  nra.
Qed.

(** X2: with insufficient data (fewer than four matches) the floor never
    applies: the function returns the 70/30 blend of the logistic split
    with the prior (40, 40, 20) unchanged, each win probability lies
    strictly between 12 and 78.5 and the draw probability between 9.5
    and 37.5. *)
Theorem insufficient_data_blend_returned (f : Features) :
  dataSufficiency (dataQuality f) = false ->
  calculateModelV1WinProbabilities f =
    {| team1WinProb := (7 / 10) * baseTeam1WinProb f + 12;
       team2WinProb := (7 / 10) * baseTeam2WinProb f + 12;
       drawProb := (7 / 10) * drawProbClamped f + 6 |} /\
  12 < team1WinProb (calculateModelV1WinProbabilities f) < 785 / 10 /\
  12 < team2WinProb (calculateModelV1WinProbabilities f) < 785 / 10 /\
  95 / 10 <= drawProb (calculateModelV1WinProbabilities f) <= 375 / 10.
Proof.
  intros E.
  pose proof (baseTeam1WinProb_range f) as [A1 A2].
  pose proof (baseTeam2WinProb_range f) as [B1 B2].
  pose proof (baseProbTotal_range f) as [T1 T2].
  pose proof (ModelFacts.drawProbClamped_range f) as [D1 D2].
  assert (H : calculateModelV1WinProbabilities f =
              {| team1WinProb := (7 / 10) * baseTeam1WinProb f + 12;
                 team2WinProb := (7 / 10) * baseTeam2WinProb f + 12;
                 drawProb := (7 / 10) * drawProbClamped f + 6 |}).
  { unfold calculateModelV1WinProbabilities, stageFloored.
    pose proof (ModelFacts.probSum_stageBlended f) as S.
    rewrite (stageBlended_insufficient f E) in *.
    rewrite floor_and_normalize_fixed;
      cbn [team1WinProb team2WinProb drawProb]; try lra; try exact S.
    f_equal; lra. }
  rewrite H. cbn [team1WinProb team2WinProb drawProb].
  repeat split; lra.
Qed.

Lemma insufficient_data_blend_witness :
  dataSufficiency (dataQuality (formSnapshot (8 / 10) (2 / 10) false)) = false /\
  12 < team1WinProb
         (calculateModelV1WinProbabilities (formSnapshot (8 / 10) (2 / 10) false))
     < 785 / 10.
Proof.
  split; [reflexivity |].
  exact (proj1 (proj2 (insufficient_data_blend_returned
                         (formSnapshot (8 / 10) (2 / 10) false) eq_refl))).
Defined.

(** The clamped advantage of two teams that differ in form only. *)
Lemma formSnapshot_advantage (form1 form2 : R) (b : bool) :
  normalizedAdvantage (formSnapshot form1 form2 b) =
  Rmax (-3) (Rmin 3 ((form1 - form2) * (28 / 10))).
Proof.
  unfold normalizedAdvantage.
  rewrite ModelFacts.advantageCoefficient_plain by reflexivity.
  unfold attackDifference, WEIGHTS.OVERALL_PERFORMANCE, WEIGHTS.RECENT_FORM,
    WEIGHTS.H2H_MATCHES, WEIGHTS.MOMENTUM.
  cbn [formSnapshot basicStats advancedStats team1AttackStrength
       team2AttackStrength team1DefenseStrength team2DefenseStrength
       team1RecentForm team2RecentForm h2hAdvantage team1MomentumIndex
       team2MomentumIndex].
  do 2 f_equal. lra.
Qed.

(** X3: with sufficient data, the returned probabilities are exactly the
    logistic split and the clamped draw probability if and only if
    neither win share of the split is below 5; and exactly in that case
    are all three returned probabilities at least 5. *)
Theorem floor_kept_iff_no_share_below_5 (f : Features) :
  dataSufficiency (dataQuality f) = true ->
  ((5 <= baseTeam1WinProb f /\ 5 <= baseTeam2WinProb f) <->
   calculateModelV1WinProbabilities f =
     {| team1WinProb := baseTeam1WinProb f;
        team2WinProb := baseTeam2WinProb f;
        drawProb := drawProbClamped f |}) /\
  ((5 <= baseTeam1WinProb f /\ 5 <= baseTeam2WinProb f) <->
   (5 <= team1WinProb (calculateModelV1WinProbabilities f) /\
    5 <= team2WinProb (calculateModelV1WinProbabilities f) /\
    5 <= drawProb (calculateModelV1WinProbabilities f))).
Proof.
  intros E.
  pose proof (ModelFacts.drawProbClamped_range f) as [D1 D2].
  pose proof (baseTeam1WinProb_range f) as [A1 A2].
  pose proof (baseTeam2WinProb_range f) as [B1 B2].
  assert (S : baseTeam1WinProb f + baseTeam2WinProb f = 100 - drawProbClamped f)
    by (unfold baseTeam2WinProb, baseProbTotal; lra).
  assert (Fix : 5 <= baseTeam1WinProb f -> 5 <= baseTeam2WinProb f ->
                calculateModelV1WinProbabilities f =
                {| team1WinProb := baseTeam1WinProb f;
                   team2WinProb := baseTeam2WinProb f;
                   drawProb := drawProbClamped f |}).
  { intros H1 H2. unfold calculateModelV1WinProbabilities, stageFloored.
    rewrite (stageBlended_sufficient f E).
    apply floor_and_normalize_fixed;
      unfold probSum; cbn [team1WinProb team2WinProb drawProb]; lra. }
  (* a share below 5 comes back as 500 / (105 - share) *)
  assert (Ex1 : baseTeam1WinProb f < 5 ->
                team1WinProb (calculateModelV1WinProbabilities f) =
                500 / (105 - baseTeam1WinProb f)).
  { intros H.
    unfold calculateModelV1WinProbabilities, stageFloored.
    rewrite (stageBlended_sufficient f E).
    unfold normalizeTo100, floorAt5. cbn [team1WinProb team2WinProb drawProb].
    rewrite (Rmax_left 5 (baseTeam1WinProb f)) by lra.
    rewrite (Rmax_right 5 (baseTeam2WinProb f)) by lra.
    rewrite (Rmax_right 5 (drawProbClamped f)) by lra.
    replace (5 + baseTeam2WinProb f + drawProbClamped f)
      with (105 - baseTeam1WinProb f) by lra.
    field. lra. }
  assert (Ex2 : baseTeam2WinProb f < 5 ->
                team2WinProb (calculateModelV1WinProbabilities f) =
                500 / (105 - baseTeam2WinProb f)).
  { intros H.
    unfold calculateModelV1WinProbabilities, stageFloored.
    rewrite (stageBlended_sufficient f E).
    unfold normalizeTo100, floorAt5. cbn [team1WinProb team2WinProb drawProb].
    rewrite (Rmax_right 5 (baseTeam1WinProb f)) by lra.
    rewrite (Rmax_left 5 (baseTeam2WinProb f)) by lra.
    rewrite (Rmax_right 5 (drawProbClamped f)) by lra.
    replace (baseTeam1WinProb f + 5 + drawProbClamped f)
      with (105 - baseTeam2WinProb f) by lra.
    field. lra. }
  assert (Q : forall x, 0 < x < 5 -> x < 500 / (105 - x) < 5).
  { intros x [X1 X2]. split.
    - apply Rmult_lt_reg_r with (105 - x); [lra |].
      replace (500 / (105 - x) * (105 - x)) with 500 by (field; lra). nra.
    - apply Rmult_lt_reg_r with (105 - x); [lra |].
      replace (500 / (105 - x) * (105 - x)) with 500 by (field; lra). nra. }
  split; split.
  - intros [H1 H2]. apply Fix; assumption.
  - intros H. split.
    + destruct (Rle_dec 5 (baseTeam1WinProb f)) as [| N]; [assumption |].
      exfalso. assert (L : baseTeam1WinProb f < 5) by lra.
      pose proof (Ex1 L) as X. rewrite H in X. cbn [team1WinProb] in X.
      pose proof (Q (baseTeam1WinProb f) (conj A1 L)). nra.
    + destruct (Rle_dec 5 (baseTeam2WinProb f)) as [| N]; [assumption |].
      exfalso. assert (L : baseTeam2WinProb f < 5) by lra.
      pose proof (Ex2 L) as X. rewrite H in X. cbn [team2WinProb] in X.
      pose proof (Q (baseTeam2WinProb f) (conj B1 L)). nra.
  - intros [H1 H2]. rewrite (Fix H1 H2). cbn [team1WinProb team2WinProb drawProb].
    repeat split; lra.
  - intros (H1 & H2 & _). split.
    + destruct (Rle_dec 5 (baseTeam1WinProb f)) as [| N]; [assumption |].
      exfalso. assert (L : baseTeam1WinProb f < 5) by lra.
      pose proof (Ex1 L) as X.
      pose proof (Q (baseTeam1WinProb f) (conj A1 L)). lra.
    + destruct (Rle_dec 5 (baseTeam2WinProb f)) as [| N]; [assumption |].
      exfalso. assert (L : baseTeam2WinProb f < 5) by lra.
      pose proof (Ex2 L) as X.
      pose proof (Q (baseTeam2WinProb f) (conj B1 L)). lra.
Qed.

Lemma floor_kept_witness :
  dataSufficiency (dataQuality (formSnapshot (1 / 2) (1 / 2) true)) = true /\
  ((5 <= baseTeam1WinProb (formSnapshot (1 / 2) (1 / 2) true) /\
    5 <= baseTeam2WinProb (formSnapshot (1 / 2) (1 / 2) true)) <->
   (5 <= team1WinProb
           (calculateModelV1WinProbabilities (formSnapshot (1 / 2) (1 / 2) true)) /\
    5 <= team2WinProb
           (calculateModelV1WinProbabilities (formSnapshot (1 / 2) (1 / 2) true)) /\
    5 <= drawProb
           (calculateModelV1WinProbabilities (formSnapshot (1 / 2) (1 / 2) true)))).
Proof.
  split; [reflexivity |].
  exact (proj2 (floor_kept_iff_no_share_below_5
                  (formSnapshot (1 / 2) (1 / 2) true) eq_refl)).
Defined.

(** The difference of the two win shares of the logistic split has the
    sign of the advantage. *)
Lemma base_difference_sign (f : Features) :
  (0 < normalizedAdvantage f -> baseTeam2WinProb f < baseTeam1WinProb f) /\
  (normalizedAdvantage f < 0 -> baseTeam1WinProb f < baseTeam2WinProb f) /\
  (normalizedAdvantage f = 0 -> baseTeam1WinProb f = baseTeam2WinProb f).
Proof.
  pose proof (baseProbTotal_range f) as [T1 T2].
  set (a := normalizedAdvantage f).
  pose proof (exp_pos (- a)) as P.
  assert (D : baseTeam1WinProb f - baseTeam2WinProb f =
              baseProbTotal f * (1 - exp (- a)) / (1 + exp (- a))).
  { unfold baseTeam2WinProb, baseTeam1WinProb. fold a. field. lra. }
  assert (Pos : forall x, 0 < x -> 0 < baseProbTotal f * x / (1 + exp (- a))).
  { intros x Hx. apply Rdiv_lt_0_compat; [nra | lra]. }
  repeat split.
  - intros H. assert (E : exp (- a) < 1).
    { rewrite <- exp_0. apply exp_increasing. lra. }
    pose proof (Pos (1 - exp (- a)) ltac:(lra)). lra.
  - intros H. assert (E : 1 < exp (- a)).
    { rewrite <- exp_0. apply exp_increasing. lra. }
    pose proof (Pos (exp (- a) - 1) ltac:(lra)) as Q.
    replace (baseProbTotal f * (exp (- a) - 1) / (1 + exp (- a)))
      with (- (baseProbTotal f * (1 - exp (- a)) / (1 + exp (- a)))) in Q
      by (field; lra).
    lra.
  - intros H. rewrite H in D. replace (- 0) with 0 in D by lra.
    rewrite exp_0 in D. replace (baseProbTotal f * (1 - 1) / (1 + 1)) with 0 in D by lra.
    lra.
Qed.

(** The order of the two win shares survives the blend, the floor and
    the final normalization. *)
Lemma final_order_of_base (f : Features) :
  baseTeam2WinProb f < baseTeam1WinProb f ->
  team2WinProb (calculateModelV1WinProbabilities f) <
  team1WinProb (calculateModelV1WinProbabilities f).
Proof.
  intros H.
  pose proof (stageFloored_total f) as [T1 T2].
  pose proof (stageBlended_shape f) as (P1 & P2 & P3 & P4).
  assert (B : team2WinProb (stageBlended f) < team1WinProb (stageBlended f)).
  { destruct (dataSufficiency (dataQuality f)) eqn:E.
    - rewrite (stageBlended_sufficient f E). cbn [team1WinProb team2WinProb]. lra.
    - rewrite (stageBlended_insufficient f E). cbn [team1WinProb team2WinProb]. lra. }
  assert (F : team2WinProb (stageFloored f) < team1WinProb (stageFloored f)).
  { unfold stageFloored, floorAt5. cbn [team1WinProb team2WinProb].
    rewrite (Rmax_right 5 (team1WinProb (stageBlended f))) by lra.
    unfold Rmax. destruct (Rle_dec 5 (team2WinProb (stageBlended f))); lra. }
  unfold calculateModelV1WinProbabilities, normalizeTo100.
  fold (probSum (stageFloored f)).
  cbn [team1WinProb team2WinProb].
  apply Rmult_lt_compat_r; [lra |].
  apply Rmult_lt_compat_r; [apply Rinv_0_lt_compat; lra | exact F].
Qed.

Lemma final_order_of_base_rev (f : Features) :
  baseTeam1WinProb f < baseTeam2WinProb f ->
  team1WinProb (calculateModelV1WinProbabilities f) <
  team2WinProb (calculateModelV1WinProbabilities f).
Proof.
  intros H.
  pose proof (stageFloored_total f) as [T1 T2].
  pose proof (stageBlended_shape f) as (P1 & P2 & P3 & P4).
  assert (B : team1WinProb (stageBlended f) < team2WinProb (stageBlended f)).
  { destruct (dataSufficiency (dataQuality f)) eqn:E.
    - rewrite (stageBlended_sufficient f E). cbn [team1WinProb team2WinProb]. lra.
    - rewrite (stageBlended_insufficient f E). cbn [team1WinProb team2WinProb]. lra. }
  assert (F : team1WinProb (stageFloored f) < team2WinProb (stageFloored f)).
  { unfold stageFloored, floorAt5. cbn [team1WinProb team2WinProb].
    rewrite (Rmax_right 5 (team2WinProb (stageBlended f))) by lra.
    unfold Rmax. destruct (Rle_dec 5 (team1WinProb (stageBlended f))); lra. }
  unfold calculateModelV1WinProbabilities, normalizeTo100.
  fold (probSum (stageFloored f)).
  cbn [team1WinProb team2WinProb].
  apply Rmult_lt_compat_r; [lra |].
  apply Rmult_lt_compat_r; [apply Rinv_0_lt_compat; lra | exact F].
Qed.

Lemma final_equal_of_base (f : Features) :
  baseTeam1WinProb f = baseTeam2WinProb f ->
  team1WinProb (calculateModelV1WinProbabilities f) =
  team2WinProb (calculateModelV1WinProbabilities f).
Proof.
  intros H.
  assert (B : team1WinProb (stageBlended f) = team2WinProb (stageBlended f)).
  { destruct (dataSufficiency (dataQuality f)) eqn:E.
    - rewrite (stageBlended_sufficient f E). cbn [team1WinProb team2WinProb]. lra.
    - rewrite (stageBlended_insufficient f E). cbn [team1WinProb team2WinProb]. lra. }
  unfold calculateModelV1WinProbabilities, normalizeTo100, stageFloored, floorAt5.
  cbn [team1WinProb team2WinProb]. rewrite B. reflexivity.
Qed.

(** X4: the returned win probabilities are ordered as the sign of the
    clamped advantage coefficient says: team1's is the larger when the
    advantage is positive, team2's when it is negative, and they are
    equal when it is zero. *)
Theorem win_probabilities_follow_advantage (f : Features) :
  (0 < normalizedAdvantage f <->
   team2WinProb (calculateModelV1WinProbabilities f) <
   team1WinProb (calculateModelV1WinProbabilities f)) /\
  (normalizedAdvantage f < 0 <->
   team1WinProb (calculateModelV1WinProbabilities f) <
   team2WinProb (calculateModelV1WinProbabilities f)) /\
  (normalizedAdvantage f = 0 <->
   team1WinProb (calculateModelV1WinProbabilities f) =
   team2WinProb (calculateModelV1WinProbabilities f)).
Proof.
  pose proof (base_difference_sign f) as (S1 & S2 & S3).
  assert (F1 : 0 < normalizedAdvantage f ->
               team2WinProb (calculateModelV1WinProbabilities f) <
               team1WinProb (calculateModelV1WinProbabilities f))
    by (intros H; apply final_order_of_base, S1, H).
  assert (F2 : normalizedAdvantage f < 0 ->
               team1WinProb (calculateModelV1WinProbabilities f) <
               team2WinProb (calculateModelV1WinProbabilities f))
    by (intros H; apply final_order_of_base_rev, S2, H).
  assert (F3 : normalizedAdvantage f = 0 ->
               team1WinProb (calculateModelV1WinProbabilities f) =
               team2WinProb (calculateModelV1WinProbabilities f))
    by (intros H; apply final_equal_of_base, S3, H).
  destruct (Rtotal_order (normalizedAdvantage f) 0) as [L | [Z | G]].
  - specialize (F2 L). repeat split; intros; try lra; assumption.
  - specialize (F3 Z). repeat split; intros; try lra; assumption.
  - specialize (F1 G). repeat split; intros; try lra; assumption.
Qed.

Lemma formSnapshot_favourite :
  0 < normalizedAdvantage (formSnapshot (8 / 10) (2 / 10) true).
Proof.
  rewrite formSnapshot_advantage.
  rewrite Rmin_right by lra. rewrite Rmax_right by lra. lra.
Qed.

Lemma win_probabilities_follow_advantage_witness :
  0 < normalizedAdvantage (formSnapshot (8 / 10) (2 / 10) true) /\
  team2WinProb (calculateModelV1WinProbabilities (formSnapshot (8 / 10) (2 / 10) true)) <
  team1WinProb (calculateModelV1WinProbabilities (formSnapshot (8 / 10) (2 / 10) true)).
Proof.
  split; [exact formSnapshot_favourite |].
  exact (proj1 (proj1 (win_probabilities_follow_advantage
                         (formSnapshot (8 / 10) (2 / 10) true)))
           formSnapshot_favourite).
Defined.

(** *** Exchanging the teams *)

Lemma neqb_opp (x : R) : JS.neqb (- x) 0 = JS.neqb x 0.
Proof.
  unfold JS.neqb.
  destruct (Req_dec_T (- x) 0), (Req_dec_T x 0); try reflexivity; exfalso; lra.
Qed.

Lemma sign_opp (x : R) : JS.sign (- x) = - JS.sign x.
Proof.
  unfold JS.sign.
  destruct (Rlt_dec 0 (- x)), (Rlt_dec (- x) 0), (Rlt_dec 0 x), (Rlt_dec x 0);
    try lra.
Qed.

Lemma attackDifference_swap (f : Features) :
  attackDifference (swapTeams f) = - attackDifference f.
Proof. unfold attackDifference, swapTeams; simpl. lra. Qed.

Lemma advantageCoefficient_swap (f : Features) :
  venueKnown f ->
  advantageCoefficient (swapTeams f) = - advantageCoefficient f.
Proof.
  intros V. unfold advantageCoefficient.
  rewrite attackDifference_swap.
  cbn [swapTeams basicStats advancedStats locationFactor matchImportance
       rankingDiff h2hAdvantage team1RecentForm team2RecentForm
       team1MomentumIndex team2MomentumIndex team1HomeAdvantage
       team2HomeAdvantage team1MatchImportancePerformance
       team2MatchImportancePerformance].
  rewrite !neqb_opp, sign_opp, Rabs_Ropp.
  destruct V as [V | [V | V]]; rewrite V;
    repeat match goal with
           | |- context [Req_dec_T ?a ?b] =>
             destruct (Req_dec_T a b); try (exfalso; lra)
           end;
    repeat match goal with
           | |- context [JS.neqb ?a ?b] => destruct (JS.neqb a b)
           end;
    lra.
Qed.

Lemma clamp3_opp (x : R) : Rmax (-3) (Rmin 3 (- x)) = - Rmax (-3) (Rmin 3 x).
Proof.
  unfold Rmax, Rmin.
  destruct (Rle_dec 3 (- x)); destruct (Rle_dec 3 x);
    repeat match goal with |- context [Rle_dec ?a ?b] => destruct (Rle_dec a b) end;
    lra.
Qed.

Lemma normalizedAdvantage_swap (f : Features) :
  venueKnown f ->
  normalizedAdvantage (swapTeams f) = - normalizedAdvantage f.
Proof.
  intros V. unfold normalizedAdvantage.
  rewrite (advantageCoefficient_swap f V). apply clamp3_opp.
Qed.

Lemma drawProbClamped_swap (f : Features) :
  drawProbClamped (swapTeams f) = drawProbClamped f.
Proof.
  unfold drawProbClamped, baseDrawRate, scoringRate, projectedMarginAbs.
  rewrite attackDifference_swap, Rabs_Ropp.
  cbn [swapTeams basicStats advancedStats team1AvgScore team2AvgScore
       team1DefenseStrength team2DefenseStrength matchImportance].
  rewrite (andb_comm (JS.ltb (team2DefenseStrength (advancedStats f)) (8 / 10))).
  rewrite (Rplus_comm (team2AvgScore (basicStats f))). reflexivity.
Qed.

Lemma logistic_complement (t a : R) :
  t / (1 + exp (- - a)) = t - t / (1 + exp (- a)).
Proof.
  replace (- - a) with a by lra.
  pose proof (exp_pos a). pose proof (exp_pos (- a)).
  assert (E : exp a * exp (- a) = 1).
  { rewrite <- exp_plus. replace (a + - a) with 0 by lra. apply exp_0. }
  apply Rmult_eq_reg_r with ((1 + exp a) * (1 + exp (- a))); [| nra].
  replace (t / (1 + exp a) * ((1 + exp a) * (1 + exp (- a))))
    with (t * (1 + exp (- a))) by (field; lra).
  replace ((t - t / (1 + exp (- a))) * ((1 + exp a) * (1 + exp (- a))))
    with (t * exp (- a) + t * (exp a * exp (- a))) by (field; lra).
  rewrite E. ring.
Qed.

Lemma base_swap (f : Features) :
  venueKnown f ->
  baseTeam1WinProb (swapTeams f) = baseTeam2WinProb f /\
  baseTeam2WinProb (swapTeams f) = baseTeam1WinProb f.
Proof.
  intros V.
  assert (A : baseTeam1WinProb (swapTeams f) = baseTeam2WinProb f).
  { unfold baseTeam2WinProb, baseTeam1WinProb, baseProbTotal.
    rewrite (normalizedAdvantage_swap f V), drawProbClamped_swap.
    apply logistic_complement. }
  split; [exact A |].
  unfold baseTeam2WinProb at 1. rewrite A.
  unfold baseTeam2WinProb, baseProbTotal. rewrite drawProbClamped_swap. lra.
Qed.

(** X5: the model treats the two teams alike. For a snapshot whose venue
    is home, away or neutral, exchanging the teams (all team1 and team2
    fields swapped, head-to-head advantage, venue and ranking difference
    negated) exchanges the two returned win probabilities and leaves the
    draw probability as it was. *)
Theorem exchanging_teams_exchanges_probabilities (f : Features) :
  venueKnown f ->
  team1WinProb (calculateModelV1WinProbabilities (swapTeams f)) =
    team2WinProb (calculateModelV1WinProbabilities f) /\
  team2WinProb (calculateModelV1WinProbabilities (swapTeams f)) =
    team1WinProb (calculateModelV1WinProbabilities f) /\
  drawProb (calculateModelV1WinProbabilities (swapTeams f)) =
    drawProb (calculateModelV1WinProbabilities f).
Proof.
  intros V.
  destruct (base_swap f V) as [B1 B2].
  pose proof (drawProbClamped_swap f) as D.
  assert (Q : dataSufficiency (dataQuality (swapTeams f)) =
              dataSufficiency (dataQuality f)) by reflexivity.
  unfold calculateModelV1WinProbabilities, normalizeTo100, stageFloored, floorAt5.
  cbn [team1WinProb team2WinProb drawProb].
  destruct (dataSufficiency (dataQuality f)) eqn:E.
  - rewrite (stageBlended_sufficient _ Q), (stageBlended_sufficient _ E).
    cbn [team1WinProb team2WinProb drawProb]. rewrite B1, B2, D.
    rewrite (Rplus_comm (Rmax 5 (baseTeam2WinProb f))). repeat split.
  - rewrite (stageBlended_insufficient _ Q), (stageBlended_insufficient _ E).
    cbn [team1WinProb team2WinProb drawProb]. rewrite B1, B2, D.
    rewrite (Rplus_comm (Rmax 5 (baseTeam2WinProb f * (1 - 3 / 10) + 40 * (3 / 10)))).
    repeat split.
Qed.

Lemma exchanging_teams_witness :
  venueKnown (formSnapshot (8 / 10) (2 / 10) true) /\
  team1WinProb (calculateModelV1WinProbabilities
                  (swapTeams (formSnapshot (8 / 10) (2 / 10) true))) =
  team2WinProb (calculateModelV1WinProbabilities (formSnapshot (8 / 10) (2 / 10) true)).
Proof.
  assert (V : venueKnown (formSnapshot (8 / 10) (2 / 10) true))
    by (right; right; reflexivity).
  split; [exact V |].
  exact (proj1 (exchanging_teams_exchanges_probabilities _ V)).
Defined.

End ModelExtras.

(** ** The reconciled margin and the displayed winner *)

Module ConsistencyExtras.
Import Model Presentation.
Local Open Scope R_scope.

Lemma marginPredictedWinner_spec (m : R) :
  (marginPredictedWinner m = W_team1 <-> 25 / 100 < m) /\
  (marginPredictedWinner m = W_team2 <-> m < - (25 / 100)) /\
  (marginPredictedWinner m = W_draw <-> - (25 / 100) <= m <= 25 / 100).
Proof.
  unfold marginPredictedWinner, marginThreshold, JS.gtb, JS.ltb, Rgt.
  destruct (Rgt_dec m (25 / 100)) as [G | G]; unfold Rgt in G.
  - repeat split; intros; try discriminate; try lra; reflexivity.
  - destruct (Rlt_dec m (- (25 / 100))).
    + repeat split; intros; try discriminate; try lra; reflexivity.
    + repeat split; intros; try discriminate; try lra; reflexivity.
Qed.

Lemma marginPredictedWinner_cases (m : R) :
  (marginPredictedWinner m = W_team1 /\ 25 / 100 < m) \/
  (marginPredictedWinner m = W_team2 /\ m < - (25 / 100)) \/
  (marginPredictedWinner m = W_draw /\ - (25 / 100) <= m <= 25 / 100).
Proof.
  destruct (marginPredictedWinner_spec m) as (M1 & M2 & M3).
  destruct (marginPredictedWinner m).
  - left. split; [reflexivity | apply M1; reflexivity].
  - right; left. split; [reflexivity | apply M2; reflexivity].
  - right; right. split; [reflexivity | apply M3; reflexivity].
Qed.

Lemma ensure_margin_cases (p : Probabilities) (m : R) :
  snd (ensurePredictionConsistency p m) =
  match predictedWinner p with
  | W_draw => m * (2 / 10)
  | W_team1 =>
    if Winner_eqb W_team1 (marginPredictedWinner m) then m
    else Rmax (25 / 100) (Rabs m * (8 / 10))
  | W_team2 =>
    if Winner_eqb W_team2 (marginPredictedWinner m) then m
    else Rmin (- (25 / 100)) (- Rabs m * (8 / 10))
  end.
Proof.
  unfold ensurePredictionConsistency, marginThreshold.
  destruct (predictedWinner p); cbn [Winner_eqb];
    destruct (marginPredictedWinner m); reflexivity.
Qed.

Lemma reconciled_margin_bounds (p : Probabilities) (m : R) :
  (predictedWinner p = W_team1 ->
   25 / 100 <= snd (ensurePredictionConsistency p m)) /\
  (predictedWinner p = W_team2 ->
   snd (ensurePredictionConsistency p m) <= - (25 / 100)).
Proof.
  rewrite ensure_margin_cases.
  split; intros ->;
    destruct (marginPredictedWinner_cases m) as [[E H] | [[E H] | [E H]]];
    rewrite E; cbn [Winner_eqb];
    first [lra | apply Rmax_l | apply Rmin_l].
Qed.

(** X6: the margin returned by [ensurePredictionConsistency] never points
    against the probability winner: it is at least 0.25 when team1 has
    the highest probability, at most -0.25 when team2 has, and it is one
    fifth of the projected margin when draw has. *)
Theorem reconciled_margin_sides_with_winner (p : Probabilities) (m : R) :
  match predictedWinner p with
  | W_team1 => 25 / 100 <= snd (ensurePredictionConsistency p m)
  | W_team2 => snd (ensurePredictionConsistency p m) <= - (25 / 100)
  | W_draw => snd (ensurePredictionConsistency p m) = m / 5
  end.
Proof.
  rewrite ensure_margin_cases.
  destruct (predictedWinner p).
  - destruct (marginPredictedWinner_cases m) as [[E H] | [[E H] | [E H]]];
      rewrite E; cbn [Winner_eqb]; [lra | apply Rmax_l | apply Rmax_l].
  - destruct (marginPredictedWinner_cases m) as [[E H] | [[E H] | [E H]]];
      rewrite E; cbn [Winner_eqb]; [apply Rmin_l | lra | apply Rmin_l].
  - lra.
Qed.

(** X7: reconciling twice changes nothing more when a team has the
    highest probability: applied to its own output margin,
    [ensurePredictionConsistency] returns that margin again. (When draw
    has the highest probability every application divides the margin
    by 5 once more.) *)
Theorem reconciliation_is_idempotent_for_a_team (p : Probabilities) (m : R) :
  predictedWinner p <> W_draw ->
  ensurePredictionConsistency p (snd (ensurePredictionConsistency p m)) =
  ensurePredictionConsistency p m.
Proof.
  intros Hw.
  assert (F : forall x y, fst (ensurePredictionConsistency p x) =
                          fst (ensurePredictionConsistency p y))
    by (intros; rewrite !ModelFacts.ensurePredictionConsistency_fst; reflexivity).
  assert (S : snd (ensurePredictionConsistency p
                     (snd (ensurePredictionConsistency p m))) =
              snd (ensurePredictionConsistency p m)).
  { pose proof (reconciled_margin_bounds p m) as [Side1 Side2].
    set (a := snd (ensurePredictionConsistency p m)) in *.
    rewrite (ensure_margin_cases p a).
    destruct (predictedWinner p);
      [specialize (Side1 eq_refl) | specialize (Side2 eq_refl) | congruence].
    - destruct (marginPredictedWinner_cases a) as [[E H] | [[E H] | [E H]]];
        rewrite E; cbn [Winner_eqb]; [reflexivity | lra |].
      assert (Ha : a = 25 / 100) by lra. rewrite Ha.
      rewrite Rabs_pos_eq by lra. apply Rmax_left. lra.
    - destruct (marginPredictedWinner_cases a) as [[E H] | [[E H] | [E H]]];
        rewrite E; cbn [Winner_eqb]; [lra | reflexivity |].
      assert (Ha : a = - (25 / 100)) by lra. rewrite Ha.
      rewrite Rabs_Ropp, Rabs_pos_eq by lra. apply Rmin_left. lra. }
  destruct (ensurePredictionConsistency p (snd (ensurePredictionConsistency p m)))
    as [q1 a1] eqn:E1.
  destruct (ensurePredictionConsistency p m) as [q2 a2] eqn:E2.
  specialize (F (snd (q2, a2)) m). rewrite E1, E2 in F.
  cbn [fst snd] in *. congruence.
Qed.

Lemma predictedWinner_team1_example :
  predictedWinner {| team1WinProb := 50; team2WinProb := 30; drawProb := 20 |}
  = W_team1.
Proof.
  unfold predictedWinner, JS.max3, Rmax; simpl.
  destruct (Rle_dec 50 30); [lra |]. destruct (Rle_dec 50 20); [lra |].
  destruct (Req_dec_T 50 50); [reflexivity | lra].
Qed.

Lemma reconciliation_idempotent_witness :
  predictedWinner {| team1WinProb := 50; team2WinProb := 30; drawProb := 20 |}
    <> W_draw /\
  ensurePredictionConsistency
    {| team1WinProb := 50; team2WinProb := 30; drawProb := 20 |}
    (snd (ensurePredictionConsistency
            {| team1WinProb := 50; team2WinProb := 30; drawProb := 20 |} (-1))) =
  ensurePredictionConsistency
    {| team1WinProb := 50; team2WinProb := 30; drawProb := 20 |} (-1).
Proof.
  assert (H : predictedWinner
                {| team1WinProb := 50; team2WinProb := 30; drawProb := 20 |}
              <> W_draw)
    by (rewrite predictedWinner_team1_example; discriminate).
  split; [exact H |].
  exact (reconciliation_is_idempotent_for_a_team _ (-1) H).
Defined.

Lemma predictedWinner_spec (p : Probabilities) :
  (predictedWinner p = W_team1 <->
   team2WinProb p <= team1WinProb p /\ drawProb p <= team1WinProb p) /\
  (predictedWinner p = W_team2 <->
   team1WinProb p < team2WinProb p /\ drawProb p <= team2WinProb p) /\
  (predictedWinner p = W_draw <->
   team1WinProb p < drawProb p /\ team2WinProb p < drawProb p).
Proof.
  unfold predictedWinner.
  pose proof (JSFacts.max3_ge (team1WinProb p) (team2WinProb p) (drawProb p))
    as (G1 & G2 & G3).
  pose proof (JSFacts.max3_cases (team1WinProb p) (team2WinProb p) (drawProb p))
    as C.
  destruct (Req_dec_T (team1WinProb p) _) as [E1 | E1];
    [| destruct (Req_dec_T (team2WinProb p) _) as [E2 | E2]].
  - repeat split; intros; try discriminate; try lra.
  - assert (team1WinProb p < team2WinProb p) by lra.
    repeat split; intros; try discriminate; try lra.
  - destruct C as [C | [C | C]]; try (exfalso; auto; fail).
    rewrite C in *.
    repeat split; intros; try discriminate; try lra.
Qed.

(** X8: the winner shown by [updateWinnerPrediction] and the winner used
    by [ensurePredictionConsistency] are chosen by different tests. When
    a team is shown as winner the reconciliation uses the same team, and
    when the reconciliation uses draw, draw is shown; the two differ
    exactly when a team shares the highest probability with another
    outcome: then "Draw" is shown while the reconciliation sides with
    the team. *)
Theorem displayed_winner_and_reconciled_winner (p : Probabilities) :
  (fst (displayedWinner p) = W_team1 -> predictedWinner p = W_team1) /\
  (fst (displayedWinner p) = W_team2 -> predictedWinner p = W_team2) /\
  (predictedWinner p = W_draw -> fst (displayedWinner p) = W_draw) /\
  (fst (displayedWinner p) <> predictedWinner p <->
   (team1WinProb p = JS.max3 (team1WinProb p) (team2WinProb p) (drawProb p) /\
    (team1WinProb p = team2WinProb p \/ team1WinProb p = drawProb p)) \/
   (team2WinProb p = JS.max3 (team1WinProb p) (team2WinProb p) (drawProb p) /\
    team2WinProb p = drawProb p)).
Proof.
  destruct (predictedWinner_spec p) as (P1 & P2 & P3).
  pose proof (JSFacts.max3_ge (team1WinProb p) (team2WinProb p) (drawProb p))
    as (G1 & G2 & G3).
  pose proof (JSFacts.max3_cases (team1WinProb p) (team2WinProb p) (drawProb p))
    as C.
  unfold displayedWinner, JS.gtb, Rgt.
  destruct (Rgt_dec (team1WinProb p) (team2WinProb p)) as [A | A];
    destruct (Rgt_dec (team1WinProb p) (drawProb p)) as [B | B];
    destruct (Rgt_dec (team2WinProb p) (team1WinProb p)) as [A' | A'];
    destruct (Rgt_dec (team2WinProb p) (drawProb p)) as [B' | B'];
    unfold Rgt in *; cbn [andb fst];
    try (exfalso; lra);
    destruct (predictedWinner p) eqn:E;
    repeat match goal with
           | H : _ = _ <-> _ |- _ => destruct H
           end;
    repeat split; intros; try discriminate; try congruence; try reflexivity;
    try (exfalso; lra);
    try (match goal with
         | H : W_team1 = W_team1 -> _ |- _ => specialize (H eq_refl)
         | H : W_team2 = W_team2 -> _ |- _ => specialize (H eq_refl)
         | H : W_draw = W_draw -> _ |- _ => specialize (H eq_refl)
         end).
  all: try (exfalso; intuition lra).
  all: try (intuition lra).
Qed.

Lemma displayed_winner_witness :
  fst (displayedWinner {| team1WinProb := 40; team2WinProb := 20; drawProb := 40 |})
  <> predictedWinner {| team1WinProb := 40; team2WinProb := 20; drawProb := 40 |}.
Proof.
  apply (proj2 (proj2 (proj2 (proj2 (displayed_winner_and_reconciled_winner
           {| team1WinProb := 40; team2WinProb := 20; drawProb := 40 |}))))).
  left. cbn [team1WinProb team2WinProb drawProb]. split.
  - unfold JS.max3, Rmax.
    destruct (Rle_dec 40 20); [lra |]. destruct (Rle_dec 40 40); lra.
  - right. reflexivity.
Defined.

End ConsistencyExtras.

(** ** The Poisson mass and the shape of the score table *)

Module DistributionExtras.
Import Distribution TableOps.
Local Open Scope R_scope.

Lemma poissonLoop_closed (lambda : R) :
  forall (steps i : nat) (result : R),
    poissonLoop lambda (S i) steps result =
    result * lambda ^ steps * INR (fact i) / INR (fact (i + steps)).
Proof.
  induction steps as [| n IH]; intros i result.
  - cbn [poissonLoop pow]. rewrite Nat.add_0_r.
    field. apply INR_fact_neq_0.
  - cbn [poissonLoop]. rewrite IH.
    replace (i + S n)%nat with (S i + n)%nat by lia.
    cbn [pow].
    assert (F : INR (fact (S i)) = INR (S i) * INR (fact i)).
    { rewrite fact_simpl, mult_INR. reflexivity. }
    rewrite F.
    assert (N : INR (S i) <> 0) by (apply not_0_INR; lia).
    field. split; [apply INR_fact_neq_0 | exact N].
Qed.

(** X9: [poissonProbability] computes the Poisson mass its comment names:
    for a positive mean the loop returns e^(-lambda) lambda^k / k!, and
    for a mean that is zero or negative it returns the point mass at 0. *)
Theorem poissonProbability_is_the_poisson_mass (k : nat) (lambda : R) :
  (0 < lambda ->
   poissonProbability k lambda = exp (- lambda) * lambda ^ k / INR (fact k)) /\
  (lambda <= 0 ->
   poissonProbability k lambda = if Nat.eqb k 0 then 1 else 0).
Proof.
  unfold poissonProbability. split; intros H.
  - destruct (Rle_dec lambda 0); [lra |].
    rewrite (poissonLoop_closed lambda k 0). cbn [fact INR Nat.add].
    field. apply INR_fact_neq_0.
  - destruct (Rle_dec lambda 0); [reflexivity | lra].
Qed.

Lemma poissonProbability_witness :
  0 < 2 /\ poissonProbability 3 2 = exp (- 2) * 2 ^ 3 / INR (fact 3).
Proof.
  split; [lra |].
  exact (proj1 (poissonProbability_is_the_poisson_mass 3 2) ltac:(lra)).
Defined.

(** Insertion keeps a table sorted highest first. *)
Lemma insertDesc_sorted (x : Cell) (l : list Cell) :
  Sorted notBelow l -> Sorted notBelow (insertDesc x l).
Proof.
  induction 1 as [| y l Hs IH Hh]; cbn [insertDesc].
  - repeat constructor.
  - destruct (Rle_dec (probability y - probability x) 0) as [L | L].
    + constructor; [constructor; assumption |].
      constructor. unfold notBelow. lra.
    + constructor; [exact IH |].
      destruct l as [| z l]; cbn [insertDesc].
      * constructor. unfold notBelow. lra.
      * destruct (Rle_dec (probability z - probability x) 0).
        -- constructor. unfold notBelow. lra.
        -- constructor. inversion Hh; subst. assumption.
Qed.

Lemma sortDesc_sorted (l : list Cell) : Sorted notBelow (sortDesc l).
Proof.
  induction l as [| x l IH]; cbn [sortDesc fold_right].
  - constructor.
  - apply insertDesc_sorted. exact IH.
Qed.

Lemma table_is_sorted_cells (t m : R) :
  generateScoreDistribution t m = sortDesc (normalizeCells (rawCells t m)).
Proof.
  unfold generateScoreDistribution.
  assert (G : JS.gtb (otherProb (normalizeCells (rawCells t m))) (1 / 10) = false).
  { apply JSFacts.gtb_false. unfold otherProb.
    rewrite DistributionFacts.cells_sum_100.
    replace (100 - 100) with 0 by lra. rewrite Rmax_left; lra. }
  rewrite G. reflexivity.
Qed.

Lemma sumProbability_ge_member (l : list Cell) (c : Cell) :
  Forall (fun c => 0 <= probability c) l -> In c l ->
  probability c <= sumProbability l.
Proof.
  induction 1 as [| x l Hx Hl IH]; intros Hin; [destruct Hin |].
  rewrite DistributionFacts.sumProbability_cons.
  pose proof (DistributionFacts.sumProbability_nonneg l Hl).
  destruct Hin as [-> | Hin]; [lra |].
  specialize (IH Hin). lra.
Qed.

Lemma normalized_range (t m : R) (c : Cell) :
  In c (normalizeCells (rawCells t m)) -> 0 <= probability c <= 100.
Proof.
  intros Hin. unfold normalizeCells in Hin.
  apply in_map_iff in Hin. destruct Hin as (r & <- & Hr).
  cbn [probability].
  pose proof (DistributionFacts.rawCells_total_pos t m) as T.
  pose proof (DistributionFacts.rawCells_nonneg t m) as N.
  pose proof (sumProbability_ge_member _ _ N Hr) as U.
  assert (P : 0 <= probability r)
    by (rewrite Forall_forall in N; apply N; exact Hr).
  set (S := sumProbability (rawCells t m)) in *.
  split.
  - apply Rmult_le_pos; [| lra].
    apply Rmult_le_pos; [exact P | apply Rlt_le, Rinv_0_lt_compat; exact T].
  - apply Rmult_le_reg_r with S; [exact T |].
    replace (probability r / S * 100 * S) with (100 * probability r)
      by (field; lra).
    nra.
Qed.

(** X10: when both means are at most 300, the total that the 25 cells
    are divided by is above the smallest normal double (nothing
    underflows), and the returned table has exactly 25 entries, none of
    them the "Other" bucket, it is sorted by probability, highest first,
    every probability lies between 0 and 100, and they sum to 100. *)
Theorem score_table_sorted_and_bounded (projectedTotal projectedMargin : R) :
  projectedTotal / 2 + projectedMargin / 2 <= 300 ->
  projectedTotal / 2 - projectedMargin / 2 <= 300 ->
  leastNormalDouble < sumProbability (rawCells projectedTotal projectedMargin) /\
  List.length (generateScoreDistribution projectedTotal projectedMargin) = 25%nat /\
  hasOther (generateScoreDistribution projectedTotal projectedMargin) = false /\
  Sorted notBelow (generateScoreDistribution projectedTotal projectedMargin) /\
  Forall (fun c => 0 <= probability c <= 100)
    (generateScoreDistribution projectedTotal projectedMargin) /\
  sumProbability (generateScoreDistribution projectedTotal projectedMargin) = 100.
Proof.
  intros H1 H2.
  split; [apply DistributionFacts.rawCells_total_moderate; assumption |].
  rewrite table_is_sorted_cells.
  pose proof (DistributionFacts.sortDesc_perm
                (normalizeCells (rawCells projectedTotal projectedMargin))) as P.
  split; [| split; [| split; [| split]]].
  - rewrite (Permutation_length P).
    unfold normalizeCells, rawCells. rewrite !length_map. reflexivity.
  - rewrite (DistributionFacts.hasOther_perm _ _ P).
    apply DistributionFacts.cells_no_other.
  - apply sortDesc_sorted.
  - apply Forall_forall. intros c Hc.
    apply (Permutation_in _ P) in Hc.
    apply (normalized_range projectedTotal projectedMargin c Hc).
  - rewrite (DistributionFacts.sumProbability_perm _ _ P).
    apply DistributionFacts.cells_sum_100.
Qed.

Lemma score_table_witness :
  List.length (generateScoreDistribution (27 / 10) (3 / 10)) = 25%nat /\
  sumProbability (generateScoreDistribution (27 / 10) (3 / 10)) = 100.
Proof.
  assert (H1 : (27 / 10) / 2 + (3 / 10) / 2 <= 300) by lra.
  assert (H2 : (27 / 10) / 2 - (3 / 10) / 2 <= 300) by lra.
  destruct (score_table_sorted_and_bounded (27 / 10) (3 / 10) H1 H2)
    as (_ & L & _ & _ & _ & S).
  split; [exact L | exact S].
Defined.

(** *** Reading the table from the other side *)

Lemma cellProbability_transposed (t m1 m2 : R) (a b : nat) :
  cellProbability t m1 m2 a b = cellProbability t m2 m1 b a.
Proof.
  unfold cellProbability.
  rewrite (Nat.eqb_sym b a), (Nat.add_comm b a).
  rewrite (andb_comm (Nat.eqb b 0) (Nat.eqb a 0)).
  rewrite (orb_comm (Nat.leb 3 b && Nat.leb 2 a) (Nat.leb 2 b && Nat.leb 3 a)).
  rewrite (andb_comm (Nat.leb 2 b) (Nat.leb 3 a)).
  rewrite (andb_comm (Nat.leb 3 b) (Nat.leb 2 a)).
  assert (C : (Nat.eqb b 1 && Nat.eqb a 0) || (Nat.eqb b 0 && Nat.eqb a 1) ||
              (Nat.eqb b 1 && Nat.eqb a 1) || (Nat.eqb b 2 && Nat.eqb a 1) ||
              (Nat.eqb b 1 && Nat.eqb a 2) =
              (Nat.eqb a 1 && Nat.eqb b 0) || (Nat.eqb a 0 && Nat.eqb b 1) ||
              (Nat.eqb a 1 && Nat.eqb b 1) || (Nat.eqb a 2 && Nat.eqb b 1) ||
              (Nat.eqb a 1 && Nat.eqb b 2)).
  { destruct (Nat.eqb a 0), (Nat.eqb a 1), (Nat.eqb a 2),
      (Nat.eqb b 0), (Nat.eqb b 1), (Nat.eqb b 2); reflexivity. }
  rewrite C.
  rewrite (Rmult_comm (poissonProbability b m2) (poissonProbability a m1)).
  reflexivity.
Qed.

Lemma in_scorePairs (a b : nat) :
  In (a, b) scorePairs <-> (a < 5)%nat /\ (b < 5)%nat.
Proof.
  unfold scorePairs. rewrite in_flat_map. split.
  - intros (x & Hx & Hin). apply in_map_iff in Hin.
    destruct Hin as (y & E & Hy). injection E as <- <-.
    apply in_seq in Hx. apply in_seq in Hy. lia.
  - intros [Ha Hb]. exists a. split; [apply in_seq; lia |].
    apply in_map_iff. exists b. split; [reflexivity | apply in_seq; lia].
Qed.

Lemma scorePairs_NoDup : NoDup scorePairs.
Proof.
  unfold scorePairs. cbn [seq flat_map map app].
  repeat (constructor; [cbn [In]; intuition congruence |]).
  constructor.
Qed.

Lemma scorePairs_transposed : Permutation (map swapPair scorePairs) scorePairs.
Proof.
  apply NoDup_Permutation.
  - apply Finite.Injective_map_NoDup; [| apply scorePairs_NoDup].
    intros [a b] [c d] E. unfold swapPair in E. cbn [fst snd] in E. congruence.
  - apply scorePairs_NoDup.
  - intros [a b]. rewrite in_map_iff, in_scorePairs. split.
    + intros ([c d] & E & Hin). unfold swapPair in E. cbn [fst snd] in E.
      injection E as <- <-. apply in_scorePairs in Hin. lia.
    + intros [Ha Hb]. exists (b, a). split; [reflexivity |].
      apply in_scorePairs. lia.
Qed.

(** The raw cells for the margin [- m], written with the means of [m]. *)
Lemma rawCells_opposite (t m : R) :
  rawCells t (- m) =
  map (fun ab =>
         {| team1Score := Z.of_nat (fst ab);
            team2Score := Z.of_nat (snd ab);
            probability :=
              cellProbability t (t / 2 + m / 2) (t / 2 - m / 2) (snd ab) (fst ab) |})
    scorePairs.
Proof.
  unfold rawCells. apply map_ext. intros [a b]. cbn [fst snd].
  f_equal. rewrite cellProbability_transposed.
  f_equal; lra.
Qed.

Lemma rawCells_opposite_perm (t m : R) :
  Permutation (map transposeCell (rawCells t m)) (rawCells t (- m)).
Proof.
  rewrite rawCells_opposite. unfold rawCells. rewrite map_map.
  rewrite <- scorePairs_transposed at 2. rewrite map_map.
  unfold transposeCell, swapPair. cbn [team1Score team2Score probability fst snd].
  reflexivity.
Qed.

Lemma sumProbability_transposed (l : list Cell) :
  sumProbability (map transposeCell l) = sumProbability l.
Proof.
  induction l as [| x l IH]; [reflexivity |].
  cbn [map]. rewrite !DistributionFacts.sumProbability_cons, IH. reflexivity.
Qed.

Lemma normalizeCells_perm (l1 l2 : list Cell) :
  Permutation l1 l2 -> Permutation (normalizeCells l1) (normalizeCells l2).
Proof.
  intros P. unfold normalizeCells.
  rewrite (DistributionFacts.sumProbability_perm _ _ P).
  apply Permutation_map. exact P.
Qed.

Lemma normalizeCells_transposed (l : list Cell) :
  normalizeCells (map transposeCell l) = map transposeCell (normalizeCells l).
Proof.
  unfold normalizeCells. rewrite sumProbability_transposed, !map_map.
  reflexivity.
Qed.

(** X11: the table does not favour a side. The table for the margin
    [- m] consists of the cells of the table for [m] with the two scores
    of every cell exchanged and the same probabilities. *)
Theorem opposite_margin_transposes_the_table (projectedTotal projectedMargin : R) :
  Permutation
    (map transposeCell (generateScoreDistribution projectedTotal projectedMargin))
    (generateScoreDistribution projectedTotal (- projectedMargin)).
Proof.
  rewrite !table_is_sorted_cells.
  rewrite (DistributionFacts.sortDesc_perm
             (normalizeCells (rawCells projectedTotal (- projectedMargin)))).
  rewrite (Permutation_map transposeCell
             (DistributionFacts.sortDesc_perm
                (normalizeCells (rawCells projectedTotal projectedMargin)))).
  rewrite <- normalizeCells_transposed.
  apply normalizeCells_perm, rawCells_opposite_perm.
Qed.

End DistributionExtras.

(** ** Ingestion: rejection, order, derived fields; clearing; line flags *)

Module StoreExtras.
Import Store StoreOps StoreFacts.
Local Open Scope Z_scope.

(** A parsed score that is a number and not negative. *)
Lemma existsb_false_Forall {A : Type} (f : A -> bool) (l : list A) :
  existsb f l = false <-> Forall (fun x => f x = false) l.
Proof.
  induction l as [| x l IH]; cbn [existsb].
  - split; [constructor | reflexivity].
  - rewrite orb_false_iff, IH. split.
    + intros [H1 H2]. constructor; assumption.
    + intros H. inversion H; subst. split; assumption.
Qed.

(** X12: [validateScores] accepts exactly the pairs of non-empty arrays
    whose entries are all numbers and none negative (arrays of different
    lengths included); and an add handler whose arrays are not accepted
    returns with the whole state, the category's earlier records
    included, as it was. *)
Theorem rejected_ingestion_changes_nothing
    (clock : nat -> Z) (cat : Category) (scores1 scores2 : list (option Z))
    (s : State) :
  (validateScores scores1 scores2 = true <->
   scores1 <> [] /\ scores2 <> [] /\
   Forall (fun x => exists z, x = Some z /\ 0 <= z) scores1 /\
   Forall (fun x => exists z, x = Some z /\ 0 <= z) scores2) /\
  (validateScores scores1 scores2 = false ->
   handleAdd clock cat scores1 scores2 s = s).
Proof.
  assert (G : forall l : list (option Z),
             (existsb isNaN l = false /\ existsb isNegative l = false) <->
             Forall (fun x => exists z, x = Some z /\ 0 <= z) l).
  { intros l. rewrite !existsb_false_Forall. split.
    - intros [H1 H2]. rewrite Forall_forall in *. intros x Hx.
      specialize (H1 x Hx). specialize (H2 x Hx).
      destruct x as [z |]; [| discriminate].
      exists z. split; [reflexivity |]. cbn [isNegative] in H2.
      apply Z.ltb_ge in H2. exact H2.
    - intros H. split; rewrite Forall_forall in *; intros x Hx;
        destruct (H x Hx) as (z & -> & Hz); cbn [isNaN isNegative];
        [reflexivity | apply Z.ltb_ge; exact Hz]. }
  split.
  - split.
    + intros Hv. destruct (validateScores_true _ _ Hv) as (A & B & C & D & E & F).
      repeat split; try assumption; apply G; split; assumption.
    + intros (E & F & A & B). apply G in A. apply G in B.
      destruct A as [A1 A2]. destruct B as [B1 B2].
      unfold validateScores. rewrite A1, B1, A2, B2. cbn [orb].
      destruct scores1; [congruence |]. destruct scores2; [congruence |].
      reflexivity.
  - intros Hv. unfold handleAdd. rewrite Hv. reflexivity.
Qed.

Lemma rejected_ingestion_witness :
  validateScores [Some 1; None] [Some 2; Some 0] = false /\
  handleAdd (fun _ => 1700000000000) C_team1 [Some 1; None] [Some 2; Some 0]
    (Pipeline.globals Pipeline.sampleHeadToHead)
  = Pipeline.globals Pipeline.sampleHeadToHead.
Proof.
  split; [reflexivity |].
  exact (proj2 (rejected_ingestion_changes_nothing (fun _ => 1700000000000)
                  C_team1 [Some 1; None] [Some 2; Some 0]
                  (Pipeline.globals Pipeline.sampleHeadToHead)) eq_refl).
Defined.

(** *** The category is kept in time order *)

Lemma insertByTimestamp_sorted (x : MatchRecord) (l : list MatchRecord) :
  Sorted notLater l -> Sorted notLater (insertByTimestamp x l).
Proof.
  induction 1 as [| y l Hs IH Hh]; cbn [insertByTimestamp].
  - repeat constructor.
  - destruct (Z.leb_spec (timestamp x - timestamp y) 0) as [L | L].
    + constructor; [constructor; assumption |].
      constructor. unfold notLater. lia.
    + constructor; [exact IH |].
      destruct l as [| z l]; cbn [insertByTimestamp].
      * constructor. unfold notLater. lia.
      * destruct (Z.leb_spec (timestamp x - timestamp z) 0).
        -- constructor. unfold notLater. lia.
        -- constructor. inversion Hh; subst. assumption.
Qed.

Lemma sortByTimestamp_sorted (l : list MatchRecord) :
  Sorted notLater (sortByTimestamp l).
Proof.
  induction l as [| x l IH]; cbn [sortByTimestamp fold_right].
  - constructor.
  - apply insertByTimestamp_sorted. exact IH.
Qed.

Lemma processMatchScore_sorted (clock : nat -> Z) (cat : Category)
    (n a b ts : Z) (s : State) :
  Sorted notLater (getCategory (matchData (processMatchScore clock cat n a b ts s)) cat).
Proof.
  unfold processMatchScore, Date_now.
  destruct (ts =? 0); cbn [matchData set_matchData set_ticks];
    rewrite getCategory_setCategory, Category_eqb_refl;
    apply sortByTimestamp_sorted.
Qed.

Lemma addLoop_sorted (clock : nat -> Z) (cat : Category)
    (scores1 scores2 : list (option Z)) (minLength : nat) :
  forall (steps i : nat) (s : State),
    Sorted notLater (getCategory (matchData s) cat) ->
    Sorted notLater
      (getCategory (matchData (addLoop clock cat scores1 scores2 minLength steps i s)) cat).
Proof.
  induction steps as [| steps IH]; intros i s H; cbn [addLoop]; [exact H |].
  unfold Date_now. apply IH. apply processMatchScore_sorted.
Qed.

(** X13: whatever [Date.now()] returns during ingestion, an add handler
    leaves its category sorted by timestamp, oldest first. *)
Theorem ingested_category_is_in_time_order
    (clock : nat -> Z) (cat : Category) (scores1 scores2 : list (option Z))
    (s : State) :
  validateScores scores1 scores2 = true ->
  Sorted notLater (getCategory (matchData (handleAdd clock cat scores1 scores2 s)) cat).
Proof.
  intros Hv. unfold handleAdd. rewrite Hv. cbn [negb].
  apply addLoop_sorted. cbn [matchData set_matchData].
  rewrite getCategory_setCategory, Category_eqb_refl. constructor.
Qed.

Lemma ingested_category_in_time_order_witness :
  validateScores [Some 2; Some 0] [Some 1; Some 1] = true /\
  Sorted notLater
    (team1 (matchData (handleTeam1Add (fun k => 1700000000000 - Z.of_nat k * 900000000)
                         [Some 2; Some 0] [Some 1; Some 1] initialState))).
Proof.
  split; [reflexivity |].
  exact (ingested_category_is_in_time_order
           (fun k => 1700000000000 - Z.of_nat k * 900000000) C_team1
           [Some 2; Some 0] [Some 1; Some 1] initialState eq_refl).
Defined.

(** *** With a steady clock the input order is the stored order *)

Lemma sortByTimestamp_app_last (l : list MatchRecord) (r : MatchRecord) :
  Sorted notLater l ->
  Forall (fun x => timestamp x <= timestamp r) l ->
  sortByTimestamp (l ++ [r]) = l ++ [r].
Proof.
  unfold sortByTimestamp. rewrite fold_right_app. cbn [fold_right insertByTimestamp].
  induction l as [| a l IH]; intros Hs Hf; [reflexivity |].
  cbn [fold_right app].
  inversion Hs as [| ? ? Hs' Hh]; subst. inversion Hf as [| ? ? Ha Hf']; subst.
  rewrite (IH Hs' Hf').
  destruct l as [| b l]; cbn [app insertByTimestamp].
  - destruct (Z.leb_spec (timestamp a - timestamp r) 0); [reflexivity | lia].
  - inversion Hh; subst. unfold notLater in *.
    destruct (Z.leb_spec (timestamp a - timestamp b) 0); [reflexivity | lia].
Qed.

Lemma Sorted_app_last (l : list MatchRecord) (r : MatchRecord) :
  Sorted notLater l ->
  Forall (fun x => timestamp x <= timestamp r) l ->
  Sorted notLater (l ++ [r]).
Proof.
  intros Hs Hf. rewrite <- (sortByTimestamp_app_last l r Hs Hf).
  apply sortByTimestamp_sorted.
Qed.

Lemma timestamp_makeRecord (cat : Category) (n a b ts : Z) (s : State) :
  timestamp (makeRecord cat n a b ts s) = ts.
Proof. destruct cat; reflexivity. Qed.

Section SteadyClock.
Variable clock : nat -> Z.
Variable cat : Category.
Variables scores1 scores2 : list (option Z).
Variable minLength : nat.
Hypothesis steady : steadyClock clock minLength.

Let week : Z := 7 * 24 * 60 * 60 * 1000.

(** The timestamp given to the pair at index [i] when the clock has been
    read [t] times before. *)
Let stamp (t i : nat) : Z :=
  clock t - (Z.of_nat minLength - Z.of_nat i) * 7 * 24 * 60 * 60 * 1000.

Lemma stamp_nonzero (t i : nat) : stamp t i <> 0.
Proof.
  destruct steady as [_ Late]. specialize (Late t). unfold stamp. lia.
Qed.

Lemma stamp_increases (t i : nat) : stamp t i < stamp (S t) (S i).
Proof.
  destruct steady as [Mono _]. specialize (Mono t (S t) ltac:(lia)).
  unfold stamp. lia.
Qed.

Lemma addLoop_in_order :
  forall (steps i : nat) (s : State),
    Sorted notLater (getCategory (matchData s) cat) ->
    Forall (fun x => timestamp x < stamp (ticks s) i) (getCategory (matchData s) cat) ->
    exists added,
      getCategory (matchData (addLoop clock cat scores1 scores2 minLength steps i s)) cat
        = getCategory (matchData s) cat ++ added /\
      map (ingested cat) added =
        map (fun j => (Z.of_nat j + 1, (scoreAt scores1 j, scoreAt scores2 j)))
          (seq i steps) /\
      Sorted notLater (getCategory (matchData s) cat ++ added).
Proof.
  induction steps as [| steps IH]; intros i s Hs Hf.
  - exists []. cbn [addLoop seq map]. rewrite app_nil_r. auto.
  - cbn [addLoop]. unfold Date_now.
    fold (stamp (ticks s) i).
    set (r := makeRecord cat (Z.of_nat i + 1) (scoreAt scores1 i) (scoreAt scores2 i)
                (stamp (ticks s) i) (set_ticks s (S (ticks s)))).
    assert (Hstep :
      processMatchScore clock cat (Z.of_nat i + 1) (scoreAt scores1 i)
        (scoreAt scores2 i) (stamp (ticks s) i) (set_ticks s (S (ticks s))) =
      set_matchData (set_ticks s (S (ticks s)))
        (setCategory (matchData s) cat (getCategory (matchData s) cat ++ [r]))).
    { unfold processMatchScore.
      destruct (Z.eqb_spec (stamp (ticks s) i) 0) as [E | _];
        [exfalso; exact (stamp_nonzero _ _ E) |].
      cbn [matchData set_ticks]. fold r.
      rewrite sortByTimestamp_app_last; [reflexivity | exact Hs |].
      eapply Forall_impl; [| exact Hf]. intros x Hx. cbn beta in *.
      unfold r. rewrite timestamp_makeRecord. lia. }
    rewrite Hstep.
    set (s' := set_matchData (set_ticks s (S (ticks s)))
                 (setCategory (matchData s) cat (getCategory (matchData s) cat ++ [r]))).
    assert (Hcat : getCategory (matchData s') cat = getCategory (matchData s) cat ++ [r]).
    { unfold s'. cbn [matchData set_matchData].
      rewrite getCategory_setCategory, Category_eqb_refl. reflexivity. }
    assert (Hr : timestamp r = stamp (ticks s) i)
      by (unfold r; apply timestamp_makeRecord).
    destruct (IH (S i) s') as (added & E1 & E2 & E3).
    + rewrite Hcat. apply Sorted_app_last; [exact Hs |].
      eapply Forall_impl; [| exact Hf]. intros x Hx. cbn beta in *. lia.
    + rewrite Hcat. change (ticks s') with (S (ticks s)).
      pose proof (stamp_increases (ticks s) i) as Inc.
      apply Forall_app. split.
      * eapply Forall_impl; [| exact Hf]. intros x Hx. cbn beta in *. lia.
      * constructor; [lia | constructor].
    + exists (r :: added). rewrite E1, Hcat, <- app_assoc. cbn [app].
      split; [reflexivity |]. split.
      * cbn [map seq]. rewrite E2. f_equal.
        unfold r. apply ingested_makeRecord.
      * rewrite Hcat, <- app_assoc in E3. exact E3.
Qed.

End SteadyClock.

(** X14: when the clock never runs backwards (and shows a date later
    than [minLength] weeks after the epoch), the records an add handler
    stores are the first min(len1, len2) pairs in the order they were
    entered: the k-th stored record has match number k and holds the
    k-th pair. *)
Theorem steady_clock_keeps_input_order
    (clock : nat -> Z) (cat : Category) (scores1 scores2 : list (option Z))
    (s : State) :
  validateScores scores1 scores2 = true ->
  steadyClock clock (Nat.min (List.length scores1) (List.length scores2)) ->
  let stored := getCategory (matchData (handleAdd clock cat scores1 scores2 s)) cat in
  map (parsedPair cat) stored = combine scores1 scores2 /\
  map matchNumber stored =
    map (fun j => Z.of_nat j + 1)
      (seq 0 (Nat.min (List.length scores1) (List.length scores2))).
Proof.
  intros Hv Hc stored.
  destruct (validateScores_true _ _ Hv) as (N1 & N2 & _).
  set (n := Nat.min (List.length scores1) (List.length scores2)) in *.
  assert (E : exists added,
             stored = added /\
             map (ingested cat) added =
               map (fun j => (Z.of_nat j + 1, (scoreAt scores1 j, scoreAt scores2 j)))
                 (seq 0 n)).
  { unfold stored, handleAdd. rewrite Hv. cbn [negb]. fold n.
    set (s0 := set_matchData s (setCategory (matchData s) cat [])).
    assert (H0 : getCategory (matchData s0) cat = []).
    { unfold s0. cbn [matchData set_matchData].
      rewrite getCategory_setCategory, Category_eqb_refl. reflexivity. }
    destruct (addLoop_in_order clock cat scores1 scores2 n Hc n 0%nat s0)
      as (added & E1 & E2 & _).
    - rewrite H0. constructor.
    - rewrite H0. constructor.
    - exists added. rewrite E1, H0. split; [reflexivity | exact E2]. }
  destruct E as (added & -> & E).
  split.
  - rewrite <- (combine_scoreAt scores1 scores2 N1 N2). fold n.
    apply (f_equal (map (fun x : Z * (Z * Z) =>
                           (Some (fst (snd x)), Some (snd (snd x)))))) in E.
    rewrite !map_map in E. exact E.
  - apply (f_equal (map (fun x : Z * (Z * Z) => fst x))) in E.
    rewrite !map_map in E. exact E.
Qed.

Lemma steady_clock_witness :
  validateScores [Some 1; Some 2; Some 1] [Some 1; Some 2] = true /\
  steadyClock (fun k => 1700000000000 + Z.of_nat k) 2 /\
  map (parsedPair C_h2h)
    (h2h (matchData (handleH2HAdd (fun k => 1700000000000 + Z.of_nat k)
                       [Some 1; Some 2; Some 1] [Some 1; Some 2] initialState)))
  = [(Some 1, Some 1); (Some 2, Some 2)].
Proof.
  assert (C : steadyClock (fun k => 1700000000000 + Z.of_nat k) 2).
  { unfold steadyClock. split; intros; lia. }
  split; [reflexivity |]. split; [exact C |].
  exact (proj1 (steady_clock_keeps_input_order
                  (fun k => 1700000000000 + Z.of_nat k) C_h2h
                  [Some 1; Some 2; Some 1] [Some 1; Some 2] initialState
                  eq_refl C)).
Defined.

(** *** Derived fields of the stored records *)

Lemma scoreAt_nonneg (scores : list (option Z)) (i : nat) :
  existsb isNegative scores = false -> 0 <= scoreAt scores i.
Proof.
  intros H. unfold scoreAt.
  destruct (nth_error scores i) as [[z |] |] eqn:E; try lia.
  apply nth_error_In in E.
  apply existsb_false_Forall in H. rewrite Forall_forall in H.
  specialize (H _ E). cbn [isNegative] in H. apply Z.ltb_ge in H. exact H.
Qed.

Lemma goalEfficiency_range (x y : Z) :
  0 <= x -> 0 <= y -> 0 < x + y ->
  ((1 # 2) <= inject_Z (Z.max x y) / inject_Z (x + y))%Q /\
  (inject_Z (Z.max x y) / inject_Z (x + y) <= 1)%Q.
Proof.
  intros Hx Hy Hs.
  assert (P : (0 < inject_Z (x + y))%Q)
    by (unfold Qlt; cbn [Qnum Qden inject_Z]; lia).
  split.
  - apply Qle_shift_div_l; [exact P |].
    unfold Qle, Qmult, inject_Z; cbn [Qnum Qden]. lia.
  - apply Qle_shift_div_r; [exact P |].
    unfold Qle, Qmult, inject_Z; cbn [Qnum Qden]. lia.
Qed.

Lemma string_length_append (s1 s2 : string) :
  String.length (s1 ++ s2) = (String.length s1 + String.length s2)%nat.
Proof.
  induction s1 as [| c s1 IH]; cbn [String.append String.length]; [reflexivity |].
  rewrite IH. reflexivity.
Qed.

Lemma append_Wins_not_Draw (name : string) :
  (name ++ " Wins")%string <> "Draw"%string.
Proof.
  intros E. apply (f_equal String.length) in E.
  rewrite string_length_append in E. cbn [String.length] in E. lia.
Qed.

Lemma derivedFieldsAgree_makeRecord (cat : Category) (n a b ts : Z) (s : State) :
  0 <= a -> 0 <= b -> derivedFieldsAgree (makeRecord cat n a b ts s).
Proof.
  intros Ha Hb.
  assert (Out : forall (t1 t2 : Z) (w l : string),
             w <> "Draw"%string -> l <> "Draw"%string ->
             ((if t1 =? t2 then "Draw"%string else if t1 >? t2 then w else l)
              = "Draw"%string <-> t1 = t2)).
  { intros t1 t2 w l Hw Hl. destruct (Z.eqb_spec t1 t2) as [E | E].
    - split; auto.
    - destruct (t1 >? t2); split; intros; congruence. }
  assert (OW : "Opponent Wins"%string <> "Draw"%string) by discriminate.
  unfold derivedFieldsAgree.
  destruct cat; cbn [makeRecord team1Score team2Score totalScore marginOfVictory
                     cleanSheet goalEfficiency outcome];
    (repeat split; try lia; try reflexivity;
     try (apply Out; auto using append_Wins_not_Draw);
     try (destruct (Z.gtb_spec (a + b) 0) as [G | G];
          [ first [ apply (goalEfficiency_range a b); assumption
                  | rewrite Z.max_comm;
                    apply (goalEfficiency_range a b); assumption ]
          | unfold Qle; cbn; lia ])).
Qed.

Lemma addLoop_Forall (clock : nat -> Z) (cat : Category)
    (scores1 scores2 : list (option Z)) (minLength : nat)
    (P : MatchRecord -> Prop) :
  (forall (i : nat) (ts : Z) (s : State),
     P (makeRecord cat (Z.of_nat i + 1) (scoreAt scores1 i) (scoreAt scores2 i) ts s)) ->
  forall (steps i : nat) (s : State),
    Forall P (getCategory (matchData s) cat) ->
    Forall P
      (getCategory (matchData (addLoop clock cat scores1 scores2 minLength steps i s)) cat).
Proof.
  intros HP. induction steps as [| steps IH]; intros i s H; cbn [addLoop]; [exact H |].
  unfold Date_now. apply IH.
  match goal with
  | |- context [processMatchScore clock cat ?n ?a ?b ?ts ?s0] =>
    destruct (processMatchScore_category clock cat n a b ts s0) as [ts' Hp]
  end.
  eapply Permutation_Forall; [symmetry; exact Hp |].
  apply Forall_app. split; [exact H |].
  constructor; [apply HP | constructor].
Qed.

(** X15: every record an add handler stores has non-negative scores and
    derived fields that agree with them: totalScore is their sum,
    marginOfVictory their absolute difference (never above the total),
    cleanSheet says whether one of them is 0, goalEfficiency lies
    between 1/2 and 1, the outcome label is "Draw" exactly when they are
    equal; and the record carries the category it is stored under. *)
Theorem stored_records_are_consistent
    (clock : nat -> Z) (cat : Category) (scores1 scores2 : list (option Z))
    (s : State) :
  validateScores scores1 scores2 = true ->
  Forall (fun r => derivedFieldsAgree r /\ category r = cat)
    (getCategory (matchData (handleAdd clock cat scores1 scores2 s)) cat).
Proof.
  intros Hv.
  destruct (validateScores_true _ _ Hv) as (_ & _ & G1 & G2 & _).
  unfold handleAdd. rewrite Hv. cbn [negb].
  apply addLoop_Forall.
  - intros i ts s'. split.
    + apply derivedFieldsAgree_makeRecord; apply scoreAt_nonneg; assumption.
    + destruct cat; reflexivity.
  - cbn [matchData set_matchData].
    rewrite getCategory_setCategory, Category_eqb_refl. constructor.
Qed.

Lemma stored_records_witness :
  validateScores [Some 3; Some 0] [Some 0; Some 0] = true /\
  Forall (fun r => derivedFieldsAgree r /\ category r = C_team2)
    (team2 (matchData (handleTeam2Add (fun _ => 1700000000000)
                         [Some 3; Some 0] [Some 0; Some 0] initialState))).
Proof.
  split; [reflexivity |].
  exact (stored_records_are_consistent (fun _ => 1700000000000) C_team2
           [Some 3; Some 0] [Some 0; Some 0] initialState eq_refl).
Defined.

(** *** The spread-cover label *)

Lemma Qle_bool_false (x y : Q) : Qle_bool x y = false <-> (y < x)%Q.
Proof.
  split.
  - intros H. apply Qnot_le_lt. intros L. apply Qle_bool_iff in L. congruence.
  - intros H. destruct (Qle_bool x y) eqn:E; [| reflexivity].
    apply Qle_bool_iff in E. exfalso. apply (Qlt_not_le _ _ H). exact E.
Qed.

Ltac iff_case :=
  split; intros H;
  [ try discriminate; try (split; Lqa.lra); try Lqa.lra
  | try reflexivity; try (exfalso; Lqa.lra);
    try (exfalso; destruct H; Lqa.lra) ].

(** X16: for whole scores below 2^31 and a spread that is a multiple of
    1/1024 (where the code's double arithmetic is exact),
    [calculateSpreadCover] returns no label exactly when no positive
    spread is set; otherwise it labels the score by comparing the
    favourite's goal difference with the spread: "Favorite Covered" when
    the difference is larger, "Underdog Covered" when it is smaller,
    "Push" when it is equal. On such inputs a spread that is not a whole
    number never gives "Push". (The first part says why the range is
    exact: the favourite's score minus the spread is a multiple of
    1/1024 whose numerator is below 2^53.) *)
Theorem spread_cover_compares_difference_with_spread
    (s : State) (team1Score team2Score : Z) :
  exactSpreadInputs s team1Score team2Score ->
  let difference :=
    if String.eqb (spreadDirection s) "team1"
    then team1Score - team2Score else team2Score - team1Score in
  (forall favorite : Z,
     favorite = team1Score \/ favorite = team2Score ->
     exists n : Z,
       Z.abs n < 2 ^ 53 /\ (inject_Z favorite - pointSpread s == n # 1024)%Q) /\
  (calculateSpreadCover s team1Score team2Score = None <-> (pointSpread s <= 0)%Q) /\
  (calculateSpreadCover s team1Score team2Score = Some FavoriteCovered <->
   (0 < pointSpread s)%Q /\ (pointSpread s < inject_Z difference)%Q) /\
  (calculateSpreadCover s team1Score team2Score = Some UnderdogCovered <->
   (0 < pointSpread s)%Q /\ (inject_Z difference < pointSpread s)%Q) /\
  (calculateSpreadCover s team1Score team2Score = Some Push <->
   (0 < pointSpread s)%Q /\ (pointSpread s == inject_Z difference)%Q) /\
  ((forall z : Z, ~ (pointSpread s == inject_Z z)%Q) ->
   calculateSpreadCover s team1Score team2Score <> Some Push).
Proof.
  intros (R1 & R2 & k & Rk & Hk) difference.
  split.
  { intros favorite Hf. exists (1024 * favorite - k)%Z. split.
    - destruct Hf as [-> | ->]; lia.
    - rewrite Hk. unfold Qeq, Qminus, Qplus, Qopp, inject_Z.
      cbn [Qnum Qden]. lia. }
  assert (D : forall fav opp : Z,
             (inject_Z (fav - opp) == inject_Z fav - inject_Z opp)%Q).
  { intros. unfold Zminus. rewrite inject_Z_plus, inject_Z_opp. reflexivity. }
  assert (Main :
    (calculateSpreadCover s team1Score team2Score = None <-> (pointSpread s <= 0)%Q) /\
    (calculateSpreadCover s team1Score team2Score = Some FavoriteCovered <->
     (0 < pointSpread s)%Q /\ (pointSpread s < inject_Z difference)%Q) /\
    (calculateSpreadCover s team1Score team2Score = Some UnderdogCovered <->
     (0 < pointSpread s)%Q /\ (inject_Z difference < pointSpread s)%Q) /\
    (calculateSpreadCover s team1Score team2Score = Some Push <->
     (0 < pointSpread s)%Q /\ (pointSpread s == inject_Z difference)%Q)).
  { unfold calculateSpreadCover, difference.
    destruct (Qle_bool (pointSpread s) 0) eqn:E0.
    - apply Qle_bool_iff in E0.
      split; [| split; [| split]]; iff_case.
    - apply Qle_bool_false in E0.
      destruct (String.eqb (spreadDirection s) "team1");
        match goal with
        | |- context [Qle_bool (inject_Z ?fav - pointSpread s) (inject_Z ?opp)] =>
          pose proof (D fav opp) as Dd;
          destruct (Qle_bool (inject_Z fav - pointSpread s) (inject_Z opp)) eqn:E1;
          [ apply Qle_bool_iff in E1;
            destruct (Qle_bool (inject_Z opp) (inject_Z fav - pointSpread s)) eqn:E2;
            [ apply Qle_bool_iff in E2 | apply Qle_bool_false in E2 ]
          | apply Qle_bool_false in E1 ]
        end; cbn [negb];
        (split; [| split; [| split]]); iff_case. }
  destruct Main as (M1 & M2 & M3 & M4).
  split; [exact M1 |]. split; [exact M2 |]. split; [exact M3 |].
  split; [exact M4 |].
  intros Hz E. apply M4 in E. destruct E as [_ E]. exact (Hz _ E).
Qed.

Lemma half_is_no_integer (z : Z) : ~ (1 # 2 == inject_Z z)%Q.
Proof. unfold Qeq. cbn [Qnum Qden inject_Z]. lia. Qed.

Lemma half_goal_spread_is_exact :
  exactSpreadInputs (set_lines initialState 0 (1 # 2) "team1") 2 1.
Proof.
  unfold exactSpreadInputs. split; [lia |]. split; [lia |].
  exists 512%Z. split; [lia | reflexivity].
Qed.

Lemma spread_cover_witness :
  exactSpreadInputs (set_lines initialState 0 (1 # 2) "team1") 2 1 /\
  calculateSpreadCover (set_lines initialState 0 (1 # 2) "team1") 2 1
    <> Some Push.
Proof.
  split; [exact half_goal_spread_is_exact |].
  exact (proj2 (proj2 (proj2 (proj2 (proj2
    (spread_cover_compares_difference_with_spread
       (set_lines initialState 0 (1 # 2) "team1") 2 1
       half_goal_spread_is_exact)))))
    half_is_no_integer).
Defined.

(** *** Clearing the store *)

(** X17: [clearAllData] leaves the store untouched when matches are stored
    and the user declines the confirmation; in every other case it empties
    the three sequences and keeps every other global, and the next
    Analyze is turned away by [validateInputs] whatever the user answers
    there. *)
Theorem clearing_the_store (confirmAnswer : bool) (s : State) :
  ((0 < getTotalMatchCount s)%nat -> confirmAnswer = false ->
   clearAllData confirmAnswer s = s) /\
  (getTotalMatchCount s = 0%nat \/ confirmAnswer = true ->
   allRecords (matchData (clearAllData confirmAnswer s)) = [] /\
   clearAllData confirmAnswer s =
     set_matchData s {| h2h := []; team1 := []; team2 := [] |} /\
   forall answer : bool, validateInputs answer (clearAllData confirmAnswer s) = false).
Proof.
  unfold clearAllData. split.
  - intros Hn ->. apply Nat.ltb_lt in Hn. rewrite Hn. reflexivity.
  - intros H.
    assert (E : Nat.ltb 0 (getTotalMatchCount s) && negb confirmAnswer = false).
    { destruct H as [H | H].
      - rewrite H. reflexivity.
      - rewrite H. apply andb_false_r. }
    rewrite E. split; [reflexivity |]. split; [reflexivity |].
    intros answer. reflexivity.
Qed.

Lemma clearing_the_store_witness :
  clearAllData false
    (handleH2HAdd (fun _ => 1700000000000) [Some 1] [Some 0] initialState) =
  handleH2HAdd (fun _ => 1700000000000) [Some 1] [Some 0] initialState /\
  allRecords (matchData (clearAllData true
    (handleH2HAdd (fun _ => 1700000000000) [Some 1] [Some 0] initialState))) = [].
Proof.
  split.
  - apply (proj1 (clearing_the_store false
      (handleH2HAdd (fun _ => 1700000000000) [Some 1] [Some 0] initialState)));
      [vm_compute; lia | reflexivity].
  - apply (proj2 (clearing_the_store true
      (handleH2HAdd (fun _ => 1700000000000) [Some 1] [Some 0] initialState))).
    right. reflexivity.
Defined.

End StoreExtras.

(** ** Betting edges and recommendations *)

Module BettingExtras.
Import Store Betting.
Local Open Scope string_scope.
Local Open Scope R_scope.

Lemma Q2R_zero : Q2R 0 = 0.
Proof. unfold Q2R. cbn [Qnum Qden]. lra. Qed.

Lemma Q2R_pos (q : Q) : (0 < q)%Q -> 0 < Q2R q.
Proof. intros H. apply Qreals.Qlt_Rlt in H. rewrite Q2R_zero in H. exact H. Qed.

Lemma line_set (q : Q) : (0 < q)%Q -> Qle_bool q 0 = false.
Proof.
  intros H. destruct (Qle_bool q 0) eqn:E; [| reflexivity].
  apply Qle_bool_iff in E. exfalso. exact (Qlt_not_le _ _ H E).
Qed.

(** An edge [x / M * 100] with a positive [M] compared with a threshold. *)
Lemma edge_gt (x M t : R) : 0 < M -> (x / M * 100 > t <-> 100 * x > t * M).
Proof.
  intros HM.
  assert (E : x = x / M * M) by (field; lra).
  generalize dependent (x / M). intros e ->.
  split; intros H; nra.
Qed.

Lemma edge_lt (x M t : R) : 0 < M -> (x / M * 100 < t <-> 100 * x < t * M).
Proof.
  intros HM.
  assert (E : x = x / M * M) by (field; lra).
  generalize dependent (x / M). intros e ->.
  split; intros H; nra.
Qed.

Lemma Rmax_1_pos (x : R) : 0 < Rmax 1 x.
Proof. pose proof (Rmax_l 1 x). lra. Qed.

Ltac edges :=
  repeat match goal with
  | H : _ / Rmax 1 _ * 100 > _ |- _ => apply edge_gt in H; [| apply Rmax_1_pos]
  | H : _ / Rmax 1 _ * 100 < _ |- _ => apply edge_lt in H; [| apply Rmax_1_pos]
  | H : ~ _ / Rmax 1 _ * 100 > _ |- _ =>
    rewrite edge_gt in H by apply Rmax_1_pos
  | H : ~ _ / Rmax 1 _ * 100 < _ |- _ =>
    rewrite edge_lt in H by apply Rmax_1_pos
  end.

Ltac tests :=
  unfold JS.gtb, JS.ltb;
  repeat match goal with
  | |- context [Rgt_dec ?a ?b] => destruct (Rgt_dec a b)
  | |- context [Rlt_dec ?a ?b] => destruct (Rlt_dec a b)
  end.

(** X20: with a total line above 0 and not above 12.5, the over/under
    recommendation follows the projection: "OVER" or "STRONG OVER" is
    returned only when the projected total is above the line, "UNDER" or
    "STRONG UNDER" only when it is below. *)
Theorem total_recommendation_follows_projection (s : State) (projectedTotal : R) :
  (0 < totalLine s)%Q -> (totalLine s <= 25 # 2)%Q ->
  (recommendsOver (totalRecommendation s projectedTotal) ->
   Q2R (totalLine s) < projectedTotal) /\
  (recommendsUnder (totalRecommendation s projectedTotal) ->
   projectedTotal < Q2R (totalLine s)).
Proof.
  intros Hpos Hle.
  pose proof (Q2R_pos _ Hpos) as Lpos.
  apply Qreals.Qle_Rle in Hle.
  replace (Q2R (25 # 2)) with (25 / 2) in Hle
    by (unfold Q2R; cbn [Qnum Qden]; lra).
  unfold totalRecommendation, calculateOverUnderRecommendation, overUnderEdge.
  rewrite (line_set _ Hpos). cbn [negb].
  set (L := Q2R (totalLine s)) in *.
  pose proof (Rmax_1_pos L) as Mpos.
  assert (F : 0 <= 1 - Rabs (L - 25 / 10) * (1 / 10)).
  { unfold Rabs. destruct (Rcase_abs (L - 25 / 10)); lra. }
  set (f := 1 - Rabs (L - 25 / 10) * (1 / 10)) in *.
  tests; cbn [recommendsOver recommendsUnder]; edges;
    split; intros H; try contradiction; nra.
Qed.

Lemma total_recommendation_witness :
  recommendsOver (totalRecommendation (withLines (5 # 2) 0 "team1") 3) /\
  Q2R (5 # 2) < 3.
Proof.
  assert (H1 : (0 < totalLine (withLines (5 # 2) 0 "team1"))%Q) by reflexivity.
  assert (H2 : (totalLine (withLines (5 # 2) 0 "team1") <= 25 # 2)%Q)
    by (unfold Qle; cbn; lia).
  assert (H3 : recommendsOver (totalRecommendation (withLines (5 # 2) 0 "team1") 3)).
  { unfold totalRecommendation, calculateOverUnderRecommendation, overUnderEdge.
    cbn [withLines set_lines totalLine Qle_bool Qnum Qden Z.leb Z.mul Z.compare
         Pos.mul Pos.compare Pos.compare_cont negb].
    replace (Q2R (5 # 2)) with (5 / 2) by (unfold Q2R; cbn [Qnum Qden]; lra).
    replace (Rmax 1 (5 / 2)) with (5 / 2) by (symmetry; apply Rmax_right; lra).
    replace (5 / 2 - 25 / 10) with 0 by lra. rewrite Rabs_R0.
    tests; cbn [recommendsOver]; try exact I; exfalso; lra. }
  split; [exact H3 |].
  exact (proj1 (total_recommendation_follows_projection _ 3 H1 H2) H3).
Defined.

(** X21: with a total line above 12.5 both thresholds are negative, and
    every projection gets a strong recommendation: "NO CLEAR EDGE", "OVER"
    and "UNDER" are never returned, and a projected total equal to the
    line or above it gives "STRONG OVER". *)
Theorem high_total_line_is_always_strong (s : State) (projectedTotal : R) :
  (25 # 2 < totalLine s)%Q ->
  (totalRecommendation s projectedTotal = StrongOver (totalLine s) \/
   totalRecommendation s projectedTotal = StrongUnder (totalLine s)) /\
  (Q2R (totalLine s) <= projectedTotal ->
   totalRecommendation s projectedTotal = StrongOver (totalLine s)).
Proof.
  intros Hhigh.
  assert (Hpos : (0 < totalLine s)%Q).
  { apply Qlt_trans with (25 # 2); [reflexivity | exact Hhigh]. }
  pose proof (Q2R_pos _ Hpos) as Lpos.
  apply Qreals.Qlt_Rlt in Hhigh.
  replace (Q2R (25 # 2)) with (25 / 2) in Hhigh
    by (unfold Q2R; cbn [Qnum Qden]; lra).
  unfold totalRecommendation, calculateOverUnderRecommendation, overUnderEdge.
  rewrite (line_set _ Hpos). cbn [negb].
  set (L := Q2R (totalLine s)) in *.
  pose proof (Rmax_1_pos L) as Mpos.
  assert (F : 1 - Rabs (L - 25 / 10) * (1 / 10) < 0).
  { unfold Rabs. destruct (Rcase_abs (L - 25 / 10)); lra. }
  set (f := 1 - Rabs (L - 25 / 10) * (1 / 10)) in *.
  tests; edges; split; intros; auto; try (exfalso; nra).
Qed.

Lemma high_total_line_witness :
  totalRecommendation (withLines (27 # 2) 0 "team1") (Q2R (27 # 2)) =
  StrongOver (27 # 2).
Proof.
  assert (H1 : (25 # 2 < totalLine (withLines (27 # 2) 0 "team1"))%Q)
    by reflexivity.
  apply (proj2 (high_total_line_is_always_strong
                  (withLines (27 # 2) 0 "team1") (Q2R (27 # 2)) H1)).
  cbn [withLines set_lines totalLine]. lra.
Defined.

Lemma spread_quality (p : R) :
  0 < p -> 7 / 10 <= 1 - Rmax 0 (3 - p) * (1 / 10) <= 1.
Proof.
  intros Hp. unfold Rmax. destruct (Rle_dec 0 (3 - p)); lra.
Qed.

(** X22: when team1 is the favourite of a positive spread, the spread
    recommendation follows the projection: the favourite (team1) is
    recommended only when the projected margin is above the spread, the
    underdog (team2) only when it is below; a projected margin inside
    (-0.3, 0.3) gives "NO CLEAR EDGE". *)
Theorem spread_recommendation_with_team1_favourite (s : State) (projectedMargin : R) :
  spreadDirection s = "team1" -> (0 < pointSpread s)%Q ->
  (forall strong team spread,
     spreadRecommendation s projectedMargin = FavoriteSpread strong team spread ->
     team = team1Name s /\ spread = pointSpread s /\
     Q2R (pointSpread s) < projectedMargin) /\
  (forall strong team spread,
     spreadRecommendation s projectedMargin = UnderdogSpread strong team spread ->
     team = team2Name s /\ spread = pointSpread s /\
     projectedMargin < Q2R (pointSpread s)) /\
  (Rabs projectedMargin < 3 / 10 ->
   spreadRecommendation s projectedMargin = SpreadNoClearEdge).
Proof.
  intros Hdir Hpos.
  pose proof (Q2R_pos _ Hpos) as Ppos.
  unfold spreadRecommendation, calculateSpreadRecommendation, spreadEdge.
  rewrite (line_set _ Hpos), Hdir. cbn [negb String.eqb Ascii.eqb Bool.eqb].
  set (P := Q2R (pointSpread s)) in *.
  pose proof (spread_quality P Ppos) as F.
  set (f := 1 - Rmax 0 (3 - P) * (1 / 10)) in *.
  pose proof (Rmax_1_pos (Rabs P)) as Mpos.
  tests; edges;
    (split; [| split]); intros; try discriminate; try reflexivity;
    try (exfalso; lra);
    match goal with
    | H : FavoriteSpread _ _ _ = FavoriteSpread _ _ _ |- _ =>
      injection H as _ <- <-
    | H : UnderdogSpread _ _ _ = UnderdogSpread _ _ _ |- _ =>
      injection H as _ <- <-
    end;
    (split; [reflexivity |]); (split; [reflexivity |]); nra.
Qed.

Lemma spread_recommendation_team1_witness :
  spreadRecommendation (withLines 0 1 "team1") 0 = SpreadNoClearEdge.
Proof.
  apply (proj2 (proj2 (spread_recommendation_with_team1_favourite
                         (withLines 0 1 "team1") 0 eq_refl eq_refl))).
  rewrite Rabs_R0. lra.
Defined.

(** X23: when team2 is the favourite of a positive spread, the edge is
    measured from minus the spread upwards. A projection of team1 winning
    by 0.3 or more therefore always recommends "STRONG" the favourite
    team2 to cover, and a projection of team2 winning by the spread or
    more never recommends the favourite. *)
Theorem spread_recommendation_with_team2_favourite (s : State) (projectedMargin : R) :
  spreadDirection s <> "team1" -> (0 < pointSpread s)%Q ->
  (3 / 10 <= projectedMargin ->
   spreadRecommendation s projectedMargin =
     FavoriteSpread true (team2Name s) (pointSpread s)) /\
  (projectedMargin <= - Q2R (pointSpread s) ->
   forall strong team spread,
     spreadRecommendation s projectedMargin <> FavoriteSpread strong team spread).
Proof.
  intros Hdir Hpos.
  pose proof (Q2R_pos _ Hpos) as Ppos.
  apply String.eqb_neq in Hdir.
  unfold spreadRecommendation, calculateSpreadRecommendation, spreadEdge.
  rewrite (line_set _ Hpos), Hdir. cbn [negb].
  set (P := Q2R (pointSpread s)) in *.
  pose proof (spread_quality P Ppos) as F.
  set (f := 1 - Rmax 0 (3 - P) * (1 / 10)) in *.
  pose proof (Rmax_1_pos (Rabs (- P))) as Mpos.
  assert (A : Rabs (- P) = P).
  { rewrite Rabs_Ropp. apply Rabs_pos_eq. lra. }
  assert (M : Rmax 1 (Rabs (- P)) <= 1 + P).
  { rewrite A. unfold Rmax. destruct (Rle_dec 1 P); lra. }
  assert (M' : P <= Rmax 1 (Rabs (- P))).
  { rewrite A. apply Rmax_r. }
  assert (Am : 3 / 10 <= projectedMargin -> ~ Rabs projectedMargin < 3 / 10).
  { intros H. rewrite Rabs_pos_eq by lra. lra. }
  tests; edges; set (D := Rmax 1 (Rabs (- P))) in *;
    split; intros; try discriminate; try reflexivity;
    try (exfalso; tauto); try (exfalso; nra).
Qed.

Lemma spread_recommendation_team2_witness :
  spreadRecommendation (withLines 0 (3 # 2) "team2") 2 =
  FavoriteSpread true "Team 2" (3 # 2).
Proof.
  assert (H1 : spreadDirection (withLines 0 (3 # 2) "team2") <> "team1")
    by discriminate.
  assert (H2 : (0 < pointSpread (withLines 0 (3 # 2) "team2"))%Q) by reflexivity.
  apply (proj1 (spread_recommendation_with_team2_favourite
                  (withLines 0 (3 # 2) "team2") 2 H1 H2)).
  lra.
Defined.

(** *** The projected score line *)

Lemma round_bounds (x : R) : x - 1 / 2 < Pipeline.round x <= x + 1 / 2.
Proof.
  unfold Pipeline.round.
  destruct (base_Int_part (x + 1 / 2)) as [H1 H2]. lra.
Qed.

Lemma round_mono (x y : R) : x <= y -> Pipeline.round x <= Pipeline.round y.
Proof.
  intros H. unfold Pipeline.round.
  destruct (base_Int_part (x + 1 / 2)) as [X1 X2].
  destruct (base_Int_part (y + 1 / 2)) as [Y1 Y2].
  apply IZR_le.
  assert (L : IZR (Int_part (x + 1 / 2)) < IZR (Int_part (y + 1 / 2) + 1)).
  { rewrite plus_IZR. lra. }
  apply lt_IZR in L. lia.
Qed.

Lemma round_nonneg (x : R) : - (1 / 2) <= x -> 0 <= Pipeline.round x.
Proof.
  intros H. unfold Pipeline.round.
  destruct (base_Int_part (x + 1 / 2)) as [X1 X2].
  apply (IZR_le 0).
  assert (L : IZR (-1) < IZR (Int_part (x + 1 / 2))) by lra.
  apply lt_IZR in L. lia.
Qed.

(** X30: the two projected scores that [performAnalysis] shows side with
    the margin (the team the margin favours never gets the lower score)
    and add up to within 1 of the projected total. Neither is negative
    as long as the margin is at most the total plus 1 in size; a margin
    above that shows a negative score for team2. *)
Theorem projected_scores_follow_total_and_margin (projectedTotal adjustedMargin : R) :
  (0 <= adjustedMargin ->
   team2ProjScore projectedTotal adjustedMargin <=
   team1ProjScore projectedTotal adjustedMargin) /\
  (adjustedMargin <= 0 ->
   team1ProjScore projectedTotal adjustedMargin <=
   team2ProjScore projectedTotal adjustedMargin) /\
  (projectedTotal - 1 <
   team1ProjScore projectedTotal adjustedMargin +
   team2ProjScore projectedTotal adjustedMargin <= projectedTotal + 1) /\
  (Rabs adjustedMargin <= projectedTotal + 1 ->
   0 <= team1ProjScore projectedTotal adjustedMargin /\
   0 <= team2ProjScore projectedTotal adjustedMargin) /\
  (projectedTotal + 1 < adjustedMargin ->
   team2ProjScore projectedTotal adjustedMargin < 0).
Proof.
  unfold team1ProjScore, team2ProjScore.
  pose proof (round_bounds (projectedTotal / 2 + adjustedMargin / 2)) as B1.
  pose proof (round_bounds (projectedTotal / 2 - adjustedMargin / 2)) as B2.
  split; [| split; [| split; [| split]]].
  - intros H. apply round_mono. lra.
  - intros H. apply round_mono. lra.
  - lra.
  - intros H. unfold Rabs in H.
    destruct (Rcase_abs adjustedMargin); split; apply round_nonneg; lra.
  - intros H. lra.
Qed.

Lemma projected_scores_witness :
  team2ProjScore 3 1 <= team1ProjScore 3 1 /\
  team2ProjScore 1 3 < 0.
Proof.
  split.
  - apply (proj1 (projected_scores_follow_total_and_margin 3 1)). lra.
  - apply (proj2 (proj2 (proj2 (proj2
      (projected_scores_follow_total_and_margin 1 3))))). lra.
Defined.

End BettingExtras.

(** ** The extractors and the analysis pipeline *)

Module PipelineExtras.
Import Store StoreOps Pipeline PipelineOps.
Local Open Scope string_scope.
Local Open Scope R_scope.

(** *** Weighted loops and sorted copies *)

Section WeightedLoop.
Context {A : Type}.
Variable weight : nat -> R.
Variable value : A -> R.
Hypothesis weight_nonneg : forall i : nat, 0 <= weight i.

Lemma weightedLoop_weight (l : list A) (index : nat) (ws tw : R) :
  tw <= snd (weightedLoop weight value l index ws tw).
Proof.
  revert index ws tw.
  induction l as [| x l IH]; intros index ws tw; cbn [weightedLoop snd].
  - lra.
  - eapply Rle_trans; [| apply IH]. pose proof (weight_nonneg index). lra.
Qed.

Lemma weightedLoop_upper (hi : R) (l : list A) :
  (forall x, In x l -> value x <= hi) ->
  forall (index : nat) (ws tw : R), ws <= hi * tw ->
  fst (weightedLoop weight value l index ws tw) <=
  hi * snd (weightedLoop weight value l index ws tw).
Proof.
  induction l as [| x l IH]; intros Hv index ws tw H; cbn [weightedLoop fst snd].
  - exact H.
  - apply IH; [intros y Hy; apply Hv; right; exact Hy |].
    pose proof (weight_nonneg index). pose proof (Hv x (or_introl eq_refl)). nra.
Qed.

Lemma weightedLoop_lower (lo : R) (l : list A) :
  (forall x, In x l -> lo <= value x) ->
  forall (index : nat) (ws tw : R), lo * tw <= ws ->
  lo * snd (weightedLoop weight value l index ws tw) <=
  fst (weightedLoop weight value l index ws tw).
Proof.
  induction l as [| x l IH]; intros Hv index ws tw H; cbn [weightedLoop fst snd].
  - exact H.
  - apply IH; [intros y Hy; apply Hv; right; exact Hy |].
    pose proof (weight_nonneg index). pose proof (Hv x (or_introl eq_refl)). nra.
Qed.

Lemma weightedLoop_positive (l : list A) (index : nat) (ws tw : R) :
  (forall i : nat, 0 < weight i) -> l <> [] -> 0 <= tw ->
  0 < snd (weightedLoop weight value l index ws tw).
Proof.
  intros Hw Hl Ht. destruct l as [| x l]; [congruence |].
  cbn [weightedLoop]. eapply Rlt_le_trans; [| apply weightedLoop_weight].
  specialize (Hw index). lra.
Qed.

End WeightedLoop.

Lemma ratio_bounds (lo hi a n : R) :
  0 < n -> lo * n <= a <= hi * n -> lo <= a / n <= hi.
Proof.
  intros Hn H.
  assert (E : a = a / n * n) by (field; lra).
  generalize dependent (a / n). intros e ->. split; nra.
Qed.

Lemma insertBy_perm {A : Type} (cmp : A -> A -> Z) (x : A) (l : list A) :
  Permutation (insertBy cmp x l) (x :: l).
Proof.
  induction l as [| y l IH]; cbn [insertBy].
  - reflexivity.
  - destruct (cmp x y <=? 0)%Z; [reflexivity |].
    rewrite IH. apply perm_swap.
Qed.

Lemma sortBy_perm {A : Type} (cmp : A -> A -> Z) (l : list A) :
  Permutation (sortBy cmp l) l.
Proof.
  induction l as [| x l IH]; cbn [sortBy fold_right].
  - reflexivity.
  - fold (sortBy cmp l). rewrite insertBy_perm, IH. reflexivity.
Qed.

Lemma sortBy_length {A : Type} (cmp : A -> A -> Z) (l : list A) :
  List.length (sortBy cmp l) = List.length l.
Proof. apply Permutation_length, sortBy_perm. Qed.

Lemma countIf_le {A : Type} (f : A -> bool) (l : list A) :
  (countIf f l <= List.length l)%nat.
Proof.
  unfold countIf. induction l as [| x l IH]; cbn [filter List.length].
  - lia.
  - destruct (f x); cbn [List.length]; lia.
Qed.

Lemma countIf_none {A : Type} (f : A -> bool) (l : list A) :
  Forall (fun x => f x = false) l -> countIf f l = 0%nat.
Proof.
  unfold countIf. induction 1 as [| x l Hx _ IH]; cbn [filter].
  - reflexivity.
  - rewrite Hx. exact IH.
Qed.

(** *** Head-to-head advantage *)

Lemma h2hValue_range (s : State) (m : MatchRecord) : -1 <= h2hValue s m <= 1.
Proof.
  unfold h2hValue.
  destruct (String.eqb (outcome m) (team1WinString s)); [lra |].
  destruct (String.eqb (outcome m) (team2WinString s)); lra.
Qed.

Lemma exp_weight_pos (i : nat) : 0 < exp (- (2 / 10) * INR i).
Proof. apply exp_pos. Qed.

(** X24: the head-to-head advantage always lies between -1 and 1, and it
    is 0 when no head-to-head match is stored. *)
Theorem h2h_advantage_range (s : State) :
  -1 <= calculateH2HAdvantage s <= 1 /\
  (h2h (matchData s) = [] -> calculateH2HAdvantage s = 0).
Proof.
  unfold calculateH2HAdvantage. fold (h2hValue s).
  set (l := h2h (matchData s)).
  split; [| intros ->; reflexivity].
  destruct (Nat.eqb (List.length l) 0) eqn:E; [lra |].
  apply Nat.eqb_neq in E.
  pose proof (countIf_le (fun m => String.eqb (outcome m) (team1WinString s)) l) as C1.
  pose proof (countIf_le (fun m => String.eqb (outcome m) (team2WinString s)) l) as C2.
  apply le_INR in C1. apply le_INR in C2.
  set (w1 := INR (countIf (fun m => String.eqb (outcome m) (team1WinString s)) l)) in *.
  set (w2 := INR (countIf (fun m => String.eqb (outcome m) (team2WinString s)) l)) in *.
  assert (P1 : 0 <= w1) by apply pos_INR.
  assert (P2 : 0 <= w2) by apply pos_INR.
  assert (N : 0 < INR (List.length l)) by (apply lt_0_INR; lia).
  assert (Ratio : -1 <= (w1 - w2) / INR (List.length l) <= 1).
  { apply ratio_bounds; [exact N | lra]. }
  set (weight := fun index : nat => exp (- (2 / 10) * INR index)).
  assert (Wn : forall i : nat, 0 <= weight i).
  { intros i. left. apply exp_pos. }
  pose proof (weightedLoop_upper weight (h2hValue s) Wn 1
                (sortBy newestFirst l)
                (fun x _ => proj2 (h2hValue_range s x)) 0%nat 0 0) as U.
  pose proof (weightedLoop_lower weight (h2hValue s) Wn (-1)
                (sortBy newestFirst l)
                (fun x _ => proj1 (h2hValue_range s x)) 0%nat 0 0) as Lw.
  destruct (weightedLoop weight (h2hValue s) (sortBy newestFirst l) 0 0 0)
    as [weightedAdvantage totalWeight].
  cbn [fst snd] in U, Lw.
  assert (Norm : -1 <= (if Rlt_dec 0 totalWeight
                        then weightedAdvantage / totalWeight else 0) <= 1).
  { destruct (Rlt_dec 0 totalWeight); [| lra].
    apply ratio_bounds; [assumption |]. split; [apply Lw | apply U]; lra. }
  lra.
Qed.

Lemma h2h_advantage_range_witness : calculateH2HAdvantage initialState = 0.
Proof. exact (proj2 (h2h_advantage_range initialState) eq_refl). Defined.

Lemma weightedLoop_zero {A : Type} (weight : nat -> R) (value : A -> R) (l : list A) :
  (forall x, In x l -> value x = 0) ->
  forall (index : nat) (ws tw : R),
    fst (weightedLoop weight value l index ws tw) = ws.
Proof.
  induction l as [| x l IH]; intros Hv index ws tw; cbn [weightedLoop fst].
  - reflexivity.
  - rewrite IH by (intros y Hy; apply Hv; right; exact Hy).
    rewrite (Hv x (or_introl eq_refl)). lra.
Qed.

(** X25: the head-to-head advantage is computed from the stored outcome
    labels compared with the current team names, not from the scores:
    when no head-to-head record carries the label "<team1Name> Wins" or
    "<team2Name> Wins" (all draws, or the teams were renamed after the
    results were entered), the advantage is 0 whatever the scores. *)
Theorem h2h_advantage_reads_labels (s : State) :
  noWinLabel s -> calculateH2HAdvantage s = 0.
Proof.
  unfold noWinLabel, calculateH2HAdvantage. fold (h2hValue s).
  set (l := h2h (matchData s)). intros H.
  destruct (Nat.eqb (List.length l) 0); [reflexivity |].
  rewrite !countIf_none.
  2: { eapply Forall_impl; [| exact H]. intros m [_ Hm]. cbv beta.
       apply String.eqb_neq. exact Hm. }
  2: { eapply Forall_impl; [| exact H]. intros m [Hm _]. cbv beta.
       apply String.eqb_neq. exact Hm. }
  pose proof (weightedLoop_zero (fun index : nat => exp (- (2 / 10) * INR index))
                (h2hValue s) (sortBy newestFirst l)) as Z0.
  destruct (weightedLoop _ (h2hValue s) (sortBy newestFirst l) 0 0 0)
    as [weightedAdvantage totalWeight] eqn:E.
  assert (W0 : weightedAdvantage = 0).
  { specialize (Z0 ltac:(
      intros x Hx; apply (Permutation_in _ (sortBy_perm newestFirst l)) in Hx;
      rewrite Forall_forall in H; destruct (H x Hx) as [H1 H2];
      unfold h2hValue;
      apply String.eqb_neq in H1; apply String.eqb_neq in H2;
      rewrite H1, H2; reflexivity) 0%nat 0 0).
    rewrite E in Z0. exact Z0. }
  rewrite W0. cbn [INR].
  destruct (Rlt_dec 0 totalWeight); unfold Rdiv; lra.
Qed.

Lemma h2h_advantage_reads_labels_witness :
  calculateH2HAdvantage
    (set_names
       (handleH2HAdd (fun _ => 1700000000000%Z) [Some 3%Z] [Some 0%Z] initialState)
       "Liverpool" "Manchester City") = 0.
Proof.
  apply h2h_advantage_reads_labels.
  unfold noWinLabel. vm_compute. constructor; [| constructor].
  split; discriminate.
Defined.

(** *** Clean-sheet statistics *)

Lemma applyRecencyWeight_bounds (matches : list MatchRecord)
    (checkFn : MatchRecord -> bool) :
  (fst (applyRecencyWeight matches checkFn) <= List.length matches)%nat /\
  0 <= snd (applyRecencyWeight matches checkFn) <= 100.
Proof.
  unfold applyRecencyWeight.
  set (weight := fun index : nat => (9 / 10) ^ index).
  set (value := fun m : MatchRecord => if checkFn m then 1 else 0).
  assert (Wn : forall i : nat, 0 <= weight i).
  { intros i. unfold weight. apply pow_le. lra. }
  assert (V : forall x, 0 <= value x <= 1).
  { intros x. unfold value. destruct (checkFn x); lra. }
  pose proof (weightedLoop_upper weight value Wn 1 (sortBy newestFirst matches)
                (fun x _ => proj2 (V x)) 0%nat 0 0) as U.
  pose proof (weightedLoop_lower weight value Wn 0 (sortBy newestFirst matches)
                (fun x _ => proj1 (V x)) 0%nat 0 0) as Lw.
  destruct (weightedLoop weight value (sortBy newestFirst matches) 0 0 0)
    as [weightedCount totalWeight].
  cbn [fst snd] in *. split.
  - rewrite <- (sortBy_length newestFirst matches). apply countIf_le.
  - destruct (Rlt_dec 0 totalWeight); [| lra].
    assert (R01 : 0 <= weightedCount / totalWeight <= 1).
    { apply ratio_bounds; [assumption |]. split; [apply Lw | apply U]; lra. }
    lra.
Qed.

(** X26: the clean-sheet statistics are well-formed: each team's count of
    clean sheets is at most its number of matches (head-to-head plus its
    own), and each recency-weighted percentage lies between 0 and 100. *)
Theorem clean_sheet_stats_bounds (s : State) :
  (Model.team1CleanSheets (calculateCleanSheetStats s) <=
   Model.csTeam1Matches (calculateCleanSheetStats s))%nat /\
  (Model.team2CleanSheets (calculateCleanSheetStats s) <=
   Model.csTeam2Matches (calculateCleanSheetStats s))%nat /\
  0 <= Model.team1CleanSheetPct (calculateCleanSheetStats s) <= 100 /\
  0 <= Model.team2CleanSheetPct (calculateCleanSheetStats s) <= 100.
Proof.
  unfold calculateCleanSheetStats.
  cbn [Model.team1CleanSheets Model.team2CleanSheets Model.csTeam1Matches
       Model.csTeam2Matches Model.team1CleanSheetPct Model.team2CleanSheetPct].
  pose proof (applyRecencyWeight_bounds
                (h2h (matchData s) ++ team1 (matchData s)) team1CleanSheetCheck)
    as [A1 B1].
  pose proof (applyRecencyWeight_bounds
                (h2h (matchData s) ++ team2 (matchData s)) team2CleanSheetCheck)
    as [A2 B2].
  rewrite length_app in A1, A2.
  split; [exact A1 |]. split; [exact A2 |]. split; [exact B1 | exact B2].
Qed.

(** *** Recent form *)

Lemma formMatchScore_upper (m : FormMatch) : formMatchScore m <= 41 / 10.
Proof.
  unfold formMatchScore.
  destruct (fm_win m).
  - pose proof (Rmin_l (7 / 10) (IZR (fm_score m - fm_opponentScore m) * (15 / 100))).
    destruct (fm_opponentScore m =? 0)%Z; lra.
  - destruct (fm_draw m).
    + destruct (4 <=? fm_score m + fm_opponentScore m)%Z; lra.
    + destruct (2 <=? fm_score m)%Z;
        destruct (fm_opponentScore m - fm_score m =? 1)%Z; lra.
Qed.

(** X27: the recent form of a team is never above 1.025 (a win is worth
    at most 3 + 0.7 + 0.4 out of the 4 the sum is divided by), and that
    value is reached: a single 5-0 win gives 1.025, above the 1 that the
    source's comment takes as the top of the range. *)
Theorem recent_form_at_most_41_40 (s : State) (teamName : string) (isTeam1 : bool) :
  calculateRecentForm s teamName isTeam1 <= 41 / 40 /\
  calculateRecentForm
    (handleTeam1Add (fun _ => 1700000000000%Z) [Some 5%Z] [Some 0%Z] initialState)
    "Team 1" true = 41 / 40.
Proof.
  split.
  - unfold calculateRecentForm.
    set (teamMatches := sortBy _ _). clearbody teamMatches.
    destruct teamMatches as [| m rest]; [cbn [List.length Nat.eqb]; lra |].
    cbn [List.length Nat.eqb Nat.min firstn].
    set (weight := fun index : nat => (75 / 100) ^ index).
    assert (Wn : forall i : nat, 0 <= weight i).
    { intros i. unfold weight. apply pow_le. lra. }
    assert (Wp : forall i : nat, 0 < weight i).
    { intros i. unfold weight. apply pow_lt. lra. }
    set (shown := m :: firstn _ rest).
    pose proof (weightedLoop_upper weight formMatchScore Wn (41 / 10) shown
                  (fun x _ => formMatchScore_upper x) 0%nat 0 0) as U.
    pose proof (weightedLoop_positive weight formMatchScore Wn shown 0%nat 0 0 Wp)
      as P.
    destruct (weightedLoop weight formMatchScore shown 0 0 0)
      as [formScore totalWeight].
    cbn [fst snd] in U, P.
    assert (Tp : 0 < totalWeight) by (apply P; [discriminate | lra]).
    apply ratio_bounds with (lo := formScore / (totalWeight * 4));
      [lra |]. split; [| lra].
    right. field. lra.
  - unfold calculateRecentForm.
    ShutoutExample.vm_data. cbn [firstn weightedLoop].
    unfold formMatchScore. cbn [fm_win fm_draw fm_lose fm_score fm_opponentScore].
    ShutoutExample.vm_data. ShutoutExample.vm_term (5 - 0)%Z.
    rewrite Rmin_left by lra. field.
Qed.

(** *** Consistency *)

Lemma changesLoop_bounds (rest : list Z) :
  forall (previous : Z) (i : nat) (weightedChanges totalWeight : R),
    0 <= weightedChanges <= totalWeight ->
    0 <= fst (changesLoop previous rest i weightedChanges totalWeight)
      <= snd (changesLoop previous rest i weightedChanges totalWeight).
Proof.
  induction rest as [| x rest IH]; intros previous i wc tw H;
    cbn [changesLoop fst snd].
  - exact H.
  - apply IH.
    assert (0 <= (9 / 10) ^ (i - 1)) by (apply pow_le; lra).
    destruct (negb (x =? previous)%Z); lra.
Qed.

(** X28: the consistency of a team always lies between 0 and 1. *)
Theorem team_consistency_range (s : State) (teamName : string) (isTeam1 : bool) :
  0 <= calculateTeamConsistency s teamName isTeam1 <= 1.
Proof.
  unfold calculateTeamConsistency.
  set (scores := if isTeam1 then _ else _).
  set (results := if isTeam1 then _ else _).
  clearbody scores results.
  destruct (Nat.ltb (List.length scores) 3); [lra |].
  set (mean := sumBy IZR scores / INR (List.length scores)).
  set (variance := sumBy (fun v => v) _ / INR (List.length scores)).
  assert (CV : 0 <= (if Rlt_dec 0 mean then sqrt variance / mean else 1)).
  { destruct (Rlt_dec 0 mean); [| lra].
    pose proof (sqrt_pos variance).
    apply Rmult_le_pos; [assumption |]. left. apply Rinv_0_lt_compat. assumption. }
  set (coeffVariation := if Rlt_dec 0 mean then sqrt variance / mean else 1) in *.
  assert (SC : 0 <= Rmax 0 (1 - coeffVariation / 2) <= 1).
  { split; [apply Rmax_l |]. apply Rmax_lub; lra. }
  set (scoreConsistency := Rmax 0 (1 - coeffVariation / 2)) in *.
  assert (RC : 0 <=
    (if Nat.leb 3 (List.length results) then
       let '(weightedChanges, totalWeight) :=
         match rev results with
         | [] => (0, 0)
         | first :: rest => changesLoop first rest 1 0 0
         end in
       if Rlt_dec 0 totalWeight then 1 - weightedChanges / totalWeight else 5 / 10
     else 1) <= 1).
  { destruct (Nat.leb 3 (List.length results)); [| lra].
    assert (B : 0 <= fst (match rev results with
                          | [] => (0, 0)
                          | first :: rest => changesLoop first rest 1 0 0
                          end)
                  <= snd (match rev results with
                          | [] => (0, 0)
                          | first :: rest => changesLoop first rest 1 0 0
                          end)).
    { destruct (rev results) as [| first rest]; [cbn [fst snd]; lra |].
      apply changesLoop_bounds. lra. }
    destruct (match rev results with
              | [] => (0, 0)
              | first :: rest => changesLoop first rest 1 0 0
              end) as [weightedChanges totalWeight].
    cbn [fst snd] in B.
    destruct (Rlt_dec 0 totalWeight); [| lra].
    assert (R01 : 0 <= weightedChanges / totalWeight <= 1).
    { apply ratio_bounds; [assumption | lra]. }
    lra. }
  cbv zeta. lra.
Qed.

(** *** The feature-importance chart *)

Lemma insertEntry_perm (x : string * R) (l : list (string * R)) :
  Permutation (insertEntry x l) (x :: l).
Proof.
  induction l as [| y l IH]; cbn [insertEntry].
  - reflexivity.
  - destruct (Rle_dec (snd y - snd x) 0); [reflexivity |].
    rewrite IH. apply perm_swap.
Qed.

Lemma sortEntries_perm (l : list (string * R)) :
  Permutation (fold_right insertEntry [] l) l.
Proof.
  induction l as [| x l IH]; cbn [fold_right].
  - reflexivity.
  - rewrite insertEntry_perm, IH. reflexivity.
Qed.

Lemma insertEntry_sorted (x : string * R) (l : list (string * R)) :
  Sorted notLessImportant l -> Sorted notLessImportant (insertEntry x l).
Proof.
  induction 1 as [| y l Hs IH Hh]; cbn [insertEntry].
  - repeat constructor.
  - destruct (Rle_dec (snd y - snd x) 0) as [L | L].
    + constructor; [constructor; assumption |].
      constructor. unfold notLessImportant. lra.
    + constructor; [exact IH |].
      destruct l as [| z l]; cbn [insertEntry].
      * constructor. unfold notLessImportant. lra.
      * destruct (Rle_dec (snd z - snd x) 0).
        -- constructor. unfold notLessImportant. lra.
        -- constructor. inversion Hh; subst. assumption.
Qed.

Lemma sortEntries_sorted (l : list (string * R)) :
  Sorted notLessImportant (fold_right insertEntry [] l).
Proof.
  induction l as [| x l IH]; cbn [fold_right].
  - constructor.
  - apply insertEntry_sorted. exact IH.
Qed.

Lemma clampImportance_range (x : R) : 10 <= clampImportance x <= 95.
Proof.
  unfold clampImportance. split; [apply Rmax_l |].
  apply Rmax_lub; [lra | apply Rmin_l].
Qed.

Lemma clampImportance_round (x : R) : wholeScore (clampImportance (round x)).
Proof.
  unfold round, clampImportance, wholeScore.
  set (z := Int_part (x + 1 / 2)).
  destruct (Z_le_gt_dec z 10) as [L | G].
  - exists 10%Z. split; [lia |].
    apply IZR_le in L.
    rewrite Rmin_right by lra. apply Rmax_left. exact L.
  - destruct (Z_le_gt_dec z 95) as [L | G'].
    + exists z. split; [lia |].
      apply IZR_le in L. apply Z.gt_lt, IZR_lt in G.
      rewrite Rmin_right by exact L. apply Rmax_right. lra.
    + exists 95%Z. split; [lia |].
      apply Z.gt_lt, IZR_lt in G'.
      rewrite Rmin_left by lra. apply Rmax_right. lra.
Qed.

(** What follows the object literal in [calculateFeatureImportance]:
    clamp, normalize to a total near 500, round and clamp again, sort. *)
Lemma importance_entries (raw : list (string * R)) :
  raw <> [] ->
  exists entries : list (string * R),
    (let importance := map (fun kv => (fst kv, clampImportance (snd kv))) raw in
     let totalImportance := sumBy snd importance in
     let targetTotal := 500 in
     let importance :=
       if JS.gtb totalImportance 0 then
         let normalizationFactor := targetTotal / totalImportance in
         map (fun kv => (fst kv, clampImportance (round (snd kv * normalizationFactor))))
           importance
       else importance in
     fold_right insertEntry [] importance) = fold_right insertEntry [] entries /\
    map fst entries = map fst raw /\
    Forall (fun kv => wholeScore (snd kv)) entries.
Proof.
  intros Hraw. cbv zeta.
  set (importance := map (fun kv => (fst kv, clampImportance (snd kv))) raw).
  assert (T : 0 < sumBy snd importance).
  { assert (F : Forall (fun kv : string * R => 10 <= snd kv) importance).
    { apply Forall_forall. intros kv Hkv. unfold importance in Hkv.
      apply in_map_iff in Hkv. destruct Hkv as (kv0 & <- & _).
      cbn [snd]. apply clampImportance_range. }
    assert (N : 1 <= INR (List.length importance)).
    { unfold importance. rewrite length_map.
      destruct raw as [| x raw]; [congruence |].
      cbn [List.length]. rewrite S_INR. pose proof (pos_INR (List.length raw)). lra. }
    assert (G : forall (l : list (string * R)) (init : R),
               Forall (fun kv : string * R => 10 <= snd kv) l ->
               init + 10 * INR (List.length l) <= sumFrom snd l init).
    { unfold sumFrom. induction l as [| x l IH]; intros init Hl;
        cbn [fold_left List.length].
      - cbn [INR]. lra.
      - inversion Hl as [| ? ? Hx Hl']; subst.
        eapply Rle_trans; [| apply IH; exact Hl'].
        rewrite S_INR. lra. }
    specialize (G importance 0 F). unfold sumBy. lra. }
  unfold JS.gtb. destruct (Rgt_dec (sumBy snd importance) 0) as [_ | N];
    [| exfalso; apply N; exact T].
  eexists. split; [reflexivity |]. split.
  - unfold importance. rewrite !map_map. reflexivity.
  - apply Forall_forall. intros kv Hkv.
    apply in_map_iff in Hkv. destruct Hkv as (kv0 & <- & _).
    cbn [snd]. apply clampImportance_round.
Qed.

(** X29: whatever the feature snapshot, the feature-importance chart has
    the nine named features, each exactly once, every score is a whole
    number between 10 and 95, and the entries are in order of
    non-increasing score. *)
Theorem feature_importance_chart (features : Model.Features) :
  Permutation (map fst (calculateFeatureImportance features)) featureNames /\
  List.length (calculateFeatureImportance features) = 9%nat /\
  Forall (fun kv => wholeScore (snd kv)) (calculateFeatureImportance features) /\
  Sorted notLessImportant (calculateFeatureImportance features).
Proof.
  assert (E : exists entries : list (string * R),
             calculateFeatureImportance features = fold_right insertEntry [] entries /\
             map fst entries = featureNames /\
             Forall (fun kv => wholeScore (snd kv)) entries).
  { unfold calculateFeatureImportance. cbv zeta.
    match goal with
    | |- context [sumBy snd (map _ ?raw)] =>
      destruct (importance_entries raw) as (entries & E1 & E2 & E3);
        [discriminate | exists entries]
    end.
    split; [exact E1 |]. split; [exact E2 | exact E3]. }
  destruct E as (entries & -> & Names & Whole).
  pose proof (sortEntries_perm entries) as P.
  split; [| split; [| split]].
  - rewrite <- Names. apply Permutation_map. exact P.
  - rewrite (Permutation_length P), <- (length_map fst), Names. reflexivity.
  - apply Forall_forall. intros kv Hkv.
    apply (Permutation_in _ P) in Hkv.
    rewrite Forall_forall in Whole. apply Whole. exact Hkv.
  - apply sortEntries_sorted.
Qed.

(** *** Analyze *)

Lemma Forall2_sameMatch_map (s : State) (l : list MatchRecord) :
  Forall2 sameMatch l (map (updateMatchLines s) l).
Proof.
  induction l as [| m l IH]; cbn [map]; constructor; [| exact IH].
  unfold sameMatch, updateMatchLines. cbn. repeat split.
Qed.

Lemma flagsAgree_updateMatchLines (s s' : State) (m : MatchRecord) :
  totalLine s' = totalLine s -> pointSpread s' = pointSpread s ->
  spreadDirection s' = spreadDirection s ->
  flagsAgree s' (updateMatchLines s m).
Proof.
  intros Ht Hp Hd. unfold flagsAgree, updateMatchLines, calculateSpreadCover.
  cbn [totalOverLine spreadCover team1Score team2Score totalScore].
  rewrite Ht, Hp, Hd.
  destruct (Qle_bool (totalLine s) 0); destruct (Qle_bool (pointSpread s) 0);
    cbn [negb]; split; reflexivity.
Qed.

(** X19: when Analyze has read the betting-line fields, the over-line flag
    and the spread-cover label of every stored record, whatever lines it
    was ingested under, are the ones of the lines now in force; nothing
    else of any record changes, and no record is added, dropped or
    moved. *)
Theorem analyze_refreshes_the_line_flags (a : AppState) :
  (totalLine (globals (processAllMatchData a)) = bettingLineField a /\
   pointSpread (globals (processAllMatchData a)) = pointSpreadField a /\
   spreadDirection (globals (processAllMatchData a)) = spreadDirectionField a) /\
  Forall (flagsAgree (globals (processAllMatchData a)))
    (allRecords (matchData (globals (processAllMatchData a)))) /\
  Forall2 sameMatch
    (allRecords (matchData (globals a)))
    (allRecords (matchData (globals (processAllMatchData a)))).
Proof.
  unfold processAllMatchData, updateSpreadCoverCalculations, allRecords.
  cbn [globals set_globals set_matchData set_lines matchData totalLine
       pointSpread spreadDirection h2h team1 team2].
  split; [repeat split |]. split.
  - rewrite !Forall_app. repeat split; apply Forall_map, Forall_forall;
      intros m _; apply flagsAgree_updateMatchLines; reflexivity.
  - repeat apply Forall2_app; apply Forall2_sameMatch_map.
Qed.

Lemma analysisResult_probabilities (s : State) :
  probabilities (analysisResult s) =
  Model.calculateModelV1WinProbabilities (prepareMatchFeatures s).
Proof.
  unfold analysisResult.
  pose proof (ModelFacts.ensurePredictionConsistency_fst
    (Model.calculateModelV1WinProbabilities (prepareMatchFeatures s))
    (calculateModelV1ProjectedMargin s (prepareMatchFeatures s))) as F.
  destruct (Model.ensurePredictionConsistency _ _) as [p m].
  cbn [probabilities]. exact F.
Qed.

Lemma analysisResult_margin (s : State) :
  projectedMargin (analysisResult s) =
  snd (Model.ensurePredictionConsistency
         (Model.calculateModelV1WinProbabilities (prepareMatchFeatures s))
         (calculateModelV1ProjectedMargin s (prepareMatchFeatures s))).
Proof.
  unfold analysisResult.
  destruct (Model.ensurePredictionConsistency _ _) as [p m]. reflexivity.
Qed.

Lemma analysisResult_rest (s : State) :
  projectedTotal (analysisResult s) =
    calculateModelV1ProjectedTotal s (prepareMatchFeatures s) /\
  features (analysisResult s) = prepareMatchFeatures s /\
  ar_totalLine (analysisResult s) = totalLine s /\
  ar_pointSpread (analysisResult s) = pointSpread s /\
  ar_spreadDirection (analysisResult s) = spreadDirection s.
Proof.
  unfold analysisResult.
  destruct (Model.ensurePredictionConsistency _ _) as [p m]. repeat split.
Qed.

(** X18: an accepted Analyze always stores a result, and the stored
    result is coherent: its three probabilities sum to 100, its projected
    total is at least 0.5, its margin is at least 0.25 when team1 has the
    highest probability and at most -0.25 when team2 has, its betting
    lines are the ones of the form fields, and when the user has not
    confirmed a thin-data warning its snapshot has sufficient data. *)
Theorem accepted_analysis_is_coherent (confirmAnswer : bool) (a : AppState) :
  validateInputs confirmAnswer (globals a) = true ->
  exists r : AnalysisResult,
    lastAnalysisResults (analyzeClick confirmAnswer a) = Some r /\
    Model.probSum (probabilities r) = 100 /\
    5 / 10 <= projectedTotal r /\
    (Model.predictedWinner (probabilities r) = Model.W_team1 ->
     25 / 100 <= projectedMargin r) /\
    (Model.predictedWinner (probabilities r) = Model.W_team2 ->
     projectedMargin r <= - (25 / 100)) /\
    (ar_totalLine r = bettingLineField a /\
     ar_pointSpread r = pointSpreadField a /\
     ar_spreadDirection r = spreadDirectionField a) /\
    Model.totalMatches (Model.dataQuality (features r)) =
      getTotalMatchCount (globals a) /\
    (confirmAnswer = false ->
     Model.dataSufficiency (Model.dataQuality (features r)) = true).
Proof.
  intros Hv.
  pose proof (PipelineFacts.validateInputs_count _ _ Hv) as Hc.
  set (g := globals (processAllMatchData a)).
  exists (analysisResult g).
  pose proof (PipelineFacts.processAllMatchData_count a) as Count. fold g in Count.
  destruct (analysisResult_rest g) as (Tot & Feat & L1 & L2 & L3).
  split; [| split; [| split; [| split; [| split; [| split; [| split]]]]]].
  - unfold analyzeClick. rewrite Hv. cbn [negb].
    unfold performAnalysis. fold g. rewrite Count.
    apply Nat.eqb_neq in Hc. rewrite Hc. reflexivity.
  - rewrite analysisResult_probabilities. apply ModelFacts.probSum_final.
  - rewrite Tot. unfold calculateModelV1ProjectedTotal. apply Rmax_l.
  - rewrite analysisResult_margin, analysisResult_probabilities.
    apply ConsistencyExtras.reconciled_margin_bounds.
  - rewrite analysisResult_margin, analysisResult_probabilities.
    apply ConsistencyExtras.reconciled_margin_bounds.
  - rewrite L1, L2, L3. repeat split.
  - rewrite Feat. cbn [prepareMatchFeatures Model.dataQuality Model.totalMatches].
    exact Count.
  - intros ->. rewrite Feat.
    cbn [prepareMatchFeatures Model.dataQuality Model.dataSufficiency].
    rewrite Count. unfold validateInputs in Hv.
    apply Nat.eqb_neq in Hc. rewrite Hc in Hv.
    destruct (String.eqb (trim (team1Name (globals a))) "" ||
              String.eqb (trim (team2Name (globals a))) ""); [discriminate |].
    destruct (String.eqb (trim (team1Name (globals a)))
                (trim (team2Name (globals a)))); [discriminate |].
    destruct (Nat.ltb (getTotalMatchCount (globals a)) MIN_MATCHES_FOR_GOOD_ANALYSIS)
      eqn:Lt; [discriminate |].
    apply Nat.ltb_ge in Lt. apply Nat.leb_le. exact Lt.
Qed.

Lemma accepted_analysis_witness :
  exists r : AnalysisResult,
    lastAnalysisResults (analyzeClick true sampleHeadToHead) = Some r /\
    Model.probSum (probabilities r) = 100.
Proof.
  destruct (accepted_analysis_is_coherent true sampleHeadToHead eq_refl)
    as (r & H1 & H2 & _).
  exists r. split; [exact H1 | exact H2].
Defined.

End PipelineExtras.
